(** * axios-enhance: the request orchestration layer of [index.js]

    A shallow embedding of the [MAxios] class (key derivation, the
    pending-request registry, the response cache, the retry scheduler, the
    two interceptors and the public [request]) together with the part of
    axios the class talks to: cancel tokens, the interceptor chain of one
    instance, and the adapter (the transport), whose replies are events of
    the environment. *)

From stdpp Require Import gmap strings list.
From Stdlib Require Import ZArith Ascii String Lia.

Local Open Scope string_scope.

(** ** JavaScript strings *)

Module Js.

Definition lowerChar (c : ascii) : ascii :=
  let n := nat_of_ascii c in
  if (65 <=? n)%nat && (n <=? 90)%nat then ascii_of_nat (n + 32) else c.

(** [String.prototype.toLocaleLowerCase], on the ASCII letters. *)
Fixpoint toLocaleLowerCase (s : string) : string :=
  match s with
  | EmptyString => EmptyString
  | String c rest => String (lowerChar c) (toLocaleLowerCase rest)
  end.

(** A string is truthy unless it is empty. *)
Definition truthy (s : string) : bool := negb (s =? "").

(** [`${x}`] for a property that may be undefined. *)
Definition template (x : option string) : string :=
  match x with
  | Some s => s
  | None => "undefined"
  end.

End Js.

(** ** JavaScript [Map] objects

    A [Map] is its list of entries in insertion order; the operations are the
    ones of [Map.prototype].  Nothing in the type keeps two entries from
    having the same key: that a [Map] never does is a property of [set]. *)

Module JsMap.
Section Entries.
Context {V : Type}.

Definition t := list (string * V).

Fixpoint has (key : string) (m : t) : bool :=
  match m with
  | [] => false
  | (k, _) :: rest => if k =? key then true else has key rest
  end.

Fixpoint get (key : string) (m : t) : option V :=
  match m with
  | [] => None
  | (k, v) :: rest => if k =? key then Some v else get key rest
  end.

(** [set] overwrites the value of an existing entry in place and appends
    a new entry otherwise. *)
Fixpoint set (key : string) (v : V) (m : t) : t :=
  match m with
  | [] => [(key, v)]
  | (k, v') :: rest =>
      if k =? key then (k, v) :: rest else (k, v') :: set key v rest
  end.

Fixpoint delete (key : string) (m : t) : t :=
  match m with
  | [] => []
  | (k, v) :: rest =>
      if k =? key then delete key rest else (k, v) :: delete key rest
  end.

(** How many entries the map holds under [key]. *)
Fixpoint count (key : string) (m : t) : nat :=
  match m with
  | [] => 0
  | (k, _) :: rest => (if k =? key then 1 else 0) + count key rest
  end.

End Entries.
Arguments t : clear implicits.
End JsMap.

(** ** Request descriptors *)

(** Tokens and instances are numbered in the order of their creation. *)
Abbreviation TokenId := nat (only parsing).
Abbreviation TaskId := nat (only parsing).

(** [retryDelay] is a number of milliseconds or a function of the attempt;
    [isFunction(retryDelay)] tells which. *)
Inductive RetryDelay :=
| DelayNumber (ms : Z)
| DelayFunction (f : Z -> Z).

(** The properties of a config object that the layer reads or writes.
    [method] and [url] may be undefined; [__retryCount] and [cancelToken]
    are written by the layer itself. *)
Record Fields := {
  method : option string;
  url : option string;
  cancelDuplicated : bool;
  retry : Z;
  retryDelay : RetryDelay;
  retryDelayRise : bool;
  timeout : Z;
  cache : bool;
  __retryCount : option Z;
  cancelToken : option TokenId
}.

(** A config: its fields and, when [duplicatedKey] is a function, that
    function (it is applied to the config it belongs to). *)
Record Config := {
  fields :> Fields;
  duplicatedKey : option (Fields -> string)
}.

Definition with_fields (f : Fields) (config : Config) : Config :=
  {| fields := f; duplicatedKey := duplicatedKey config |}.

Definition with_cancelToken (c : option TokenId) (config : Config) : Config :=
  with_fields
    {| method := method config; url := url config;
       cancelDuplicated := cancelDuplicated config; retry := retry config;
       retryDelay := retryDelay config; retryDelayRise := retryDelayRise config;
       timeout := timeout config; cache := cache config;
       __retryCount := __retryCount config; cancelToken := c |} config.

Definition with_retryCount (n : Z) (config : Config) : Config :=
  with_fields
    {| method := method config; url := url config;
       cancelDuplicated := cancelDuplicated config; retry := retry config;
       retryDelay := retryDelay config; retryDelayRise := retryDelayRise config;
       timeout := timeout config; cache := cache config;
       __retryCount := Some n; cancelToken := cancelToken config |} config.

Definition with_timeout (ms : Z) (config : Config) : Config :=
  with_fields
    {| method := method config; url := url config;
       cancelDuplicated := cancelDuplicated config; retry := retry config;
       retryDelay := retryDelay config; retryDelayRise := retryDelayRise config;
       timeout := ms; cache := cache config;
       __retryCount := __retryCount config; cancelToken := cancelToken config |}
    config.

(** [const defaultConfig = { method: "GET", cancelDuplicated: false,
    duplicatedKey: "", retry: 0, retryDelay: 200, retryDelayRise: true,
    timeout: -1, cache: false }].  The default [duplicatedKey] is a string,
    not a function. *)
Definition defaultConfig : Config :=
  {| fields :=
       {| method := Some "GET"; url := None; cancelDuplicated := false;
          retry := 0; retryDelay := DelayNumber 200; retryDelayRise := true;
          timeout := -1; cache := false;
          __retryCount := None; cancelToken := None |};
     duplicatedKey := None |}.

(** The empty object [{}]: every property is undefined.  An undefined
    [cancelDuplicated] or [cache] is falsy and [undefined > 0] is false, as for
    [false] and [0]. *)
Definition emptyObject : Config :=
  {| fields :=
       {| method := None; url := None; cancelDuplicated := false;
          retry := 0; retryDelay := DelayNumber 0; retryDelayRise := false;
          timeout := 0; cache := false;
          __retryCount := None; cancelToken := None |};
     duplicatedKey := None |}.

(** The [options] a caller passes to [request]: any subset of the
    properties. *)
Record Options := {
  opt_method : option string;
  opt_url : option string;
  opt_cancelDuplicated : option bool;
  opt_duplicatedKey : option (Fields -> string);
  opt_retry : option Z;
  opt_retryDelay : option RetryDelay;
  opt_retryDelayRise : option bool;
  opt_timeout : option Z;
  opt_cache : option bool;
  opt_retryCount : option Z
}.

Definition override {A} (source : option A) (target : A) : A :=
  match source with
  | Some v => v
  | None => target
  end.

Definition override_opt {A} (source : option A) (target : option A) : option A :=
  match source with
  | Some v => Some v
  | None => target
  end.

(** [Object.assign({}, target, options)]. *)
Definition assign (target : Config) (options : Options) : Config :=
  {| fields :=
       {| method := override_opt (opt_method options) (method target);
          url := override_opt (opt_url options) (url target);
          cancelDuplicated :=
            override (opt_cancelDuplicated options) (cancelDuplicated target);
          retry := override (opt_retry options) (retry target);
          retryDelay := override (opt_retryDelay options) (retryDelay target);
          retryDelayRise :=
            override (opt_retryDelayRise options) (retryDelayRise target);
          timeout := override (opt_timeout options) (timeout target);
          cache := override (opt_cache options) (cache target);
          __retryCount :=
            override_opt (opt_retryCount options) (__retryCount target);
          cancelToken := cancelToken target |};
     duplicatedKey :=
       override_opt (opt_duplicatedKey options) (duplicatedKey target) |}.

(** ** What axios provides *)

(** The argument [removeReq] passes to a cancel function. *)
Record CancelMessage := { type : string; message : string }.

(** [const ERROR_TYPE = { Cancel: "cancelDuplicated" }]. *)
Module ERROR_TYPE.
Definition Cancel : string := "cancelDuplicated".
End ERROR_TYPE.

Record Response := { data : string; response_config : Config }.

(** The errors that reach the response interceptor: the [Cancel] of a
    cancelled token (no [config]), a failure of the transport (its [config]
    is the config of the request), or an exception thrown inside the chain
    (no [config]). *)
Inductive AxiosError :=
| Cancel (reason : CancelMessage)
| TransportError (failure : string) (config : Config)
| TypeError.

Definition error_config (error : AxiosError) : option Config :=
  match error with
  | TransportError _ config => Some config
  | _ => None
  end.

(** What a promise of the layer is rejected with: [error.message] of a
    cancellation, or the error itself. *)
Inductive Rejection :=
| RejectMessage (m : CancelMessage)
| RejectError (error : AxiosError).

Inductive Outcome :=
| Resolved (response : Response)
| Rejected (reason : Rejection).

(** What an interceptor hands back to the chain. *)
Inductive Promise :=
| Resolve (response : Response)
| Reject (reason : Rejection)
| RetryTask (delay : Z) (config : Config).

(** Where the current request of an instance stands in the chain
    [request interceptor -> dispatchRequest -> adapter -> response
    interceptor]. *)
Inductive Phase :=
| Created
| Intercepted
| InFlight
| Delaying (delay : Z)
| Done (outcome : Outcome).

(** One instance made by [getAxiosInstance], with the config of its current
    request.  A retry re-issues on the same instance. *)
Record Task := { task_config : Config; phase : Phase }.

(** The singleton [MAxios] with its two maps, and the axios objects alive:
    the reason of every cancelled token, the instances, and the invocations
    of the adapter so far (latest first). *)
Record World := {
  requestMap : JsMap.t TokenId;
  responseCacheMap : JsMap.t Response;
  reasons : gmap nat CancelMessage;
  nextToken : TokenId;
  tasks : gmap nat Task;
  nextTask : TaskId;
  adapterCalls : list TaskId
}.

Definition with_requestMap (m : JsMap.t TokenId) (w : World) : World :=
  {| requestMap := m; responseCacheMap := responseCacheMap w;
     reasons := reasons w; nextToken := nextToken w; tasks := tasks w;
     nextTask := nextTask w; adapterCalls := adapterCalls w |}.

Definition with_responseCacheMap (m : JsMap.t Response) (w : World) : World :=
  {| requestMap := requestMap w; responseCacheMap := m;
     reasons := reasons w; nextToken := nextToken w; tasks := tasks w;
     nextTask := nextTask w; adapterCalls := adapterCalls w |}.

Definition with_reasons (r : gmap nat CancelMessage) (w : World) : World :=
  {| requestMap := requestMap w; responseCacheMap := responseCacheMap w;
     reasons := r; nextToken := nextToken w; tasks := tasks w;
     nextTask := nextTask w; adapterCalls := adapterCalls w |}.

Definition with_nextToken (n : TokenId) (w : World) : World :=
  {| requestMap := requestMap w; responseCacheMap := responseCacheMap w;
     reasons := reasons w; nextToken := n; tasks := tasks w;
     nextTask := nextTask w; adapterCalls := adapterCalls w |}.

Definition with_task (id : TaskId) (t : Task) (w : World) : World :=
  {| requestMap := requestMap w; responseCacheMap := responseCacheMap w;
     reasons := reasons w; nextToken := nextToken w;
     tasks := <[id := t]> (tasks w);
     nextTask := nextTask w; adapterCalls := adapterCalls w |}.

Definition with_nextTask (n : TaskId) (w : World) : World :=
  {| requestMap := requestMap w; responseCacheMap := responseCacheMap w;
     reasons := reasons w; nextToken := nextToken w; tasks := tasks w;
     nextTask := n; adapterCalls := adapterCalls w |}.

Definition with_adapterCall (id : TaskId) (w : World) : World :=
  {| requestMap := requestMap w; responseCacheMap := responseCacheMap w;
     reasons := reasons w; nextToken := nextToken w; tasks := tasks w;
     nextTask := nextTask w; adapterCalls := id :: adapterCalls w |}.

(** [new MAxios()] before any request. *)
Definition init : World :=
  {| requestMap := []; responseCacheMap := [];
     reasons := ∅; nextToken := 0; tasks := ∅; nextTask := 0;
     adapterCalls := [] |}.

Module Axios.

(** [new axios.CancelToken(executor)]: a fresh token; the executor receives
    its cancel function, which the token's number stands for. *)
Definition CancelToken (w : World) : TokenId * World :=
  (nextToken w, with_nextToken (S (nextToken w)) w).

(** The cancel function [c] of a token: the first call sets [token.reason],
    later calls do nothing. *)
Definition cancel (c : TokenId) (m : CancelMessage) (w : World) : World :=
  match reasons w !! c with
  | Some _ => w
  | None => with_reasons (<[c := m]> (reasons w)) w
  end.

(** [throwIfCancellationRequested(config)]: the reason of the config's
    token, when it has been cancelled. *)
Definition cancellationRequested (config : Config) (w : World)
  : option CancelMessage :=
  match cancelToken config with
  | Some c => reasons w !! c
  | None => None
  end.

(** [instance.request(config)] on an instance: the chain starts on a copy
    of the config, taken to carry every property as it is. *)
Definition request (id : TaskId) (config : Config) (w : World) : World :=
  with_task id {| task_config := config; phase := Created |} w.

End Axios.

(** ** The class [MAxios] (JavaScript variant)

    [this] is the world: the methods read and write [requestMap] and
    [responseCacheMap], and create and cancel tokens.  A method that can throw
    returns an [option]; [None] is the exception. *)

Module MAxios.

(** The property [config.retry]; the name [retry] is the method below. *)
Local Abbreviation retry_of := retry (only parsing).

Definition getDuplicatedKey (config : Config) : option string :=
  let customKey :=
    match duplicatedKey config with
    | Some f => f config
    | None => ""
    end in
  if Js.truthy customKey then Some customKey
  else
    match method config with
    | Some m => Some (Js.toLocaleLowerCase m ++ Js.template (url config))
    | None => None
    end.

Definition addReq (config : Config) (this : World) : option (Config * World) :=
  if negb (cancelDuplicated config) then Some (config, this)
  else
    match getDuplicatedKey config with
    | None => None
    | Some key =>
        if negb (JsMap.has key (requestMap this)) then
          let '(c, this) := Axios.CancelToken this in
          let this :=
            with_requestMap (JsMap.set key c (requestMap this)) this in
          Some (with_cancelToken (Some c) config, this)
        else Some (config, this)
    end.

(** The message every cancel function of the registry is called with. *)
Definition canceled : CancelMessage :=
  {| type := ERROR_TYPE.Cancel; message := "Request canceled " |}.

(** The body runs inside [try]: an exception of [getDuplicatedKey], or of
    calling an undefined [cancel], is caught and logged. *)
Definition removeReq (config : Config) (this : World) : World :=
  match getDuplicatedKey config with
  | None => this
  | Some key =>
      if negb (cancelDuplicated config) then this
      else if negb (JsMap.has key (requestMap this)) then this
      else
        let cancel := JsMap.get key (requestMap this) in
        let this :=
          with_requestMap (JsMap.delete key (requestMap this)) this in
        match cancel with
        | Some c => Axios.cancel c canceled this
        | None => this
        end
  end.

(** [config.__retryCount || 0]. *)
Definition retryCountOr0 (config : Config) : Z :=
  match __retryCount config with
  | Some n => if (n =? 0)%Z then 0%Z else n
  | None => 0%Z
  end.

(** [error.config] and [config] are one object: the error that [retry]
    rejects with shows the writes to [config]. *)
Definition sharing (config : Config) (error : AxiosError) : AxiosError :=
  match error with
  | TransportError failure _ => TransportError failure config
  | _ => error
  end.

Definition retry (config : Config) (error : AxiosError) : Promise :=
  let retryCount := retryCountOr0 config in
  let config := with_retryCount retryCount config in
  if (retryCount >=? retry_of config)%Z then
    Reject (RejectError (sharing config error))
  else
    let retryCount := (retryCount + 1)%Z in
    let config := with_retryCount retryCount config in
    let config :=
      if (retryCount =? retry_of config)%Z then with_timeout 15000 config
      else config in
    let delay :=
      match retryDelay config with
      | DelayFunction f => f retryCount
      | DelayNumber ms =>
          (ms * (if retryDelayRise config then retryCount else 1))%Z
      end in
    RetryTask delay config.

(** [Some None] is [null]. *)
Definition getResponseCache (config : Config) (this : World)
  : option (option Response) :=
  match getDuplicatedKey config with
  | None => None
  | Some key =>
      if JsMap.has key (responseCacheMap this)
      then Some (JsMap.get key (responseCacheMap this))
      else Some None
  end.

Definition setResponseCache (config : Config) (response : Response)
    (this : World) : option World :=
  if negb (cache config) then Some this
  else
    match getDuplicatedKey config with
    | None => None
    | Some key =>
        Some (with_responseCacheMap
                (JsMap.set key response (responseCacheMap this)) this)
    end.

(** The request interceptor. *)
Definition interceptorsRequest (config : Config) (this : World)
  : option (Config * World) :=
  let this := removeReq config this in
  addReq config this.

(** The response interceptor on a response; an exception thrown in it
    rejects the promise. *)
Definition interceptorsResponse (response : Response) (this : World)
  : Promise * World :=
  let this := removeReq (response_config response) this in
  match setResponseCache (response_config response) response this with
  | Some this => (Resolve response, this)
  | None => (Reject (RejectError TypeError), this)
  end.

(** The response interceptor on an error.  [axios.isCancel(error)] holds of
    a [Cancel] and of nothing else; its [message] is what the cancel function
    was called with. *)
Definition interceptorsResponseError (error : AxiosError) (this : World)
  : Promise * World :=
  let config :=
    match error_config error with
    | Some config => config
    | None => emptyObject
    end in
  let this := removeReq config this in
  match error with
  | Cancel m => (Reject (RejectMessage m), this)
  | _ =>
      if (retry_of config >? 0)%Z then (retry config error, this)
      else (Reject (RejectError error), this)
  end.

(** [axios.create()]: a new instance.  [interceptors(instance)] then gives
    it the two interceptors above, which the event loop runs. *)
Definition getAxiosInstance (this : World) : TaskId * World :=
  (nextTask this, with_nextTask (S (nextTask this)) this).

(** What [request] returns: the cached response, the promise of a new
    instance, or an exception. *)
Inductive Returned :=
| FromCache (responseCache : Response)
| FromInstance (instance : TaskId)
| Thrown.

Definition request (options : Options) (this : World) : Returned * World :=
  let config := assign defaultConfig options in
  let issue :=
    let '(instance, this) := getAxiosInstance this in
    (FromInstance instance, Axios.request instance config this) in
  if cache config then
    match getResponseCache config this with
    | None => (Thrown, this)
    | Some (Some responseCache) => (FromCache responseCache, this)
    | Some None => issue
    end
  else issue.

End MAxios.

(** ** The TypeScript variant of key derivation

    In [index.ts] the default key is itself a function, the default value of
    [duplicatedKey], and [getDuplicatedKey] only calls the function it finds:
    [const { duplicatedKey = () => '' } = config; return duplicatedKey(config)].
    A key function may throw ([None]), as the default one does on a config
    without [method]. *)

Module TS.

Record IConfig := {
  fields : Fields;
  duplicatedKey : option (Fields -> option string)
}.

Record IOptions := {
  opt_method : option string;
  opt_url : option string;
  opt_duplicatedKey : option (Fields -> option string)
}.

(** [({ method, url }) => `${(method as Method).toLocaleLowerCase()}${url}`]. *)
Definition defaultDuplicatedKey (f : Fields) : option string :=
  match method f with
  | Some m => Some (Js.toLocaleLowerCase m ++ Js.template (url f))
  | None => None
  end.

Definition defaultConfig : IConfig :=
  {| fields :=
       {| method := Some "get"; url := None; cancelDuplicated := false;
          retry := 0; retryDelay := DelayNumber 200; retryDelayRise := true;
          timeout := 0; cache := false;
          __retryCount := None; cancelToken := None |};
     duplicatedKey := Some defaultDuplicatedKey |}.

(** [Object.assign({}, defaultConfig, options)], on the properties key
    derivation can see. *)
Definition assign (target : IConfig) (options : IOptions) : IConfig :=
  {| fields :=
       {| method := override_opt (opt_method options) (method (fields target));
          url := override_opt (opt_url options) (url (fields target));
          cancelDuplicated := cancelDuplicated (fields target);
          retry := retry (fields target);
          retryDelay := retryDelay (fields target);
          retryDelayRise := retryDelayRise (fields target);
          timeout := timeout (fields target);
          cache := cache (fields target);
          __retryCount := __retryCount (fields target);
          cancelToken := cancelToken (fields target) |};
     duplicatedKey :=
       override_opt (opt_duplicatedKey options) (duplicatedKey target) |}.

Definition getDuplicatedKey (config : IConfig) : option string :=
  match duplicatedKey config with
  | Some f => f (fields config)
  | None => Some ""
  end.

(** The property [config.retry]; the name [retry] is the method below. *)
Local Abbreviation retry_of := retry (only parsing).

Definition with_retryCount (n : Z) (config : IConfig) : IConfig :=
  {| fields :=
       {| method := method (fields config); url := url (fields config);
          cancelDuplicated := cancelDuplicated (fields config);
          retry := retry (fields config);
          retryDelay := retryDelay (fields config);
          retryDelayRise := retryDelayRise (fields config);
          timeout := timeout (fields config); cache := cache (fields config);
          __retryCount := Some n;
          cancelToken := cancelToken (fields config) |};
     duplicatedKey := duplicatedKey config |}.

(** [config.__retryCount || 0]. *)
Definition retryCountOr0 (config : IConfig) : Z :=
  match __retryCount (fields config) with
  | Some n => if (n =? 0)%Z then 0%Z else n
  | None => 0%Z
  end.

(** What [retry] returns: [Promise.reject(error)], or the promise of the
    re-issue after [delay]; either way with the config as [retry] left it. *)
Inductive Retried :=
| Rejects (config : IConfig)
| Reissues (delay : Z) (config : IConfig).

(** [retry] of [index.ts]: [typeof retryDelay === 'number'] chooses the
    delay, and nothing is done to [timeout]. *)
Definition retry (config : IConfig) : Retried :=
  let retryCount := retryCountOr0 config in
  let config := with_retryCount retryCount config in
  if (retryCount >=? retry_of (fields config))%Z then Rejects config
  else
    let retryCount := (retryCount + 1)%Z in
    let config := with_retryCount retryCount config in
    let delay :=
      match retryDelay (fields config) with
      | DelayNumber ms =>
          (ms * (if retryDelayRise (fields config) then retryCount else 1))%Z
      | DelayFunction f => f retryCount
      end in
    Reissues delay config.

End TS.

(** ** The event loop

    One event is one turn of a promise chain: a call of [request] by the
    client, the request interceptor of an instance, its [dispatchRequest],
    the settling of its adapter, or the timer of its retry. *)

Inductive Event :=
| Call (options : Options)
| RunRequestInterceptor (id : TaskId)
| DispatchRequest (id : TaskId)
| AdapterSettles (id : TaskId) (reply : string + string)
| TimerFires (id : TaskId).

(** The chain of instance [id] goes on with what the interceptor returned. *)
Definition continue (id : TaskId) (config : Config) (p : Promise) (w : World)
  : World :=
  match p with
  | Resolve response =>
      with_task id {| task_config := config; phase := Done (Resolved response) |} w
  | Reject reason =>
      with_task id {| task_config := config; phase := Done (Rejected reason) |} w
  | RetryTask delay config' =>
      with_task id {| task_config := config'; phase := Delaying delay |} w
  end.

Definition settle (id : TaskId) (config : Config) (r : Promise * World) : World :=
  continue id config (fst r) (snd r).

(** [None]: the event is not enabled. *)
Definition step (e : Event) (w : World) : option World :=
  match e with
  | Call options => Some (snd (MAxios.request options w))
  | RunRequestInterceptor id =>
      match tasks w !! id with
      | Some {| task_config := config; phase := Created |} =>
          match MAxios.interceptorsRequest config w with
          | Some (config', w') =>
              Some (with_task id
                      {| task_config := config'; phase := Intercepted |} w')
          | None =>
              Some (settle id config
                      (MAxios.interceptorsResponseError TypeError w))
          end
      | _ => None
      end
  | DispatchRequest id =>
      match tasks w !! id with
      | Some {| task_config := config; phase := Intercepted |} =>
          match Axios.cancellationRequested config w with
          | Some reason =>
              Some (settle id config
                      (MAxios.interceptorsResponseError (Cancel reason) w))
          | None =>
              Some (with_task id {| task_config := config; phase := InFlight |}
                      (with_adapterCall id w))
          end
      | _ => None
      end
  | AdapterSettles id reply =>
      match tasks w !! id with
      | Some {| task_config := config; phase := InFlight |} =>
          match Axios.cancellationRequested config w with
          | Some reason =>
              Some (settle id config
                      (MAxios.interceptorsResponseError (Cancel reason) w))
          | None =>
              match reply with
              | inl body =>
                  Some (settle id config
                          (MAxios.interceptorsResponse
                             {| data := body; response_config := config |} w))
              | inr failure =>
                  Some (settle id config
                          (MAxios.interceptorsResponseError
                             (TransportError failure config) w))
              end
          end
      | _ => None
      end
  | TimerFires id =>
      match tasks w !! id with
      | Some {| task_config := config; phase := Delaying _ |} =>
          Some (Axios.request id config w)
      | _ => None
      end
  end.

Fixpoint run (events : list Event) (w : World) : option World :=
  match events with
  | [] => Some w
  | e :: rest =>
      match step e w with
      | Some w' => run rest w'
      | None => None
      end
  end.

(** The worlds an execution can be in. *)
Inductive reachable : World -> Prop :=
| reachable_init : reachable init
| reachable_step e w w' : reachable w -> step e w = Some w' -> reachable w'.

Definition phase_of (id : TaskId) (w : World) : option Phase :=
  phase <$> tasks w !! id.

Definition config_of (id : TaskId) (w : World) : option Config :=
  task_config <$> tasks w !! id.

(** How often the adapter was invoked for instance [id]. *)
Definition transportCalls (id : TaskId) (w : World) : nat :=
  List.length (filter (fun i => i = id) (adapterCalls w)).

(** The kind a rejection is tagged with: its [type] property.  Only the
    message of a cancellation has one ([ERROR_TYPE] has the single member
    [Cancel]); the layer adds nothing to an error it passes on. *)
Definition kind (reason : Rejection) : option string :=
  match reason with
  | RejectMessage m => Some (type m)
  | RejectError _ => None
  end.

(** ** An instance left alone with its transport *)

(** The event the chain of instance [id] is waiting for; the transport
    answers a request from its config. *)
Definition next_event (transport : Config -> string + string) (id : TaskId)
    (w : World) : option Event :=
  match tasks w !! id with
  | Some {| task_config := config; phase := Created |} =>
      Some (RunRequestInterceptor id)
  | Some {| task_config := config; phase := Intercepted |} =>
      Some (DispatchRequest id)
  | Some {| task_config := config; phase := InFlight |} =>
      Some (AdapterSettles id (transport config))
  | Some {| task_config := config; phase := Delaying _ |} =>
      Some (TimerFires id)
  | _ => None
  end.

(** Runs instance [id], and nothing else, for at most [fuel] events. *)
Fixpoint drive (transport : Config -> string + string) (fuel : nat)
    (id : TaskId) (w : World) : World :=
  match fuel with
  | O => w
  | S fuel' =>
      match next_event transport id w with
      | Some e =>
          match step e w with
          | Some w' => drive transport fuel' id w'
          | None => w
          end
      | None => w
      end
  end.

(** All the ways to merge two schedules, each keeping its own order. *)
Fixpoint interleavings (xs : list Event) : list Event -> list (list Event) :=
  fix inner (ys : list Event) : list (list Event) :=
    match xs, ys with
    | [], _ => [ys]
    | _, [] => [xs]
    | x :: xs', y :: ys' =>
        (map (cons x) (interleavings xs' ys) ++ map (cons y) (inner ys'))%list
    end.

(** The events the chain of instance [id] has yet to run from phase [ph] on,
    when the transport answers with [reply] and no retry follows. *)
Definition remaining_events (id : TaskId) (ph : Phase) (reply : string + string)
  : list Event :=
  match ph with
  | Created =>
      [RunRequestInterceptor id; DispatchRequest id; AdapterSettles id reply]
  | Intercepted => [DispatchRequest id; AdapterSettles id reply]
  | InFlight => [AdapterSettles id reply]
  | _ => []
  end.

(** The event that settles a request whose token has been cancelled: its
    [dispatchRequest] if it was not dispatched yet, else the settling of its
    adapter. *)
Definition completion (id : TaskId) (ph : Phase) (reply : string + string)
  : Event :=
  match ph with
  | Intercepted => DispatchRequest id
  | _ => AdapterSettles id reply
  end.

(** Whether the adapter has been invoked for the current request. *)
Definition invoked (ph : Phase) : nat :=
  match ph with
  | InFlight | Done _ => 1
  | _ => 0
  end.

(** Instance [id] on its way to resolve with [body]: its chain has [events]
    left, its token is not cancelled, and the adapter is invoked for it once.
    [base] counts the invocations when it was at phase [ph0]. *)
Definition proceeding (id : TaskId) (config : Config) (body : string)
    (base : nat) (ph0 : Phase) (events : list Event) (x : World) : Prop :=
  exists ph,
    tasks x !! id = Some {| task_config := config; phase := ph |}
    /\ events = remaining_events id ph (inl body)
    /\ transportCalls id x + invoked ph0 = base + invoked ph
    /\ match ph with
       | Created => cancelDuplicated config = false
       | Intercepted | InFlight => Axios.cancellationRequested config x = None
       | Done outcome =>
           outcome = Resolved {| data := body; response_config := config |}
       | Delaying _ => False
       end.

(** A reply of the transport with a response. *)
Definition is_success (e : Event) : bool :=
  match e with
  | AdapterSettles _ (inl _) => true
  | _ => false
  end.

(** ** Invariants of an execution *)

(** What holds of the config of every instance: it has a method ([request]
    made it), and it has a token only if it sets [cancelDuplicated]. *)
Definition config_ok (config : Config) : Prop :=
  method config <> None
  /\ (cancelDuplicated config = false -> cancelToken config = None).

Record wf (w : World) : Prop := {
  wf_registry : forall key, JsMap.count key (requestMap w) <= 1;
  wf_registered : forall key c, In (key, c) (requestMap w) -> c < nextToken w;
  wf_reasons : forall c m,
      reasons w !! c = Some m -> c < nextToken w /\ m = MAxios.canceled;
  wf_configs : forall id task,
      tasks w !! id = Some task -> config_ok (task_config task);
  wf_tasks : forall id task, tasks w !! id = Some task -> id < nextTask w;
  wf_calls : forall id, In id (adapterCalls w) -> id < nextTask w
}.

(** Instance [id], with budget [n], in the course of its attempts against a
    transport that fails; the adapter had been invoked [base] times for it
    before.  The descriptor carries the number of re-issuances made. *)
Definition attempting (n : Z) (base : nat) (id : TaskId) (w : World) : Prop :=
  wf w
  /\ exists config ph,
      tasks w !! id = Some {| task_config := config; phase := ph |}
      /\ method config <> None
      /\ retry config = n
      /\ (0 <= MAxios.retryCountOr0 config <= n)%Z
      /\ match ph with
         | Created =>
             transportCalls id w
             = base + Z.to_nat (MAxios.retryCountOr0 config)
         | Intercepted =>
             Axios.cancellationRequested config w = None
             /\ transportCalls id w
                = base + Z.to_nat (MAxios.retryCountOr0 config)
         | InFlight =>
             Axios.cancellationRequested config w = None
             /\ transportCalls id w
                = base + Z.to_nat (MAxios.retryCountOr0 config) + 1
         | Delaying _ =>
             transportCalls id w
             = base + Z.to_nat (MAxios.retryCountOr0 config)
         | Done outcome =>
             (exists error, outcome = Rejected (RejectError error))
             /\ MAxios.retryCountOr0 config = n
             /\ transportCalls id w = base + Z.to_nat n + 1
         end.

(** The number of events instance [id] still has to run. *)
Definition remaining (id : TaskId) (w : World) : nat :=
  match tasks w !! id with
  | Some {| task_config := config; phase := ph |} =>
      let left := Z.to_nat (retry config - MAxios.retryCountOr0 config) in
      match ph with
      | Created => 4 * left + 3
      | Intercepted => 4 * left + 2
      | InFlight => 4 * left + 1
      | Delaying _ => 4 * left + 4
      | Done _ => 0
      end
  | None => 0
  end.

(** The [cache] flag of the request an event belongs to. *)
Definition cache_flag (e : Event) (w : World) : bool :=
  match e with
  | Call options => cache (assign defaultConfig options)
  | RunRequestInterceptor id
  | DispatchRequest id
  | AdapterSettles id _
  | TimerFires id =>
      match tasks w !! id with
      | Some t => cache (task_config t)
      | None => false
      end
  end.

(** The key of the request an event belongs to. *)
Definition event_key (e : Event) (w : World) : option string :=
  match e with
  | Call _ => None
  | RunRequestInterceptor id
  | DispatchRequest id
  | AdapterSettles id _
  | TimerFires id =>
      match tasks w !! id with
      | Some t => MAxios.getDuplicatedKey (task_config t)
      | None => None
      end
  end.

(** The registry and the tokens agree: a token is registered exactly as long
    as its cancel function has not been called, and under one key only. *)
Record handles_exact (w : World) : Prop := {
  exact_live : forall key t,
      In (key, t) (requestMap w) -> reasons w !! t = None;
  exact_registered : forall t,
      t < nextToken w -> reasons w !! t = None ->
      exists key, In (key, t) (requestMap w);
  exact_distinct : forall key key' t,
      In (key, t) (requestMap w) -> In (key', t) (requestMap w) -> key = key'
}.

(** A transport that fails every attempt. *)
Definition failing (failure : string) (config : Config) : string + string :=
  inr failure.

(** A transport that fails the attempts before the [k]-th re-issue and
    answers from then on. *)
Definition flaky (k : Z) (failure body : string) (config : Config)
  : string + string :=
  if (MAxios.retryCountOr0 config <? k)%Z then inr failure else inl body.

(** What the outcome of a settled request can be: the response that came
    for its descriptor; the message of a cancellation by the registry, for a
    request that sets [cancelDuplicated]; or the error of the transport once
    the descriptor in it has no retry left. *)
Definition accounted (config : Config) (outcome : Outcome) : Prop :=
  match outcome with
  | Resolved response => response_config response = config
  | Rejected (RejectMessage m) =>
      m = MAxios.canceled /\ cancelDuplicated config = true
  | Rejected (RejectError (TransportError _ c)) =>
      (retry c <= 0)%Z \/ (retry c <= MAxios.retryCountOr0 c)%Z
  | Rejected (RejectError _) => False
  end.

(** What holds of a descriptor that waits [delay] for its re-issue: its
    [__retryCount] is within the budget, the wait is the one its [retryDelay]
    and [retryDelayRise] give for that count, and the re-issue that uses up
    the budget has [timeout = 15000]. *)
Definition scheduled (config : Config) (delay : Z) : Prop :=
  let retryCount := MAxios.retryCountOr0 config in
  (retryCount <= retry config)%Z
  /\ delay
     = match retryDelay config with
       | DelayFunction f => f retryCount
       | DelayNumber ms =>
           (ms * (if retryDelayRise config then retryCount else 1))%Z
       end
  /\ (retryCount = retry config -> timeout config = 15000%Z).

(** What holds of a task by the phase it was written with. *)
Definition written (config : Config) (ph : Phase) : Prop :=
  match ph with
  | Done outcome => accounted config outcome
  | Delaying delay => scheduled config delay
  | _ => True
  end.

(** Instance [id] within its budget [n]: its [__retryCount] is between 0 and
    [n], and the adapter has been invoked for it once per re-issuance, and
    once more when the attempt under way has been dispatched. *)
Definition within_budget (n : Z) (id : TaskId) (w : World) : Prop :=
  exists config ph,
    tasks w !! id = Some {| task_config := config; phase := ph |}
    /\ retry config = n
    /\ (0 <= MAxios.retryCountOr0 config <= n)%Z
    /\ match ph with
       | InFlight =>
           transportCalls id w = Z.to_nat (MAxios.retryCountOr0 config) + 1
       | Done _ =>
           transportCalls id w <= Z.to_nat (MAxios.retryCountOr0 config) + 1
       | _ => transportCalls id w = Z.to_nat (MAxios.retryCountOr0 config)
       end.

(** A request between its request interceptor and its settling. *)
Definition in_progress (ph : Phase) : Prop := ph = Intercepted \/ ph = InFlight.

(** The tokens of the requests in progress that set [cancelDuplicated]: each
    has one, no two share one, and a request keyed by its method and url
    whose token is live is the one the registry holds under its key. *)
Record tokens_ok (w : World) : Prop := {
  tok_issued : forall id config ph,
      tasks w !! id = Some {| task_config := config; phase := ph |} ->
      in_progress ph -> cancelDuplicated config = true ->
      exists t, cancelToken config = Some t /\ t < nextToken w;
  tok_distinct : forall a b ca cb pa pb t,
      a <> b ->
      tasks w !! a = Some {| task_config := ca; phase := pa |} ->
      tasks w !! b = Some {| task_config := cb; phase := pb |} ->
      in_progress pa -> in_progress pb ->
      cancelDuplicated ca = true -> cancelDuplicated cb = true ->
      cancelToken ca = Some t -> cancelToken cb = Some t -> False;
  tok_registered : forall id config ph t key,
      tasks w !! id = Some {| task_config := config; phase := ph |} ->
      in_progress ph -> cancelDuplicated config = true ->
      duplicatedKey config = None ->
      cancelToken config = Some t -> reasons w !! t = None ->
      MAxios.getDuplicatedKey config = Some key ->
      JsMap.get key (requestMap w) = Some t
}.

(** ** Sample requests *)

Module Sample.

(** [{ url, cancelDuplicated, cache, retry }]. *)
Definition options (u : string) (dedup caching : bool) (n : Z) : Options :=
  {| opt_method := None; opt_url := Some u;
     opt_cancelDuplicated := Some dedup; opt_duplicatedKey := None;
     opt_retry := Some n; opt_retryDelay := None;
     opt_retryDelayRise := None; opt_timeout := None;
     opt_cache := Some caching; opt_retryCount := None |}.

(** [{ method: "GET", url: "/a" }]. *)
Definition getA : Options :=
  {| opt_method := Some "GET"; opt_url := Some "/a";
     opt_cancelDuplicated := None; opt_duplicatedKey := None;
     opt_retry := None; opt_retryDelay := None;
     opt_retryDelayRise := None; opt_timeout := None;
     opt_cache := None; opt_retryCount := None |}.

(** [{ method: "GET", url: "/a", duplicatedKey: f }]. *)
Definition keyed (f : Fields -> string) : Config :=
  {| fields := assign defaultConfig getA; duplicatedKey := Some f |}.

(** The same in the TypeScript variant. *)
Definition keyedTS (f : Fields -> option string) : TS.IConfig :=
  TS.assign TS.defaultConfig
    {| TS.opt_method := Some "GET"; TS.opt_url := Some "/a";
       TS.opt_duplicatedKey := Some f |}.

(** A config in the middle of its retries:
    [{ url: "/a", retry, retryDelay, retryDelayRise, __retryCount }]. *)
Definition retrying (budget count ms : Z) (rise : bool) : Config :=
  assign defaultConfig
    {| opt_method := None; opt_url := Some "/a";
       opt_cancelDuplicated := None; opt_duplicatedKey := None;
       opt_retry := Some budget; opt_retryDelay := Some (DelayNumber ms);
       opt_retryDelayRise := Some rise; opt_timeout := None;
       opt_cache := None; opt_retryCount := Some count |}.

(** The world after a schedule that starts from [new MAxios()]. *)
Definition world (events : list Event) : World :=
  match run events init with
  | Some w => w
  | None => init
  end.

(** The response to [{ url: "/a", cache: true }] with body ["A"], and the
    world after that request has resolved with it. *)
Definition responseA : Response :=
  {| data := "A";
     response_config := assign defaultConfig (options "/a" false true 0) |}.

Definition cached : World :=
  world [Call (options "/a" false true 0); RunRequestInterceptor 0;
         DispatchRequest 0; AdapterSettles 0 (inl "A")].

(** [{ url: "/a", cancelDuplicated: true, retry: 3 }] is in flight when the
    same request is made again and its request interceptor runs. *)
Definition superseded : World :=
  world [Call (options "/a" true false 3); RunRequestInterceptor 0;
         DispatchRequest 0;
         Call (options "/a" true false 3); RunRequestInterceptor 1].

(** [{ url: "/a", cache: true }] is in flight. *)
Definition inFlight : World :=
  world [Call (options "/a" false true 0); RunRequestInterceptor 0;
         DispatchRequest 0].

(** [{ url: "/a", cancelDuplicated: true }] is registered and in flight. *)
Definition registered : World :=
  world [Call (options "/a" true false 0); RunRequestInterceptor 0;
         DispatchRequest 0].

(** [{ url: "/a", cancelDuplicated: first }] is in flight when
    [{ url: "/a", cancelDuplicated: second }] is requested. *)
Definition secondArrives (first second : bool) : World :=
  world [Call (options "/a" first false 0); RunRequestInterceptor 0;
         DispatchRequest 0; Call (options "/a" second false 0)].

End Sample.

(** [Some w1 = Some w2] in the context, without computing inside. *)
Ltac some_eq :=
  let H := fresh in intros H; apply (inj Some) in H; subst.

(** * Properties *)

(** ** Key derivation *)

Section KeyDerivation.

Lemma truthy_nonempty (s : string) : Js.truthy s = true <-> s <> "".
Proof.
  unfold Js.truthy. destruct (String.eqb_spec s ""); simpl; split; intros; congruence.
Qed.

Lemma getDuplicatedKey_custom (config : Config) (f : Fields -> string) :
  duplicatedKey config = Some f -> f config <> "" ->
  MAxios.getDuplicatedKey config = Some (f config).
Proof.
  intros Hf Hne. unfold MAxios.getDuplicatedKey. rewrite Hf.
  apply truthy_nonempty in Hne. now rewrite Hne.
Qed.

Lemma getDuplicatedKey_default (config : Config) :
  match duplicatedKey config with
  | Some f => f config = ""
  | None => True
  end ->
  MAxios.getDuplicatedKey config =
    match method config with
    | Some m => Some (Js.toLocaleLowerCase m ++ Js.template (url config))
    | None => None
    end.
Proof.
  intros H. unfold MAxios.getDuplicatedKey.
  destruct (duplicatedKey config) as [f|]; [rewrite H|]; reflexivity.
Qed.

(** A config that went through [request] has a method, so its key is
    defined. *)
Lemma getDuplicatedKey_defined (config : Config) :
  method config <> None -> exists key, MAxios.getDuplicatedKey config = Some key.
Proof.
  intros Hm. unfold MAxios.getDuplicatedKey.
  destruct (Js.truthy _); [eauto|].
  destruct (method config); [eauto | congruence].
Qed.

Lemma assign_method (options : Options) :
  method (assign defaultConfig options) <> None.
Proof. simpl. destruct (opt_method options); discriminate. Qed.

End KeyDerivation.

(** C5 (amended).  In the JavaScript variant key derivation returns
    [duplicatedKey(config)] when [duplicatedKey] is a function that yields a
    non-empty string, and [lowercase(method) + url] when it is absent or yields
    the empty string; the key of [{method: "GET", url: "/a"}] is ["get/a"].
    In the TypeScript variant key derivation returns whatever the config's
    [duplicatedKey] yields: [request] installs [lowercase(method) + url] as the
    default [duplicatedKey], a supplied function that yields [""] gives the
    key [""], with no fallback, and so does a config without the property. *)
Theorem C5_key_derivation_by_variant :
  (forall (config : Config) f,
      duplicatedKey config = Some f -> f config <> "" ->
      MAxios.getDuplicatedKey config = Some (f config))
  /\ (forall (config : Config) m u,
         method config = Some m -> url config = Some u ->
         (duplicatedKey config = None
          \/ exists f, duplicatedKey config = Some f /\ f config = "") ->
         MAxios.getDuplicatedKey config = Some (Js.toLocaleLowerCase m ++ u))
  /\ (forall options : Options,
         opt_method options = Some "GET" -> opt_url options = Some "/a" ->
         opt_duplicatedKey options = None ->
         MAxios.getDuplicatedKey (assign defaultConfig options) = Some "get/a")
  /\ (forall (config : TS.IConfig) f,
         TS.duplicatedKey config = Some f ->
         TS.getDuplicatedKey config = f (TS.fields config))
  /\ (forall (options : TS.IOptions) m u,
         TS.opt_duplicatedKey options = None ->
         method (TS.fields (TS.assign TS.defaultConfig options)) = Some m ->
         url (TS.fields (TS.assign TS.defaultConfig options)) = Some u ->
         TS.getDuplicatedKey (TS.assign TS.defaultConfig options)
         = Some (Js.toLocaleLowerCase m ++ u))
  /\ (forall (config : TS.IConfig) f,
         TS.duplicatedKey config = Some f -> f (TS.fields config) = Some "" ->
         TS.getDuplicatedKey config = Some "")
  /\ (forall config : TS.IConfig,
         TS.duplicatedKey config = None -> TS.getDuplicatedKey config = Some "").
Proof.
  repeat split.
  - apply getDuplicatedKey_custom.
  - intros config m u Hm Hu Hd.
    rewrite getDuplicatedKey_default.
    + now rewrite Hm, Hu.
    + destruct Hd as [-> | (f & -> & Hf)]; [exact I | exact Hf].
  - intros options Hm Hu Hd.
    rewrite getDuplicatedKey_default; simpl.
    + now rewrite Hm, Hu.
    + now rewrite Hd.
  - intros config f Hf. unfold TS.getDuplicatedKey. now rewrite Hf.
  - intros options m u Hd Hm Hu.
    unfold TS.getDuplicatedKey. simpl in *. rewrite Hd. simpl.
    unfold TS.defaultDuplicatedKey. simpl. now rewrite Hm, Hu.
  - intros config f Hf Hempty. unfold TS.getDuplicatedKey. now rewrite Hf.
  - intros config Hnone. unfold TS.getDuplicatedKey. now rewrite Hnone.
Qed.

Lemma C5_key_derivation_by_variant_witness :
  (duplicatedKey (Sample.keyed (fun _ => "users")) = Some (fun _ => "users")
   /\ "users" <> ""
   /\ MAxios.getDuplicatedKey (Sample.keyed (fun _ => "users")) = Some "users")
  /\ (method (Sample.keyed (fun _ => "")) = Some "GET"
      /\ url (Sample.keyed (fun _ => "")) = Some "/a"
      /\ MAxios.getDuplicatedKey (Sample.keyed (fun _ => "")) = Some "get/a")
  /\ MAxios.getDuplicatedKey (assign defaultConfig Sample.getA) = Some "get/a"
  /\ TS.getDuplicatedKey (Sample.keyedTS (fun _ => Some "")) = Some "".
Proof.
  pose proof C5_key_derivation_by_variant
    as (Hcustom & Hdefault & Hget & _ & _ & Hts & _).
  split; [split; [reflexivity | split; [discriminate |]] |].
  { apply (Hcustom (Sample.keyed (fun _ => "users")) (fun _ => "users"));
      [reflexivity | discriminate]. }
  split; [split; [reflexivity | split; [reflexivity |]] |].
  { apply (Hdefault (Sample.keyed (fun _ => "")) "GET" "/a");
      [reflexivity | reflexivity
      | right; exists (fun _ => ""); split; reflexivity]. }
  split.
  { apply (Hget Sample.getA); reflexivity. }
  apply (Hts (Sample.keyedTS (fun _ => Some "")) (fun _ => Some ""));
    reflexivity.
Defined.

(** In the TypeScript variant a supplied [duplicatedKey] that yields [""]
    makes [""] the key of [{method: "GET", url: "/a"}], not ["get/a"]. *)
Lemma C5_counterexample_ts_empty_key :
  TS.duplicatedKey (Sample.keyedTS (fun _ => Some "")) = Some (fun _ => Some "")
  /\ TS.getDuplicatedKey (Sample.keyedTS (fun _ => Some "")) = Some ""
  /\ TS.getDuplicatedKey (Sample.keyedTS (fun _ => Some ""))
     <> Some (Js.toLocaleLowerCase "GET" ++ "/a").
Proof. repeat split. discriminate. Qed.

(** ** The retry scheduler *)

Section RetryScheduler.

Lemma retry_exhausted (config : Config) (error : AxiosError) :
  (MAxios.retryCountOr0 config >= retry config)%Z ->
  MAxios.retry config error =
    Reject (RejectError
              (MAxios.sharing
                 (with_retryCount (MAxios.retryCountOr0 config) config) error)).
Proof.
  intros H. unfold MAxios.retry. simpl.
  destruct (Z.geb_spec (MAxios.retryCountOr0 config) (retry config));
    [reflexivity | lia].
Qed.

Lemma retry_again (config : Config) (error : AxiosError) :
  (MAxios.retryCountOr0 config < retry config)%Z ->
  MAxios.retry config error =
    RetryTask
      match retryDelay config with
      | DelayFunction f => f (MAxios.retryCountOr0 config + 1)%Z
      | DelayNumber ms =>
          (ms * (if retryDelayRise config
                 then MAxios.retryCountOr0 config + 1 else 1))%Z
      end
      (if (MAxios.retryCountOr0 config + 1 =? retry config)%Z
       then with_timeout 15000
              (with_retryCount (MAxios.retryCountOr0 config + 1) config)
       else with_retryCount (MAxios.retryCountOr0 config + 1) config).
Proof.
  intros H. unfold MAxios.retry. simpl.
  destruct (Z.geb_spec (MAxios.retryCountOr0 config) (retry config));
    [lia |].
  destruct (_ =? _)%Z; reflexivity.
Qed.

Lemma retryCountOr0_with_retryCount (n : Z) (config : Config) :
  MAxios.retryCountOr0 (with_retryCount n config) = n.
Proof.
  unfold MAxios.retryCountOr0. simpl.
  destruct (Z.eqb_spec n 0); congruence.
Qed.

End RetryScheduler.

(** C4 (amended).  For every descriptor whose retry count has reached or
    exceeded [retry], the retry scheduler fails the request with the last
    underlying error itself: the promise is rejected with that error (its
    config being the descriptor), unwrapped and with no kind tag, exactly as
    a failure of a request without retry budget is. *)
Theorem C4_exhausted_rejects_with_last_error
    (config : Config) (failure : string) (this : World) :
  (MAxios.retryCountOr0 config >= retry config)%Z ->
  let descriptor := with_retryCount (MAxios.retryCountOr0 config) config in
  MAxios.retry config (TransportError failure config)
  = Reject (RejectError (TransportError failure descriptor))
  /\ kind (RejectError (TransportError failure descriptor)) = None
  /\ ((retry config <= 0)%Z ->
      fst (MAxios.interceptorsResponseError (TransportError failure config) this)
      = Reject (RejectError (TransportError failure config))).
Proof.
  intros Hge descriptor. split; [| split].
  - now rewrite retry_exhausted.
  - reflexivity.
  - intros Hle. unfold MAxios.interceptorsResponseError. simpl.
    destruct (Z.gtb_spec (retry config) 0); [lia | reflexivity].
Qed.

Lemma C4_exhausted_rejects_with_last_error_witness :
  (MAxios.retryCountOr0 (Sample.retrying 2 2 200 true)
   >= retry (Sample.retrying 2 2 200 true))%Z
  /\ MAxios.retry (Sample.retrying 2 2 200 true)
       (TransportError "Network Error" (Sample.retrying 2 2 200 true))
     = Reject (RejectError
                 (TransportError "Network Error" (Sample.retrying 2 2 200 true))).
Proof.
  assert (H : (MAxios.retryCountOr0 (Sample.retrying 2 2 200 true)
               >= retry (Sample.retrying 2 2 200 true))%Z)
    by (vm_compute; discriminate).
  split; [exact H |].
  exact (proj1 (C4_exhausted_rejects_with_last_error
                  (Sample.retrying 2 2 200 true) "Network Error" init H)).
Defined.

(** With [retry = 2] and two retries done, the scheduler rejects with the
    error it was given: the rejection has no kind, and nothing wraps the
    error. *)
Lemma C4_counterexample_no_retry_exhausted_kind :
  (MAxios.retryCountOr0 (Sample.retrying 2 2 200 true)
   >= retry (Sample.retrying 2 2 200 true))%Z
  /\ exists reason,
      MAxios.retry (Sample.retrying 2 2 200 true)
        (TransportError "Network Error" (Sample.retrying 2 2 200 true))
      = Reject reason
      /\ reason = RejectError
                    (TransportError "Network Error"
                       (Sample.retrying 2 2 200 true))
      /\ kind reason = None
      /\ kind reason <> Some "RetryExhausted".
Proof.
  split; [vm_compute; discriminate |].
  eexists. split; [reflexivity |]. split; [reflexivity |].
  split; [reflexivity | discriminate].
Qed.

(** C6.  For every retry attempt the delay before the re-issuance is
    [retryDelay(retryCount)] when [retryDelay] is a function, and otherwise
    [retryDelay * retryCount] when [retryDelayRise] is true and
    [retryDelay * 1] when it is false, [retryCount] being the number of the
    attempt; with [retryDelay = 100] that is [100 * k] before attempt [k]
    under [retryDelayRise] and [100] without it.  An instance whose request
    failed with budget left ([retry > 0]) then waits for exactly that
    delay. *)
Theorem C6_retry_delay_law (config : Config) (error : AxiosError) :
  (MAxios.retryCountOr0 config < retry config)%Z ->
  let retryCount := (MAxios.retryCountOr0 config + 1)%Z in
  let delay :=
    match retryDelay config with
    | DelayFunction f => f retryCount
    | DelayNumber ms =>
        if retryDelayRise config then (ms * retryCount)%Z else (ms * 1)%Z
    end in
  (exists config',
      MAxios.retry config error = RetryTask delay config'
      /\ __retryCount config' = Some retryCount)
  /\ (retryDelay config = DelayNumber 100 ->
      delay = if retryDelayRise config then (100 * retryCount)%Z else 100%Z)
  /\ (forall w id failure,
         tasks w !! id = Some {| task_config := config; phase := InFlight |} ->
         Axios.cancellationRequested config w = None ->
         (retry config > 0)%Z ->
         exists w',
           step (AdapterSettles id (inr failure)) w = Some w'
           /\ phase_of id w' = Some (Delaying delay)).
Proof.
  intros Hlt retryCount delay.
  assert (Hretry : forall e,
             MAxios.retry config e =
               RetryTask delay
                 (if (retryCount =? retry config)%Z
                  then with_timeout 15000 (with_retryCount retryCount config)
                  else with_retryCount retryCount config)).
  { intros e. rewrite retry_again by exact Hlt. f_equal.
    subst delay retryCount. destruct (retryDelay config); [|reflexivity].
    destruct (retryDelayRise config); reflexivity. }
  split; [| split].
  - eexists. split; [apply Hretry |].
    destruct (_ =? _)%Z; reflexivity.
  - intros Hd. subst delay. rewrite Hd.
    destruct (retryDelayRise config); reflexivity.
  - intros w id failure Htask Hlive Hbudget.
    eexists. split.
    + unfold step. rewrite Htask, Hlive. reflexivity.
    + unfold phase_of, settle, MAxios.interceptorsResponseError. simpl.
      assert (Hpos : (retry config >? 0)%Z = true) by (apply Z.gtb_lt; lia).
      rewrite Hpos. simpl. rewrite Hretry. simpl.
      now rewrite lookup_insert_eq.
Qed.

Lemma C6_retry_delay_law_witness :
  (MAxios.retryCountOr0 (Sample.retrying 3 1 100 true)
   < retry (Sample.retrying 3 1 100 true))%Z
  /\ (exists config',
         MAxios.retry (Sample.retrying 3 1 100 true) TypeError
         = RetryTask 200 config'
         /\ __retryCount config' = Some 2%Z)
  /\ (exists config',
         MAxios.retry (Sample.retrying 3 1 100 false) TypeError
         = RetryTask 100 config'
         /\ __retryCount config' = Some 2%Z).
Proof.
  assert (H : forall rise,
             (MAxios.retryCountOr0 (Sample.retrying 3 1 100 rise)
              < retry (Sample.retrying 3 1 100 rise))%Z)
    by (intros rise; vm_compute; reflexivity).
  split; [exact (H true) |].
  split.
  - exact (proj1 (C6_retry_delay_law
                    (Sample.retrying 3 1 100 true) TypeError (H true))).
  - exact (proj1 (C6_retry_delay_law
                    (Sample.retrying 3 1 100 false) TypeError (H false))).
Defined.

(** C10.  In the JavaScript variant, a retry attempt whose incremented
    counter equals the budget [retry] (the last permitted attempt) overwrites
    the descriptor's [timeout] with 15000 before the re-issuance; every other
    retry attempt leaves [timeout] as it is, and so does the request
    interceptor that runs on the re-issued descriptor.  Apart from
    [__retryCount] and [timeout], an attempt writes nothing. *)
Theorem C10_final_retry_sets_timeout (config : Config) (error : AxiosError) :
  (MAxios.retryCountOr0 config < retry config)%Z ->
  let retryCount := (MAxios.retryCountOr0 config + 1)%Z in
  (exists delay config',
      MAxios.retry config error = RetryTask delay config'
      /\ (retryCount = retry config -> timeout config' = 15000%Z)
      /\ (retryCount <> retry config -> timeout config' = timeout config)
      /\ with_timeout (timeout config)
           (with_retryCount (MAxios.retryCountOr0 config) config')
         = with_timeout (timeout config)
             (with_retryCount (MAxios.retryCountOr0 config) config))
  /\ (forall this config' this',
         MAxios.interceptorsRequest config this = Some (config', this') ->
         timeout config' = timeout config).
Proof.
  intros Hlt retryCount. split.
  - rewrite retry_again by exact Hlt. fold retryCount.
    eexists. eexists. split; [reflexivity |].
    destruct (Z.eqb_spec retryCount (retry config)) as [Heq | Hne].
    + split; [reflexivity |]. split; [congruence | reflexivity].
    + split; [congruence |]. split; reflexivity.
  - intros this config' this'. unfold MAxios.interceptorsRequest, MAxios.addReq.
    destruct (negb (cancelDuplicated config)); [congruence |].
    destruct (MAxios.getDuplicatedKey config); [| discriminate].
    destruct (negb _); simpl; intros H; inversion H; reflexivity.
Qed.

Lemma C10_final_retry_sets_timeout_witness :
  (MAxios.retryCountOr0 (Sample.retrying 2 1 200 true)
   < retry (Sample.retrying 2 1 200 true))%Z
  /\ (exists delay config',
         MAxios.retry (Sample.retrying 2 1 200 true) TypeError
         = RetryTask delay config'
         /\ timeout config' = 15000%Z)
  /\ (exists delay config',
         MAxios.retry (Sample.retrying 2 0 200 true) TypeError
         = RetryTask delay config'
         /\ timeout config' = (-1)%Z).
Proof.
  assert (H : forall count, (count = 0 \/ count = 1)%Z ->
             (MAxios.retryCountOr0 (Sample.retrying 2 count 200 true)
              < retry (Sample.retrying 2 count 200 true))%Z)
    by (intros count [-> | ->]; vm_compute; reflexivity).
  split; [apply H; now right |].
  split.
  - destruct (proj1 (C10_final_retry_sets_timeout
                       (Sample.retrying 2 1 200 true) TypeError
                       (H 1%Z (or_intror eq_refl))))
      as (delay & config' & Hretry & Hlast & _).
    exists delay, config'. split; [exact Hretry | now apply Hlast].
  - destruct (proj1 (C10_final_retry_sets_timeout
                       (Sample.retrying 2 0 200 true) TypeError
                       (H 0%Z (or_introl eq_refl))))
      as (delay & config' & Hretry & _ & Hother & _).
    exists delay, config'. split; [exact Hretry |].
    rewrite Hother; [reflexivity | vm_compute; discriminate].
Defined.

(** ** Facts about [Map] *)

Module JsMapFacts.
Section Facts.
Context {V : Type}.
Implicit Types (m : JsMap.t V) (key k : string) (v : V).

Lemma get_has key m v : JsMap.get key m = Some v -> JsMap.has key m = true.
Proof.
  induction m as [| [k' v'] m IH]; simpl; [discriminate |].
  destruct (k' =? key); auto.
Qed.

Lemma has_get key m : JsMap.has key m = true -> exists v, JsMap.get key m = Some v.
Proof.
  induction m as [| [k' v'] m IH]; simpl; [discriminate |].
  destruct (k' =? key); eauto.
Qed.

Lemma get_In key m v : JsMap.get key m = Some v -> In (key, v) m.
Proof.
  induction m as [| [k' v'] m IH]; simpl; [discriminate |].
  destruct (String.eqb_spec k' key) as [-> |].
  - intros [= ->]. now left.
  - intros H. right. auto.
Qed.

Lemma has_delete key m : JsMap.has key (JsMap.delete key m) = false.
Proof.
  induction m as [| [k' v'] m IH]; simpl; [reflexivity |].
  destruct (k' =? key) eqn:E; simpl; [exact IH | now rewrite E].
Qed.

Lemma In_delete key m k v : In (k, v) (JsMap.delete key m) -> In (k, v) m.
Proof.
  induction m as [| [k' v'] m IH]; simpl; [tauto |].
  destruct (k' =? key); simpl; intuition.
Qed.

Lemma In_set key v' m k v :
  In (k, v) (JsMap.set key v' m) -> (k = key /\ v = v') \/ In (k, v) m.
Proof.
  induction m as [| [k0 v0] m IH]; simpl.
  - intros [[= <- <-] | []]. now left.
  - destruct (String.eqb_spec k0 key) as [-> |]; simpl.
    + intros [[= <- <-] | H]; [now left | right; now right].
    + intros [H | H]; [right; now left |].
      destruct (IH H); [now left | right; now right].
Qed.

Lemma count_not_has key m : JsMap.has key m = false -> JsMap.count key m = 0.
Proof.
  induction m as [| [k' v'] m IH]; simpl; [reflexivity |].
  destruct (k' =? key); [discriminate | exact IH].
Qed.

Lemma count_delete_le key m k : JsMap.count k (JsMap.delete key m) <= JsMap.count k m.
Proof.
  induction m as [| [k' v'] m IH]; simpl; [lia |].
  destruct (k' =? key); simpl; lia.
Qed.

(** [set] adds an entry only for a key the map does not have. *)
Lemma count_set key v m k :
  JsMap.count k (JsMap.set key v m) =
    if JsMap.has key m then JsMap.count k m
    else (if key =? k then 1 else 0) + JsMap.count k m.
Proof.
  induction m as [| [k' v'] m IH]; simpl.
  - lia.
  - destruct (k' =? key) eqn:E; simpl; [reflexivity |].
    rewrite IH. destruct (JsMap.has key m); lia.
Qed.

(** A map that has every key at most once keeps it so under [set] and
    [delete]. *)
Lemma set_at_most_once key v m :
  (forall k, JsMap.count k m <= 1) ->
  forall k, JsMap.count k (JsMap.set key v m) <= 1.
Proof.
  intros H k. rewrite count_set.
  destruct (JsMap.has key m) eqn:Hhas; [apply H |].
  destruct (String.eqb_spec key k) as [<- |]; [| apply H].
  rewrite (count_not_has _ _ Hhas). lia.
Qed.

Lemma delete_at_most_once key m :
  (forall k, JsMap.count k m <= 1) ->
  forall k, JsMap.count k (JsMap.delete key m) <= 1.
Proof. intros H k. pose proof (count_delete_le key m k). specialize (H k). lia. Qed.

Lemma get_set key v m : JsMap.get key (JsMap.set key v m) = Some v.
Proof.
  induction m as [| [k' v'] m IH]; simpl.
  - now rewrite String.eqb_refl.
  - destruct (k' =? key) eqn:E; simpl; now rewrite E.
Qed.

End Facts.
End JsMapFacts.

(** ** The facade *)

(** C1.  For every request issued with [cache = true] whose derived key
    already has a stored response, [request] returns the promise resolved with
    that stored response and leaves the world as it was: no instance is
    created, so no interceptor can run and the adapter is not invoked, and
    the cache entry is not touched. *)
Theorem C1_cache_hit_resolves_with_stored_response
    (options : Options) (this : World) (key : string) (stored : Response) :
  cache (assign defaultConfig options) = true ->
  MAxios.getDuplicatedKey (assign defaultConfig options) = Some key ->
  JsMap.get key (responseCacheMap this) = Some stored ->
  MAxios.request options this = (MAxios.FromCache stored, this)
  /\ step (Call options) this = Some this.
Proof.
  intros Hcache Hkey Hstored.
  assert (H : MAxios.request options this = (MAxios.FromCache stored, this)).
  { unfold MAxios.request, MAxios.getResponseCache.
    rewrite Hcache, Hkey, (JsMapFacts.get_has _ _ _ Hstored), Hstored.
    reflexivity. }
  split; [exact H |]. unfold step. now rewrite H.
Qed.

Lemma C1_cache_hit_resolves_with_stored_response_witness :
  cache (assign defaultConfig (Sample.options "/a" false true 0)) = true
  /\ JsMap.get "get/a" (responseCacheMap Sample.cached) = Some Sample.responseA
  /\ MAxios.request (Sample.options "/a" false true 0) Sample.cached
     = (MAxios.FromCache Sample.responseA, Sample.cached)
  /\ transportCalls 0 Sample.cached = 1
  /\ adapterCalls (snd (MAxios.request (Sample.options "/a" false true 0)
                          Sample.cached))
     = adapterCalls Sample.cached.
Proof.
  assert (Hstored : JsMap.get "get/a" (responseCacheMap Sample.cached)
                    = Some Sample.responseA)
    by (vm_compute; reflexivity).
  pose proof (C1_cache_hit_resolves_with_stored_response
                (Sample.options "/a" false true 0) Sample.cached "get/a"
                Sample.responseA eq_refl eq_refl Hstored) as [H _].
  split; [reflexivity |]. split; [exact Hstored |]. split; [exact H |].
  split; [vm_compute; reflexivity |]. now rewrite H.
Defined.

(** ** The pending-request registry *)

Section Registry.

(** What [removeReq] does: nothing, or it takes the entry of the key out of
    the registry and calls the cancel function it held. *)
Lemma removeReq_cases (config : Config) (w : World) :
  MAxios.removeReq config w = w
  \/ exists key c,
      MAxios.getDuplicatedKey config = Some key
      /\ cancelDuplicated config = true
      /\ JsMap.get key (requestMap w) = Some c
      /\ MAxios.removeReq config w
         = Axios.cancel c MAxios.canceled
             (with_requestMap (JsMap.delete key (requestMap w)) w).
Proof.
  unfold MAxios.removeReq.
  destruct (MAxios.getDuplicatedKey config) as [key |]; [| now left].
  destruct (cancelDuplicated config); simpl; [| now left].
  destruct (JsMap.has key (requestMap w)) eqn:Hhas; simpl; [| now left].
  destruct (JsMapFacts.has_get _ _ Hhas) as [c Hc]. rewrite Hc.
  right. exists key, c. auto.
Qed.

(** What [addReq] does: nothing, or it registers a fresh token under a key
    the registry does not have, or it throws. *)
Lemma addReq_cases (config : Config) (w : World) :
  MAxios.addReq config w = Some (config, w)
  \/ (exists key,
         MAxios.getDuplicatedKey config = Some key
         /\ cancelDuplicated config = true
         /\ JsMap.has key (requestMap w) = false
         /\ MAxios.addReq config w
            = Some (with_cancelToken (Some (nextToken w)) config,
                    with_requestMap
                      (JsMap.set key (nextToken w) (requestMap w))
                      (with_nextToken (S (nextToken w)) w)))
  \/ (MAxios.addReq config w = None
      /\ cancelDuplicated config = true
      /\ MAxios.getDuplicatedKey config = None).
Proof.
  unfold MAxios.addReq.
  destruct (cancelDuplicated config); simpl; [| now left].
  destruct (MAxios.getDuplicatedKey config) as [key |]; [| right; right; auto].
  destruct (JsMap.has key (requestMap w)) eqn:Hhas; simpl; [now left |].
  right. left. exists key. auto.
Qed.

Lemma cancel_fields (c : TokenId) (m : CancelMessage) (w : World) :
  requestMap (Axios.cancel c m w) = requestMap w
  /\ responseCacheMap (Axios.cancel c m w) = responseCacheMap w
  /\ nextToken (Axios.cancel c m w) = nextToken w
  /\ tasks (Axios.cancel c m w) = tasks w
  /\ nextTask (Axios.cancel c m w) = nextTask w
  /\ adapterCalls (Axios.cancel c m w) = adapterCalls w.
Proof. unfold Axios.cancel. destruct (reasons w !! c); auto 10. Qed.

Lemma cancel_reasons (c : TokenId) (m : CancelMessage) (w : World) c' :
  reasons (Axios.cancel c m w) !! c' =
    match reasons w !! c' with
    | Some m' => Some m'
    | None => if decide (c = c') then Some m else None
    end.
Proof.
  unfold Axios.cancel. destruct (reasons w !! c) eqn:Hc; simpl.
  - destruct (reasons w !! c') eqn:Hc'; [reflexivity |].
    destruct (decide (c = c')); [congruence | reflexivity].
  - rewrite lookup_insert. destruct (decide (c = c')) as [Heq |].
    + subst c'. now rewrite Hc.
    + now destruct (reasons w !! c').
Qed.

(** [removeReq] leaves the cache, the instances and the adapter alone. *)
Lemma removeReq_fields (config : Config) (w : World) :
  responseCacheMap (MAxios.removeReq config w) = responseCacheMap w
  /\ nextToken (MAxios.removeReq config w) = nextToken w
  /\ tasks (MAxios.removeReq config w) = tasks w
  /\ nextTask (MAxios.removeReq config w) = nextTask w
  /\ adapterCalls (MAxios.removeReq config w) = adapterCalls w.
Proof.
  destruct (removeReq_cases config w) as [-> | (key & c & _ & _ & _ & ->)];
    [auto 10 |].
  destruct (cancel_fields c MAxios.canceled
              (with_requestMap (JsMap.delete key (requestMap w)) w))
    as (_ & -> & -> & -> & -> & ->).
  auto 10.
Qed.

(** A reason, once set, stays. *)
Lemma removeReq_reasons (config : Config) (w : World) c m :
  reasons w !! c = Some m -> reasons (MAxios.removeReq config w) !! c = Some m.
Proof.
  intros H.
  destruct (removeReq_cases config w) as [-> | (key & c' & _ & _ & _ & ->)];
    [exact H |].
  rewrite cancel_reasons. simpl. now rewrite H.
Qed.

Lemma removeReq_has (config : Config) (w : World) key :
  cancelDuplicated config = true ->
  MAxios.getDuplicatedKey config = Some key ->
  JsMap.has key (requestMap (MAxios.removeReq config w)) = false.
Proof.
  intros Hflag Hkey. unfold MAxios.removeReq. rewrite Hkey, Hflag. simpl.
  destruct (JsMap.has key (requestMap w)) eqn:Hhas; simpl; [| exact Hhas].
  destruct (JsMap.get key (requestMap w)) as [c |]; simpl.
  - destruct (cancel_fields c MAxios.canceled
                (with_requestMap (JsMap.delete key (requestMap w)) w))
      as (-> & _).
    apply JsMapFacts.has_delete.
  - apply JsMapFacts.has_delete.
Qed.

End Registry.

(** ** Every world of an execution is well formed *)

Section Invariants.

Lemma wf_init : wf init.
Proof.
  constructor; simpl; try (intros; lia); try tauto.
  - intros c m H. now rewrite lookup_empty in H.
  - intros id task H. now rewrite lookup_empty in H.
  - intros id task H. now rewrite lookup_empty in H.
Qed.

Lemma wf_cancel (c : TokenId) (w : World) :
  wf w -> c < nextToken w -> wf (Axios.cancel c MAxios.canceled w).
Proof.
  intros [Hcount Hreg Hreasons Hconfigs Htasks Hcalls] Hc.
  unfold Axios.cancel. destruct (reasons w !! c) eqn:E; [now constructor |].
  constructor; simpl; auto.
  intros c' m. rewrite lookup_insert.
  destruct (decide (c = c')) as [<- |]; [| apply Hreasons].
  intros [= <-]. auto.
Qed.

Lemma wf_delete (key : string) (w : World) :
  wf w -> wf (with_requestMap (JsMap.delete key (requestMap w)) w).
Proof.
  intros [Hcount Hreg Hreasons Hconfigs Htasks Hcalls].
  constructor; simpl; auto.
  - now apply JsMapFacts.delete_at_most_once.
  - intros k c H. apply (Hreg k). eapply JsMapFacts.In_delete, H.
Qed.

Lemma wf_removeReq (config : Config) (w : World) :
  wf w -> wf (MAxios.removeReq config w).
Proof.
  intros Hwf.
  destruct (removeReq_cases config w) as [-> | (key & c & _ & _ & Hget & ->)];
    [exact Hwf |].
  apply wf_cancel; [now apply wf_delete |]. simpl.
  eapply (wf_registered w Hwf), JsMapFacts.get_In, Hget.
Qed.

Lemma wf_register (key : string) (w : World) :
  wf w ->
  wf (with_requestMap (JsMap.set key (nextToken w) (requestMap w))
        (with_nextToken (S (nextToken w)) w)).
Proof.
  intros [Hcount Hreg Hreasons Hconfigs Htasks Hcalls].
  constructor; simpl; auto.
  - now apply JsMapFacts.set_at_most_once.
  - intros k c H. apply JsMapFacts.In_set in H as [[_ ->] | H]; [lia |].
    apply Hreg in H. lia.
  - intros c m H. apply Hreasons in H as [H ->]. split; [lia | reflexivity].
Qed.

(** A config keeps its flag in [addReq], and gets a token only if the flag
    is set. *)
Lemma wf_addReq (config config' : Config) (w w' : World) :
  wf w -> MAxios.addReq config w = Some (config', w') ->
  wf w'
  /\ tasks w' = tasks w /\ nextTask w' = nextTask w
  /\ adapterCalls w' = adapterCalls w
  /\ (config_ok config -> config_ok config').
Proof.
  intros Hwf.
  destruct (addReq_cases config w)
    as [-> | [(key & _ & Hflag & _ & ->) | (-> & _)]]; [| | discriminate].
  - intros [= <- <-]. auto 10.
  - intros [= <- <-]. split; [now apply wf_register |].
    simpl. repeat split; auto; [apply H | simpl; congruence].
Qed.

Lemma wf_with_task (id : TaskId) (t : Task) (w : World) :
  wf w -> id < nextTask w -> config_ok (task_config t) ->
  wf (with_task id t w).
Proof.
  intros [Hcount Hreg Hreasons Hconfigs Htasks Hcalls] Hid Ht.
  constructor; simpl; auto.
  - intros id' task. rewrite lookup_insert.
    destruct (decide (id = id')); [intros [= <-]; exact Ht | apply Hconfigs].
  - intros id' task. rewrite lookup_insert.
    destruct (decide (id = id')); [intros _; congruence | apply Htasks].
Qed.

Lemma wf_setResponseCache (config : Config) (response : Response) (w w' : World) :
  wf w -> MAxios.setResponseCache config response w = Some w' -> wf w'.
Proof.
  intros Hwf. unfold MAxios.setResponseCache.
  destruct (negb (cache config)); [now intros [= <-] |].
  destruct (MAxios.getDuplicatedKey config); [| discriminate].
  intros [= <-]. destruct Hwf. now constructor.
Qed.

Lemma setResponseCache_fields (config : Config) (response : Response) (w w' : World) :
  MAxios.setResponseCache config response w = Some w' ->
  requestMap w' = requestMap w /\ reasons w' = reasons w
  /\ nextToken w' = nextToken w /\ tasks w' = tasks w
  /\ nextTask w' = nextTask w /\ adapterCalls w' = adapterCalls w.
Proof.
  unfold MAxios.setResponseCache.
  destruct (negb (cache config)); [intros [= <-]; auto 10 |].
  destruct (MAxios.getDuplicatedKey config); [| discriminate].
  intros [= <-]. auto 10.
Qed.

(** [retry] writes [__retryCount] and [timeout] only. *)
Lemma retry_config (config : Config) (error : AxiosError) delay config' :
  MAxios.retry config error = RetryTask delay config' ->
  method config' = method config /\ url config' = url config
  /\ cancelDuplicated config' = cancelDuplicated config
  /\ retry config' = retry config
  /\ retryDelay config' = retryDelay config
  /\ retryDelayRise config' = retryDelayRise config
  /\ cache config' = cache config
  /\ cancelToken config' = cancelToken config
  /\ duplicatedKey config' = duplicatedKey config
  /\ __retryCount config' = Some (MAxios.retryCountOr0 config + 1)%Z
  /\ (MAxios.retryCountOr0 config < retry config)%Z.
Proof.
  unfold MAxios.retry. simpl.
  destruct (Z.geb_spec (MAxios.retryCountOr0 config) (retry config));
    [discriminate |].
  destruct (_ =? _)%Z; intros [= _ <-]; simpl; repeat split; lia.
Qed.

(** Where the response interceptors leave the world and the instance. *)
Lemma wf_interceptorsResponse (response : Response) (w : World) :
  wf w ->
  wf (snd (MAxios.interceptorsResponse response w))
  /\ nextTask (snd (MAxios.interceptorsResponse response w)) = nextTask w
  /\ tasks (snd (MAxios.interceptorsResponse response w)) = tasks w.
Proof.
  intros Hwf. unfold MAxios.interceptorsResponse.
  pose proof (wf_removeReq (response_config response) w Hwf) as Hwf'.
  destruct (removeReq_fields (response_config response) w)
    as (_ & _ & Ht & Hn & _).
  destruct (MAxios.setResponseCache _ _ _) as [w' |] eqn:E; simpl; [| auto].
  destruct (setResponseCache_fields _ _ _ _ E) as (_ & _ & _ & -> & -> & _).
  split; [eapply wf_setResponseCache; eauto | auto].
Qed.

Lemma interceptorsResponseError_world (error : AxiosError) (w : World) :
  snd (MAxios.interceptorsResponseError error w)
  = MAxios.removeReq
      (match error_config error with
       | Some config => config
       | None => emptyObject
       end) w.
Proof.
  unfold MAxios.interceptorsResponseError.
  destruct error; simpl; [reflexivity | | reflexivity].
  now destruct (_ >? _)%Z.
Qed.

Lemma continue_wf (id : TaskId) (config : Config) (p : Promise) (w : World) :
  wf w -> id < nextTask w -> config_ok config ->
  (forall delay config', p = RetryTask delay config' -> config_ok config') ->
  wf (continue id config p w).
Proof.
  intros Hwf Hid Hc Hp. destruct p as [response | reason | delay config'];
    simpl; apply wf_with_task; auto.
  simpl. exact (Hp delay config' eq_refl).
Qed.

Lemma interceptorsResponseError_promise (error : AxiosError) (w : World)
    delay config' :
  fst (MAxios.interceptorsResponseError error w) = RetryTask delay config' ->
  exists failure config,
    error = TransportError failure config
    /\ MAxios.retry config error = RetryTask delay config'.
Proof.
  unfold MAxios.interceptorsResponseError.
  destruct error as [m | failure config |]; simpl; [discriminate | | discriminate].
  destruct (_ >? _)%Z; simpl; [eauto | discriminate].
Qed.

Lemma wf_settle_error (id : TaskId) (config : Config) (error : AxiosError)
    (w : World) :
  wf w -> tasks w !! id = Some {| task_config := config; phase := InFlight |}
          \/ tasks w !! id = Some {| task_config := config; phase := Intercepted |}
          \/ tasks w !! id = Some {| task_config := config; phase := Created |} ->
  error_config error = Some config \/ error_config error = None ->
  wf (settle id config (MAxios.interceptorsResponseError error w)).
Proof.
  intros Hwf Htask Herr. unfold settle.
  assert (Hid : id < nextTask w)
    by (destruct Htask as [H | [H | H]]; eapply (wf_tasks w Hwf); exact H).
  assert (Hc : config_ok config)
    by (destruct Htask as [H | [H | H]];
        apply (wf_configs w Hwf id _ H)).
  rewrite interceptorsResponseError_world.
  apply continue_wf; auto.
  - now apply wf_removeReq.
  - now destruct (removeReq_fields
                    (match error_config error with
                     | Some c => c | None => emptyObject end) w)
      as (_ & _ & _ & -> & _).
  - intros delay config' Hp.
    apply interceptorsResponseError_promise in Hp
        as (failure & c & -> & Hretry).
    simpl in Herr. destruct Herr as [[= ->] | ?]; [| discriminate].
    apply retry_config in Hretry
        as (Hm & _ & Hflag & _ & _ & _ & _ & Htoken & _).
    unfold config_ok. rewrite Hm, Hflag, Htoken. exact Hc.
Qed.

Lemma wf_step (e : Event) (w w' : World) : wf w -> step e w = Some w' -> wf w'.
Proof.
  intros Hwf. destruct e as [options | id | id | id reply | id]; unfold step.
  - some_eq. unfold MAxios.request.
    assert (Hissue :
              wf (Axios.request (nextTask w) (assign defaultConfig options)
                    (with_nextTask (S (nextTask w)) w))).
    { unfold Axios.request. apply wf_with_task; simpl;
        [| lia | split; [apply assign_method | reflexivity]].
      destruct Hwf as [Hcount Hreg Hreasons Hconfigs Htasks Hcalls].
      constructor; simpl; auto.
      - intros id task H. apply Htasks in H. lia.
      - intros id H. apply Hcalls in H. lia. }
    destruct (cache _); [| exact Hissue].
    destruct (MAxios.getResponseCache _ _) as [[r |] |]; auto.
  - destruct (tasks w !! id) as [[config []] |] eqn:Htask; try discriminate.
    destruct (MAxios.interceptorsRequest config w) as [[config' w1] |] eqn:E.
    + some_eq. unfold MAxios.interceptorsRequest in E.
      destruct (wf_addReq _ _ _ _ (wf_removeReq config w Hwf) E)
        as (Hwf1 & Ht & Hn & _ & Hok).
      destruct (removeReq_fields config w) as (_ & _ & _ & Hn' & _).
      apply wf_with_task; [exact Hwf1 | | simpl].
      * rewrite Hn, Hn'. eapply (wf_tasks w Hwf), Htask.
      * apply Hok, (wf_configs w Hwf id _ Htask).
    + some_eq. apply wf_settle_error; auto.
  - destruct (tasks w !! id) as [[config []] |] eqn:Htask; try discriminate.
    destruct (Axios.cancellationRequested config w) as [reason |].
    + some_eq. apply wf_settle_error; auto.
    + some_eq. apply wf_with_task; simpl.
      * destruct Hwf as [Hcount Hreg Hreasons Hconfigs Htasks Hcalls].
        constructor; simpl; auto.
        intros id' [<- | H]; [eapply Htasks, Htask | now apply Hcalls].
      * eapply (wf_tasks w Hwf), Htask.
      * apply (wf_configs w Hwf id _ Htask).
  - destruct (tasks w !! id) as [[config []] |] eqn:Htask; try discriminate.
    destruct (Axios.cancellationRequested config w) as [reason |].
    + some_eq. apply wf_settle_error; auto.
    + destruct reply as [body | failure]; some_eq.
      * unfold settle.
        destruct (wf_interceptorsResponse
                    {| data := body; response_config := config |} w Hwf)
          as (Hwf1 & Hn & Ht).
        assert (Hfst : exists r,
                   fst (MAxios.interceptorsResponse
                          {| data := body; response_config := config |} w) = r
                   /\ forall d c, r <> RetryTask d c).
        { unfold MAxios.interceptorsResponse.
          destruct (MAxios.setResponseCache _ _ _); simpl; eauto. }
        destruct Hfst as (r & -> & Hr).
        apply continue_wf; auto.
        -- rewrite Hn. eapply (wf_tasks w Hwf), Htask.
        -- apply (wf_configs w Hwf id _ Htask).
        -- intros d c H. now apply Hr in H.
      * apply wf_settle_error; auto.
  - destruct (tasks w !! id) as [[config []] |] eqn:Htask; try discriminate.
    some_eq. unfold Axios.request. apply wf_with_task; auto.
    + eapply (wf_tasks w Hwf), Htask.
    + apply (wf_configs w Hwf id _ Htask).
Qed.

Lemma reachable_wf (w : World) : reachable w -> wf w.
Proof.
  induction 1 as [| e w w' _ IH Hstep]; [apply wf_init |].
  eapply wf_step; eauto.
Qed.

End Invariants.

Lemma run_reachable (events : list Event) (w w' : World) :
  reachable w -> run events w = Some w' -> reachable w'.
Proof.
  revert w. induction events as [| e events IH]; simpl; intros w Hw.
  - now intros [= <-].
  - destruct (step e w) as [w1 |] eqn:E; [| discriminate].
    apply IH. eapply reachable_step; eauto.
Qed.

Lemma sample_world_reachable (events : list Event) :
  reachable (Sample.world events).
Proof.
  unfold Sample.world. destruct (run events init) eqn:E.
  - eapply run_reachable; [apply reachable_init | exact E].
  - apply reachable_init.
Qed.

(** ** The response interceptor on a cancellation *)

Lemma interceptorsResponseError_Cancel (m : CancelMessage) (w : World) :
  MAxios.interceptorsResponseError (Cancel m) w = (Reject (RejectMessage m), w).
Proof. reflexivity. Qed.

(** C7.  A request whose token was cancelled fails with a cancellation, and
    every cancellation of an execution is one made by [removeReq]: the
    response interceptor rejects with its message, of kind [Cancel], at once
    and whatever the retry budget of the descriptor; the retry scheduler is
    not entered (the descriptor, its [__retryCount] included, stays as it is,
    nothing waits for a timer, no adapter is invoked). *)
Theorem C7_cancellation_is_never_retried
    (w : World) (id : TaskId) (config : Config) (ph : Phase)
    (m : CancelMessage) (reply : string + string) :
  reachable w ->
  tasks w !! id = Some {| task_config := config; phase := ph |} ->
  ph = Intercepted \/ ph = InFlight ->
  Axios.cancellationRequested config w = Some m ->
  m = MAxios.canceled
  /\ kind (RejectMessage m) = Some ERROR_TYPE.Cancel
  /\ MAxios.interceptorsResponseError (Cancel m) w
     = (Reject (RejectMessage m), w)
  /\ step (completion id ph reply) w
     = Some (with_task id
               {| task_config := config;
                  phase := Done (Rejected (RejectMessage m)) |} w).
Proof.
  intros Hreach Htask Hph Hcancel.
  assert (Hm : m = MAxios.canceled).
  { unfold Axios.cancellationRequested in Hcancel.
    destruct (cancelToken config) as [c |]; [| discriminate].
    now apply (wf_reasons w (reachable_wf w Hreach)) in Hcancel. }
  split; [exact Hm |]. split; [now rewrite Hm |].
  split; [apply interceptorsResponseError_Cancel |].
  destruct Hph as [-> | ->]; unfold step, completion;
    now rewrite Htask, Hcancel.
Qed.

Lemma C7_cancellation_is_never_retried_witness :
  reachable Sample.superseded
  /\ tasks Sample.superseded !! 0
     = Some {| task_config :=
                 with_cancelToken (Some 0)
                   (assign defaultConfig (Sample.options "/a" true false 3));
               phase := InFlight |}
  /\ Axios.cancellationRequested
       (with_cancelToken (Some 0)
          (assign defaultConfig (Sample.options "/a" true false 3)))
       Sample.superseded
     = Some MAxios.canceled
  /\ step (AdapterSettles 0 (inr "Network Error")) Sample.superseded
     = Some (with_task 0
               {| task_config :=
                    with_cancelToken (Some 0)
                      (assign defaultConfig (Sample.options "/a" true false 3));
                  phase := Done (Rejected (RejectMessage MAxios.canceled)) |}
               Sample.superseded).
Proof.
  assert (Htask : tasks Sample.superseded !! 0
                  = Some {| task_config :=
                              with_cancelToken (Some 0)
                                (assign defaultConfig
                                   (Sample.options "/a" true false 3));
                            phase := InFlight |})
    by (vm_compute; reflexivity).
  assert (Hcancel : Axios.cancellationRequested
                      (with_cancelToken (Some 0)
                         (assign defaultConfig
                            (Sample.options "/a" true false 3)))
                      Sample.superseded
                    = Some MAxios.canceled)
    by (vm_compute; reflexivity).
  split; [apply sample_world_reachable |].
  split; [exact Htask |]. split; [exact Hcancel |].
  exact (proj2 (proj2 (proj2
           (C7_cancellation_is_never_retried Sample.superseded 0 _ InFlight
              MAxios.canceled (inr "Network Error")
              (sample_world_reachable _) Htask (or_intror eq_refl) Hcancel)))).
Defined.

(** ** The response cache *)

Section Cache.

(** The registry methods neither read nor write the cache. *)
Lemma removeReq_cache_frame (config : Config) (m : JsMap.t Response) (w : World) :
  MAxios.removeReq config (with_responseCacheMap m w)
  = with_responseCacheMap m (MAxios.removeReq config w).
Proof.
  unfold MAxios.removeReq. simpl.
  destruct (MAxios.getDuplicatedKey config) as [key |]; [| reflexivity].
  destruct (negb (cancelDuplicated config)); [reflexivity |].
  destruct (negb (JsMap.has key (requestMap w))); [reflexivity |].
  destruct (JsMap.get key (requestMap w)) as [c |]; [| reflexivity].
  unfold Axios.cancel. simpl. now destruct (reasons w !! c).
Qed.

Lemma addReq_cache_frame (config : Config) (m : JsMap.t Response) (w : World) :
  MAxios.addReq config (with_responseCacheMap m w)
  = match MAxios.addReq config w with
    | Some (config', w') => Some (config', with_responseCacheMap m w')
    | None => None
    end.
Proof.
  unfold MAxios.addReq. simpl.
  destruct (negb (cancelDuplicated config)); [reflexivity |].
  destruct (MAxios.getDuplicatedKey config) as [key |]; [| reflexivity].
  now destruct (negb (JsMap.has key (requestMap w))).
Qed.

Lemma interceptorsResponseError_cache_frame
    (error : AxiosError) (m : JsMap.t Response) (w : World) :
  MAxios.interceptorsResponseError error (with_responseCacheMap m w)
  = (fst (MAxios.interceptorsResponseError error w),
     with_responseCacheMap m (snd (MAxios.interceptorsResponseError error w))).
Proof.
  unfold MAxios.interceptorsResponseError. rewrite removeReq_cache_frame.
  destruct error; simpl; try reflexivity.
  now destruct (_ >? _)%Z.
Qed.

Lemma continue_cache_frame id config p (m : JsMap.t Response) (w : World) :
  continue id config p (with_responseCacheMap m w)
  = with_responseCacheMap m (continue id config p w).
Proof. now destruct p. Qed.

Lemma settle_error_cache_frame id config error (m : JsMap.t Response) (w : World) :
  settle id config (MAxios.interceptorsResponseError error (with_responseCacheMap m w))
  = with_responseCacheMap m
      (settle id config (MAxios.interceptorsResponseError error w)).
Proof.
  unfold settle. rewrite interceptorsResponseError_cache_frame. simpl.
  apply continue_cache_frame.
Qed.

(** A response interceptor stores nothing for a config without [cache]. *)
Lemma interceptorsResponse_uncached (response : Response) (w : World) :
  cache (response_config response) = false ->
  MAxios.interceptorsResponse response w
  = (Resolve response, MAxios.removeReq (response_config response) w).
Proof.
  intros H. unfold MAxios.interceptorsResponse, MAxios.setResponseCache.
  now rewrite H.
Qed.

(** What a step does to the cache: nothing, unless it is the success of a
    request with [cache = true], which is stored under its key. *)
Lemma step_cache (e : Event) (w w' : World) :
  step e w = Some w' ->
  responseCacheMap w' = responseCacheMap w
  \/ exists id body config key,
      e = AdapterSettles id (inl body)
      /\ tasks w !! id = Some {| task_config := config; phase := InFlight |}
      /\ cache config = true
      /\ MAxios.getDuplicatedKey config = Some key
      /\ responseCacheMap w'
         = JsMap.set key {| data := body; response_config := config |}
             (responseCacheMap w).
Proof.
  assert (Herr : forall id config error,
             responseCacheMap
               (settle id config (MAxios.interceptorsResponseError error w))
             = responseCacheMap w).
  { intros id config error. unfold settle.
    rewrite interceptorsResponseError_world.
    destruct (removeReq_fields
                (match error_config error with
                 | Some c => c | None => emptyObject end) w) as (Hc & _).
    now destruct (fst _). }
  destruct e as [options | id | id | id reply | id]; unfold step.
  - some_eq. left. unfold MAxios.request.
    destruct (cache _); [| reflexivity].
    now destruct (MAxios.getResponseCache _ _) as [[r |] |].
  - destruct (tasks w !! id) as [[config []] |] eqn:Htask; try discriminate.
    destruct (MAxios.interceptorsRequest config w) as [[config' w1] |] eqn:E;
      some_eq; left; [| apply Herr].
    simpl. unfold MAxios.interceptorsRequest in E.
    rewrite <- (proj1 (removeReq_fields config w)).
    destruct (addReq_cases config (MAxios.removeReq config w))
      as [H | [(key & _ & _ & _ & H) | (H & _)]]; rewrite H in E;
      inversion E; reflexivity.
  - destruct (tasks w !! id) as [[config []] |] eqn:Htask; try discriminate.
    destruct (Axios.cancellationRequested config w); some_eq; left;
      [apply Herr | reflexivity].
  - destruct (tasks w !! id) as [[config []] |] eqn:Htask; try discriminate.
    destruct (Axios.cancellationRequested config w);
      [some_eq; left; apply Herr |].
    destruct reply as [body | failure]; some_eq; [| left; apply Herr].
    unfold settle, MAxios.interceptorsResponse, MAxios.setResponseCache. simpl.
    destruct (cache config) eqn:Hcache; simpl.
    + destruct (MAxios.getDuplicatedKey config) as [key |] eqn:Hkey; simpl.
      * right. exists id, body, config, key.
        rewrite (proj1 (removeReq_fields config w)). auto.
      * left. apply (removeReq_fields config w).
    + left. apply (removeReq_fields config w).
  - destruct (tasks w !! id) as [[config []] |] eqn:Htask; try discriminate.
    some_eq. now left.
Qed.

(** An event of a request without [cache] runs the same whatever the cache
    holds, and leaves the cache as it is. *)
Lemma step_cache_frame (e : Event) (m : JsMap.t Response) (w : World) :
  cache_flag e w = false ->
  step e (with_responseCacheMap m w) = with_responseCacheMap m <$> step e w.
Proof.
  destruct e as [options | id | id | id reply | id]; unfold step, cache_flag;
    simpl tasks.
  - intros H. unfold MAxios.request. now rewrite H.
  - destruct (tasks w !! id) as [[config []] |]; try reflexivity.
    intros _. unfold MAxios.interceptorsRequest.
    rewrite removeReq_cache_frame, addReq_cache_frame.
    destruct (MAxios.addReq _ _) as [[config' w1] |]; [reflexivity |].
    now rewrite settle_error_cache_frame.
  - destruct (tasks w !! id) as [[config []] |]; try reflexivity.
    intros _. unfold Axios.cancellationRequested. simpl reasons.
    destruct (match cancelToken config with
              | Some c => reasons w !! c | None => None end);
      [now rewrite settle_error_cache_frame | reflexivity].
  - destruct (tasks w !! id) as [[config []] |]; try reflexivity.
    cbn [task_config]. intros Hcache.
    unfold Axios.cancellationRequested. simpl reasons.
    destruct (match cancelToken config with
              | Some c => reasons w !! c | None => None end);
      [now rewrite settle_error_cache_frame |].
    destruct reply as [body | failure];
      [| now rewrite settle_error_cache_frame].
    rewrite !interceptorsResponse_uncached by exact Hcache.
    unfold settle. simpl. now rewrite removeReq_cache_frame.
  - destruct (tasks w !! id) as [[config []] |]; reflexivity.
Qed.

End Cache.

(** C9.  A response is stored into the cache only for a request whose
    [cache] flag is true: a step changes the cache only when it is the
    successful reply to such a request, and [setResponseCache] does nothing
    for any other config.  The cache is looked up only by a request that sets
    [cache = true]: every event of a request with [cache = false] (its call of
    [request] included) runs the same whatever the cache holds and leaves the
    cache as it is. *)
Theorem C9_cache_only_for_cache_requests :
  (forall (config : Config) (response : Response) (this : World),
      cache config = false ->
      MAxios.setResponseCache config response this = Some this)
  /\ (forall (e : Event) (w w' : World),
         step e w = Some w' ->
         responseCacheMap w' <> responseCacheMap w ->
         cache_flag e w = true
         /\ exists id body, e = AdapterSettles id (inl body))
  /\ (forall (e : Event) (m : JsMap.t Response) (w : World),
         cache_flag e w = false ->
         step e (with_responseCacheMap m w)
         = with_responseCacheMap m <$> step e w)
  /\ (forall (options : Options) (m : JsMap.t Response) (this : World),
         cache (assign defaultConfig options) = false ->
         MAxios.request options (with_responseCacheMap m this)
         = (fst (MAxios.request options this),
            with_responseCacheMap m (snd (MAxios.request options this)))).
Proof.
  split; [| split; [| split]].
  - intros config response this H. unfold MAxios.setResponseCache.
    now rewrite H.
  - intros e w w' Hstep Hchanged.
    destruct (step_cache e w w' Hstep)
      as [H | (id & body & config & key & -> & Htask & Hcache & _)];
      [contradiction |].
    split; [| eauto]. simpl. now rewrite Htask.
  - apply step_cache_frame.
  - intros options m this H. unfold MAxios.request. now rewrite H.
Qed.

Lemma C9_cache_only_for_cache_requests_witness :
  (cache (assign defaultConfig (Sample.options "/a" false false 0)) = false
   /\ MAxios.setResponseCache
        (assign defaultConfig (Sample.options "/a" false false 0))
        Sample.responseA init
      = Some init)
  /\ (responseCacheMap
        (Sample.world [Call (Sample.options "/a" false true 0);
                       RunRequestInterceptor 0; DispatchRequest 0;
                       AdapterSettles 0 (inl "A")])
      <> responseCacheMap Sample.inFlight
      /\ cache_flag (AdapterSettles 0 (inl "A")) Sample.inFlight = true)
  /\ (cache_flag (Call (Sample.options "/a" false false 0)) init = false
      /\ step (Call (Sample.options "/a" false false 0))
           (with_responseCacheMap [("get/a", Sample.responseA)] init)
         = with_responseCacheMap [("get/a", Sample.responseA)]
             <$> step (Call (Sample.options "/a" false false 0)) init).
Proof.
  pose proof C9_cache_only_for_cache_requests as (Hset & Hstore & Hframe & _).
  split; [split; [reflexivity | now apply Hset] |].
  split.
  - assert (Hchanged :
              responseCacheMap
                (Sample.world [Call (Sample.options "/a" false true 0);
                               RunRequestInterceptor 0; DispatchRequest 0;
                               AdapterSettles 0 (inl "A")])
              <> responseCacheMap Sample.inFlight)
      by (vm_compute; discriminate).
    split; [exact Hchanged |].
    refine (proj1 (Hstore (AdapterSettles 0 (inl "A")) Sample.inFlight _ _ Hchanged)).
    vm_compute; reflexivity.
  - split; [reflexivity |].
    apply (Hframe (Call (Sample.options "/a" false false 0))
             [("get/a", Sample.responseA)] init).
    reflexivity.
Defined.

(** ** At most one handle per key *)

(** C8.  At every point of an execution the registry holds at most one
    cancel function under any key.  [addReq] stores a handle under a key only
    when the registry has no entry for it (with an entry it stores nothing),
    [removeReq] leaves no entry under the key of a request that sets
    [cancelDuplicated], and so the registration of the request interceptor,
    which comes after its [removeReq], is always on a key without entry. *)
Theorem C8_one_pending_handle_per_key :
  (forall w : World,
      reachable w -> forall key, JsMap.count key (requestMap w) <= 1)
  /\ (forall (config : Config) (this : World) key,
         MAxios.getDuplicatedKey config = Some key ->
         JsMap.has key (requestMap this) = true ->
         MAxios.addReq config this = Some (config, this))
  /\ (forall (config config' : Config) (this this' : World) key,
         MAxios.getDuplicatedKey config = Some key ->
         MAxios.addReq config this = Some (config', this') ->
         requestMap this' <> requestMap this ->
         JsMap.has key (requestMap this) = false
         /\ requestMap this' = JsMap.set key (nextToken this) (requestMap this)
         /\ cancelToken config' = Some (nextToken this))
  /\ (forall (config : Config) (this : World) key,
         cancelDuplicated config = true ->
         MAxios.getDuplicatedKey config = Some key ->
         JsMap.has key (requestMap (MAxios.removeReq config this)) = false)
  /\ (forall (config : Config) (this : World) key,
         cancelDuplicated config = true ->
         MAxios.getDuplicatedKey config = Some key ->
         exists this',
           MAxios.interceptorsRequest config this
           = Some (with_cancelToken (Some (nextToken this)) config, this')
           /\ JsMap.get key (requestMap this') = Some (nextToken this)
           /\ JsMap.count key (requestMap this') = 1).
Proof.
  split; [| split; [| split; [| split]]].
  - intros w Hreach. apply (wf_registry w (reachable_wf w Hreach)).
  - intros config this key Hkey Hhas. unfold MAxios.addReq.
    rewrite Hkey, Hhas. now destruct (cancelDuplicated config).
  - intros config config' this this' key Hkey Hadd Hchanged.
    destruct (addReq_cases config this)
      as [H | [(key' & Hkey' & _ & Hhas & H) | (H & _)]];
      rewrite H in Hadd; inversion Hadd; subst; [contradiction |].
    assert (key' = key) by congruence. subst key'. auto.
  - intros config this key. apply removeReq_has.
  - intros config this key Hflag Hkey.
    pose proof (removeReq_has config this key Hflag Hkey) as Hhas.
    destruct (removeReq_fields config this) as (_ & Hnext & _).
    unfold MAxios.interceptorsRequest, MAxios.addReq.
    rewrite Hflag, Hkey, Hhas. simpl. rewrite Hnext.
    eexists. split; [reflexivity |]. simpl. split.
    + apply JsMapFacts.get_set.
    + rewrite JsMapFacts.count_set, Hhas, String.eqb_refl.
      now rewrite (JsMapFacts.count_not_has _ _ Hhas).
Qed.

Lemma C8_one_pending_handle_per_key_witness :
  (reachable Sample.registered
   /\ JsMap.count "get/a" (requestMap Sample.registered) <= 1)
  /\ (JsMap.has "get/a" (requestMap Sample.registered) = true
      /\ MAxios.addReq (assign defaultConfig (Sample.options "/a" true false 0))
           Sample.registered
         = Some (assign defaultConfig (Sample.options "/a" true false 0),
                 Sample.registered))
  /\ JsMap.has "get/a"
       (requestMap
          (MAxios.removeReq
             (assign defaultConfig (Sample.options "/a" true false 0))
             Sample.registered))
     = false.
Proof.
  pose proof C8_one_pending_handle_per_key as (Hone & Hkeep & _ & Hremove & _).
  split; [split; [apply sample_world_reachable |] |].
  { apply (Hone Sample.registered (sample_world_reachable _) "get/a"). }
  split; [split; [vm_compute; reflexivity |] |].
  { apply (Hkeep _ Sample.registered "get/a");
      [reflexivity | vm_compute; reflexivity]. }
  apply (Hremove _ Sample.registered "get/a"); reflexivity.
Defined.

(** ** One instance from issue to settlement *)

Section Chain.

Lemma continue_task (id : TaskId) (config : Config) (p : Promise) (w : World) :
  tasks (continue id config p w) !! id
  = Some match p with
         | Resolve response =>
             {| task_config := config; phase := Done (Resolved response) |}
         | Reject reason =>
             {| task_config := config; phase := Done (Rejected reason) |}
         | RetryTask delay config' =>
             {| task_config := config'; phase := Delaying delay |}
         end.
Proof. destruct p; simpl; apply lookup_insert_eq. Qed.

Lemma continue_fields (id : TaskId) (config : Config) (p : Promise) (w : World) :
  requestMap (continue id config p w) = requestMap w
  /\ responseCacheMap (continue id config p w) = responseCacheMap w
  /\ reasons (continue id config p w) = reasons w
  /\ nextToken (continue id config p w) = nextToken w
  /\ nextTask (continue id config p w) = nextTask w
  /\ adapterCalls (continue id config p w) = adapterCalls w.
Proof. destruct p; simpl; auto 10. Qed.

Lemma interceptorsResponseError_transport (failure : string) (config : Config)
    (w : World) :
  fst (MAxios.interceptorsResponseError (TransportError failure config) w)
  = if (retry config >? 0)%Z
    then MAxios.retry config (TransportError failure config)
    else Reject (RejectError (TransportError failure config)).
Proof.
  unfold MAxios.interceptorsResponseError. simpl. now destruct (_ >? _)%Z.
Qed.

(** The request interceptor of a config that has a method: the config comes
    out with a token that is not cancelled, or without token. *)
Lemma interceptorsRequest_live (config : Config) (w : World) :
  wf w -> config_ok config ->
  exists config' w',
    MAxios.interceptorsRequest config w = Some (config', w')
    /\ wf w'
    /\ Axios.cancellationRequested config' w' = None
    /\ (config' = config
        \/ cancelDuplicated config = true
           /\ config' = with_cancelToken (Some (nextToken w)) config
           /\ nextToken w' = S (nextToken w))
    /\ tasks w' = tasks w
    /\ nextTask w' = nextTask w
    /\ adapterCalls w' = adapterCalls w
    /\ responseCacheMap w' = responseCacheMap w
    /\ forall c m, reasons w !! c = Some m -> reasons w' !! c = Some m.
Proof.
  intros Hwf [Hmethod Huntracked].
  destruct (getDuplicatedKey_defined config Hmethod) as [key Hkey].
  pose proof (wf_removeReq config w Hwf) as Hwf1.
  destruct (removeReq_fields config w) as (Hcache & Hnext & Htasks & Hn & Hcalls).
  unfold MAxios.interceptorsRequest, MAxios.addReq.
  destruct (cancelDuplicated config) eqn:Hflag; simpl.
  - rewrite Hkey, (removeReq_has config w key Hflag Hkey). simpl.
    eexists. eexists. split; [reflexivity |].
    split; [now apply wf_register |].
    split.
    + unfold Axios.cancellationRequested. simpl.
      destruct (reasons (MAxios.removeReq config w)
                  !! nextToken (MAxios.removeReq config w)) eqn:E;
        [| reflexivity].
      apply (wf_reasons _ Hwf1) in E. lia.
    + simpl. rewrite Hnext. split; [right; auto |].
      repeat split; auto. intros c m. apply removeReq_reasons.
  - eexists. eexists. split; [reflexivity |].
    split; [exact Hwf1 |]. split.
    + unfold Axios.cancellationRequested. now rewrite Huntracked.
    + split; [now left |]. repeat split; auto.
      intros c m. apply removeReq_reasons.
Qed.

Lemma transportCalls_invoked (id : TaskId) (t : Task) (w : World) :
  transportCalls id (with_task id t (with_adapterCall id w))
  = S (transportCalls id w).
Proof. unfold transportCalls. simpl. now rewrite filter_cons_True. Qed.

Lemma transportCalls_other (id id' : TaskId) (t : Task) (w : World) :
  id <> id' ->
  transportCalls id' (with_task id t (with_adapterCall id w))
  = transportCalls id' w.
Proof. intros H. unfold transportCalls. simpl. now rewrite filter_cons_False. Qed.

Lemma transportCalls_settle_error (id id' : TaskId) (config : Config)
    (error : AxiosError) (w : World) :
  transportCalls id'
    (settle id config (MAxios.interceptorsResponseError error w))
  = transportCalls id' w.
Proof.
  unfold transportCalls, settle.
  destruct (continue_fields id config
              (fst (MAxios.interceptorsResponseError error w))
              (snd (MAxios.interceptorsResponseError error w)))
    as (_ & _ & _ & _ & _ & ->).
  rewrite interceptorsResponseError_world.
  now destruct (removeReq_fields
                  (match error_config error with
                   | Some c => c | None => emptyObject end) w)
    as (_ & _ & _ & _ & ->).
Qed.

End Chain.

(** ** Retries against a transport that always fails *)

Section Attempts.

Variable transport : Config -> string + string.
Hypothesis always_fails : forall config, exists failure, transport config = inr failure.

Lemma drive_done (fuel : nat) (id : TaskId) (w : World) config outcome :
  tasks w !! id = Some {| task_config := config; phase := Done outcome |} ->
  drive transport fuel id w = w.
Proof.
  intros H. destruct fuel; [reflexivity |]. simpl.
  unfold next_event. now rewrite H.
Qed.

Lemma drive_step (fuel : nat) (id : TaskId) (w w' : World) e :
  next_event transport id w = Some e -> step e w = Some w' ->
  drive transport (S fuel) id w = drive transport fuel id w'.
Proof. intros Hnext Hstep. simpl. now rewrite Hnext, Hstep. Qed.

(** One event of the instance: the invariant is kept and one event less
    remains. *)
Lemma attempting_step (n : Z) (base : nat) (id : TaskId) (w : World) :
  attempting n base id w ->
  remaining id w <> 0 ->
  exists e w',
    next_event transport id w = Some e
    /\ step e w = Some w'
    /\ attempting n base id w'
    /\ remaining id w = S (remaining id w').
Proof.
  intros (Hwf & config & ph & Htask & Hmethod & Hretry & Hcount & Hph) Hrem.
  unfold remaining in Hrem |- *. unfold next_event. rewrite Htask in *.
  destruct ph as [| | | delay | outcome]; [| | | | contradiction].
  - (* the request interceptor *)
    destruct (interceptorsRequest_live config w Hwf
                (wf_configs w Hwf id _ Htask))
      as (c1 & w1 & Hint & Hwf1 & Hlive & Hc1 & Ht & Hn & Hcalls & _).
    assert (Hstep : step (RunRequestInterceptor id) w
                    = Some (with_task id
                              {| task_config := c1; phase := Intercepted |} w1))
      by (unfold step; now rewrite Htask, Hint).
    eexists. eexists. split; [reflexivity |]. split; [exact Hstep |].
    assert (Hsame : method c1 = method config /\ retry c1 = retry config
                    /\ MAxios.retryCountOr0 c1 = MAxios.retryCountOr0 config).
    { destruct Hc1 as [-> | (_ & -> & _)]; auto. }
    destruct Hsame as (Hm1 & Hr1 & Hk1).
    split.
    + split; [exact (wf_step _ _ _ Hwf Hstep) |].
      exists c1, Intercepted. simpl. rewrite lookup_insert_eq.
      rewrite Hm1, Hr1, Hk1. repeat split; auto; try lia.
      unfold transportCalls in *. simpl. now rewrite Hcalls.
    + simpl. rewrite lookup_insert_eq, Hr1, Hk1. lia.
  - (* dispatchRequest *)
    destruct Hph as [Hlive Hcalls].
    assert (Hstep : step (DispatchRequest id) w
                    = Some (with_task id
                              {| task_config := config; phase := InFlight |}
                              (with_adapterCall id w)))
      by (unfold step; now rewrite Htask, Hlive).
    eexists. eexists. split; [reflexivity |]. split; [exact Hstep |].
    split.
    + split; [exact (wf_step _ _ _ Hwf Hstep) |].
      exists config, InFlight. simpl tasks. rewrite lookup_insert_eq.
      repeat split; auto; try lia.
      rewrite transportCalls_invoked. lia.
    + simpl. rewrite lookup_insert_eq. lia.
  - (* the adapter fails *)
    destruct Hph as [Hlive Hcalls].
    destruct (always_fails config) as [failure Hfailure]. rewrite Hfailure.
    assert (Hstep : step (AdapterSettles id (inr failure)) w
                    = Some (settle id config
                              (MAxios.interceptorsResponseError
                                 (TransportError failure config) w)))
      by (unfold step; now rewrite Htask, Hlive).
    eexists. eexists. split; [reflexivity |]. split; [exact Hstep |].
    pose proof (wf_step _ _ _ Hwf Hstep) as Hwf'.
    pose proof (transportCalls_settle_error id id config
                  (TransportError failure config) w) as Hcalls'.
    unfold settle in *. rewrite interceptorsResponseError_transport in *.
    set (w' := snd (MAxios.interceptorsResponseError
                      (TransportError failure config) w)) in *.
    destruct (Z.gtb_spec (retry config) 0) as [Hpos | Hzero].
    + destruct (Z.lt_ge_cases (MAxios.retryCountOr0 config) (retry config))
        as [Hlt | Hge].
      * rewrite retry_again in * by exact Hlt.
        set (c' := if (_ =? _)%Z then _ else _) in *.
        assert (Hc' : method c' = method config /\ retry c' = retry config
                      /\ MAxios.retryCountOr0 c'
                         = (MAxios.retryCountOr0 config + 1)%Z).
        { subst c'. destruct (_ =? _)%Z; repeat split; try reflexivity;
            exact (retryCountOr0_with_retryCount
                     (MAxios.retryCountOr0 config + 1) config). }
        destruct Hc' as (Hm' & Hr' & Hk').
        split.
        -- split; [exact Hwf' |].
           eexists. eexists. rewrite continue_task.
           split; [reflexivity |]. rewrite Hm', Hr', Hk'.
           repeat split; auto; try lia.
        -- rewrite continue_task, Hr', Hk'.
           replace (Z.to_nat (retry config - MAxios.retryCountOr0 config))
             with (S (Z.to_nat (retry config
                                - (MAxios.retryCountOr0 config + 1)))) by lia.
           lia.
      * rewrite retry_exhausted in * by lia.
        split.
        -- split; [exact Hwf' |].
           eexists. eexists. rewrite continue_task.
           split; [reflexivity |].
           repeat split; eauto; try lia.
        -- rewrite continue_task.
           replace (Z.to_nat (retry config - MAxios.retryCountOr0 config))
             with 0 by lia.
           reflexivity.
    + split.
      * split; [exact Hwf' |].
        eexists. eexists. rewrite continue_task.
        split; [reflexivity |].
        repeat split; eauto; try lia.
      * rewrite continue_task.
        replace (Z.to_nat (retry config - MAxios.retryCountOr0 config))
          with 0 by lia.
        reflexivity.
  - (* the timer of the retry *)
    assert (Hstep : step (TimerFires id) w = Some (Axios.request id config w))
      by (unfold step; now rewrite Htask).
    eexists. eexists. split; [reflexivity |]. split; [exact Hstep |].
    split.
    + split; [exact (wf_step _ _ _ Hwf Hstep) |].
      exists config, Created. simpl. rewrite lookup_insert_eq.
      repeat split; auto; lia.
    + simpl. rewrite lookup_insert_eq. lia.
Qed.

(** The invariant holds however long the instance is driven. *)
Lemma attempting_drive (n : Z) (base : nat) (id : TaskId) (fuel : nat) (w : World) :
  attempting n base id w -> attempting n base id (drive transport fuel id w).
Proof.
  revert w. induction fuel as [| fuel IH]; intros w Hw; [exact Hw |].
  destruct (Nat.eq_dec (remaining id w) 0) as [Hzero | Hrem].
  - destruct Hw as (Hwf & config & ph & Htask & Hrest).
    assert (exists outcome, ph = Done outcome) as [outcome ->].
    { unfold remaining in Hzero. rewrite Htask in Hzero.
      destruct ph; try lia. eauto. }
    rewrite (drive_done _ _ _ _ _ Htask). split; [exact Hwf |].
    exists config, (Done outcome). split; [exact Htask | exact Hrest].
  - destruct (attempting_step n base id w Hw Hrem)
      as (e & w' & Hnext & Hstep & Hw' & _).
    rewrite (drive_step _ _ _ _ _ Hnext Hstep). now apply IH.
Qed.

(** With enough fuel the instance is settled. *)
Lemma attempting_settles (n : Z) (base : nat) (id : TaskId) (fuel : nat) (w : World) :
  attempting n base id w -> remaining id w <= fuel ->
  remaining id (drive transport fuel id w) = 0.
Proof.
  revert w. induction fuel as [| fuel IH]; intros w Hw Hfuel; [simpl; lia |].
  destruct (Nat.eq_dec (remaining id w) 0) as [Hzero | Hrem].
  - destruct Hw as (Hwf & config & ph & Htask & Hrest).
    assert (exists outcome, ph = Done outcome) as [outcome ->].
    { unfold remaining in Hzero. rewrite Htask in Hzero.
      destruct ph; try lia. eauto. }
    now rewrite (drive_done _ _ _ _ _ Htask).
  - destruct (attempting_step n base id w Hw Hrem)
      as (e & w' & Hnext & Hstep & Hw' & Hless).
    rewrite (drive_step _ _ _ _ _ Hnext Hstep). apply IH; [exact Hw' | lia].
Qed.

End Attempts.

Section RetryBudget.

Lemma failing_history_keeps_cache (events : list Event) (w0 w : World) :
  run events w0 = Some w ->
  (forall e, In e events -> is_success e = false) ->
  responseCacheMap w = responseCacheMap w0.
Proof.
  revert w0. induction events as [| e events IH]; simpl; intros w0 Hrun Hfail.
  - now inversion Hrun.
  - destruct (step e w0) as [w1 |] eqn:Hstep; [| discriminate].
    rewrite (IH w1 Hrun) by auto.
    destruct (step_cache e w0 w1 Hstep) as [H | (id & body & _ & _ & -> & _)];
      [exact H |].
    specialize (Hfail _ (or_introl eq_refl)). discriminate.
Qed.

(** A request that finds nothing in the cache gets a new instance. *)
Lemma request_issues (options : Options) (w : World) :
  cache (assign defaultConfig options) = false
  \/ MAxios.getResponseCache (assign defaultConfig options) w = Some None ->
  MAxios.request options w
  = (MAxios.FromInstance (nextTask w),
     Axios.request (nextTask w) (assign defaultConfig options)
       (with_nextTask (S (nextTask w)) w)).
Proof.
  unfold MAxios.request.
  destruct (cache (assign defaultConfig options)); intros [H | H];
    try discriminate; try reflexivity.
  now rewrite H.
Qed.

Lemma getResponseCache_empty (config : Config) (w : World) :
  method config <> None -> responseCacheMap w = [] ->
  MAxios.getResponseCache config w = Some None.
Proof.
  intros Hm Hempty. unfold MAxios.getResponseCache.
  destruct (getDuplicatedKey_defined config Hm) as [key ->].
  now rewrite Hempty.
Qed.

Lemma transportCalls_fresh (id : TaskId) (w : World) :
  wf w -> nextTask w <= id -> transportCalls id w = 0.
Proof.
  intros Hwf Hid. unfold transportCalls.
  pose proof (wf_calls w Hwf) as Hcalls.
  induction (adapterCalls w) as [| i calls IH]; [reflexivity |].
  rewrite filter_cons_False.
  - apply IH. intros j Hj. apply Hcalls. now right.
  - specialize (Hcalls i (or_introl eq_refl)). lia.
Qed.

(** A request that is issued starts its attempts with nothing counted. *)
Lemma issued_attempting (options : Options) (w : World) :
  wf w -> (0 <= retry (assign defaultConfig options))%Z ->
  opt_retryCount options = None ->
  attempting (retry (assign defaultConfig options)) 0 (nextTask w)
    (Axios.request (nextTask w) (assign defaultConfig options)
       (with_nextTask (S (nextTask w)) w)).
Proof.
  intros Hwf Hn Hfresh.
  assert (Hstep : step (Call options)
                    (with_responseCacheMap [] w)
                  = Some (with_responseCacheMap []
                            (Axios.request (nextTask w)
                               (assign defaultConfig options)
                               (with_nextTask (S (nextTask w)) w)))).
  { unfold step. rewrite request_issues; [reflexivity |].
    right. apply getResponseCache_empty; [apply assign_method | reflexivity]. }
  assert (Hwf0 : wf (with_responseCacheMap [] w))
    by (destruct Hwf; now constructor).
  pose proof (wf_step _ _ _ Hwf0 Hstep) as Hwf1.
  assert (Hk : MAxios.retryCountOr0 (assign defaultConfig options) = 0%Z).
  { unfold MAxios.retryCountOr0. simpl. now rewrite Hfresh. }
  split; [destruct Hwf1; now constructor |].
  eexists. eexists. simpl tasks. rewrite lookup_insert_eq.
  split; [reflexivity |]. split; [apply assign_method |].
  split; [reflexivity |]. rewrite Hk. split; [lia |].
  unfold transportCalls. simpl adapterCalls.
  now apply (transportCalls_fresh (nextTask w) w Hwf).
Qed.

End RetryBudget.

(** C3.  Against a transport that always fails, a request with [retry = n],
    [n >= 0], makes the adapter run exactly [n + 1] times in total and is then
    rejected with the last error.  The attempts share the one [__retryCount]
    of the descriptor: it is incremented once per re-issuance (at every moment
    the adapter has run [__retryCount] times, or once more for the attempt
    under way), never exceeds [retry], and equals [retry] at the end. *)
Theorem C3_retry_budget
    (transport : Config -> string + string) (events : list Event) (w : World)
    (options : Options) (n : Z) :
  run events init = Some w ->
  (forall e, In e events -> is_success e = false) ->
  (forall config, exists failure, transport config = inr failure) ->
  (0 <= n)%Z ->
  retry (assign defaultConfig options) = n ->
  opt_retryCount options = None ->
  let id := nextTask w in
  let issued := snd (MAxios.request options w) in
  fst (MAxios.request options w) = MAxios.FromInstance id
  /\ (forall fuel,
         exists config,
           config_of id (drive transport fuel id issued) = Some config
           /\ (0 <= MAxios.retryCountOr0 config <= n)%Z
           /\ Z.to_nat (MAxios.retryCountOr0 config)
              <= transportCalls id (drive transport fuel id issued)
              <= Z.to_nat (MAxios.retryCountOr0 config) + 1)
  /\ (forall fuel,
         4 * Z.to_nat n + 3 <= fuel ->
         transportCalls id (drive transport fuel id issued) = Z.to_nat n + 1
         /\ (exists error,
                phase_of id (drive transport fuel id issued)
                = Some (Done (Rejected (RejectError error))))
         /\ exists config,
             config_of id (drive transport fuel id issued) = Some config
             /\ MAxios.retryCountOr0 config = n).
Proof.
  intros Hrun Hhistory Hfails Hn Hretry Hfresh id issued.
  assert (Hwf : wf w)
    by (apply reachable_wf; eapply run_reachable;
        [apply reachable_init | exact Hrun]).
  assert (Hissue : MAxios.request options w
                   = (MAxios.FromInstance id,
                      Axios.request id (assign defaultConfig options)
                        (with_nextTask (S id) w))).
  { apply request_issues. right.
    apply getResponseCache_empty; [apply assign_method |].
    apply (failing_history_keeps_cache events init w Hrun Hhistory). }
  subst issued. rewrite Hissue. simpl fst. simpl snd.
  assert (Hstart : attempting n 0 id
                     (Axios.request id (assign defaultConfig options)
                        (with_nextTask (S id) w))).
  { rewrite <- Hretry. apply issued_attempting; [exact Hwf | lia | exact Hfresh]. }
  split; [reflexivity |]. split.
  - intros fuel.
    destruct (attempting_drive transport Hfails n 0 id fuel _ Hstart)
      as (_ & config & ph & Htask & _ & _ & Hcount & Hph).
    exists config. unfold config_of. rewrite Htask.
    split; [reflexivity |]. split; [exact Hcount |].
    destruct ph as [| | | delay | outcome]; simpl in Hph;
      try (destruct Hph as (_ & Hph)); lia.
  - intros fuel Hfuel.
    pose proof (attempting_settles transport Hfails n 0 id fuel _ Hstart)
      as Hsettled.
    assert (Hrem : remaining id
                     (Axios.request id (assign defaultConfig options)
                        (with_nextTask (S id) w)) <= fuel).
    { unfold remaining. simpl tasks. rewrite lookup_insert_eq.
      cbn [task_config phase]. rewrite Hretry.
      replace (MAxios.retryCountOr0 (assign defaultConfig options)) with 0%Z.
      - replace (n - 0)%Z with n by lia. lia.
      - unfold MAxios.retryCountOr0. simpl. now rewrite Hfresh. }
    specialize (Hsettled Hrem).
    destruct (attempting_drive transport Hfails n 0 id fuel _ Hstart)
      as (_ & config & ph & Htask & _ & _ & Hcount & Hph).
    unfold remaining in Hsettled. rewrite Htask in Hsettled.
    destruct ph as [| | | delay | outcome]; try lia.
    destruct Hph as ((error & ->) & Hk & Hcalls).
    split; [exact Hcalls |]. split.
    + exists error. unfold phase_of. now rewrite Htask.
    + exists config. unfold config_of. now rewrite Htask.
Qed.

Lemma C3_retry_budget_witness :
  (forall config : Config,
      exists failure, (fun _ : Config => inr "Network Error") config
                      = @inr string string failure)
  /\ retry (assign defaultConfig (Sample.options "/a" true false 2)) = 2%Z
  /\ transportCalls 0
       (drive (fun _ => inr "Network Error") 11 0
          (snd (MAxios.request (Sample.options "/a" true false 2) init)))
     = 3.
Proof.
  assert (Hfails : forall config : Config,
             exists failure, (fun _ : Config => inr "Network Error") config
                             = @inr string string failure)
    by (intros _; now exists "Network Error").
  split; [exact Hfails |]. split; [reflexivity |].
  refine (proj1 (proj2 (proj2
            (C3_retry_budget (fun _ => inr "Network Error") [] init
               (Sample.options "/a" true false 2) 2 eq_refl _ Hfails _
               eq_refl eq_refl)) 11 _)).
  - intros e [].
  - lia.
  - simpl. lia.
Defined.

(** ** Two instances side by side *)

Section Interleaving.

Lemma interleavings_nil_l (ys : list Event) : interleavings [] ys = [ys].
Proof. now destruct ys. Qed.

Lemma interleavings_nil_r (xs : list Event) : interleavings xs [] = [xs].
Proof. now destruct xs. Qed.

Lemma interleavings_cons (x y : Event) (xs ys : list Event) :
  interleavings (x :: xs) (y :: ys)
  = (map (cons x) (interleavings xs (y :: ys))
       ++ map (cons y) (interleavings (x :: xs) ys))%list.
Proof. reflexivity. Qed.

(** A property of two instances that each event of either keeps holds after
    every merge of their schedules. *)
Lemma interleavings_run (P : list Event -> list Event -> World -> Prop) :
  (forall e xs ys x, P (e :: xs) ys x ->
     exists x', step e x = Some x' /\ P xs ys x') ->
  (forall e xs ys x, P xs (e :: ys) x ->
     exists x', step e x = Some x' /\ P xs ys x') ->
  forall xs ys schedule x,
    In schedule (interleavings xs ys) -> P xs ys x ->
    exists x', run schedule x = Some x' /\ P [] [] x'.
Proof.
  intros Hleft Hright.
  assert (Hxs : forall xs x, P xs [] x ->
                  exists x', run xs x = Some x' /\ P [] [] x').
  { induction xs as [| e xs IH]; intros x HP; [now exists x |].
    destruct (Hleft _ _ _ _ HP) as (x1 & Hstep & HP1).
    destruct (IH _ HP1) as (x' & Hrun & HP'). exists x'.
    simpl. now rewrite Hstep. }
  assert (Hys : forall ys x, P [] ys x ->
                  exists x', run ys x = Some x' /\ P [] [] x').
  { induction ys as [| e ys IH]; intros x HP; [now exists x |].
    destruct (Hright _ _ _ _ HP) as (x1 & Hstep & HP1).
    destruct (IH _ HP1) as (x' & Hrun & HP'). exists x'.
    simpl. now rewrite Hstep. }
  induction xs as [| e xs IHxs]; intros ys schedule x Hin HP.
  - rewrite interleavings_nil_l in Hin. destruct Hin as [<- | []]. now apply Hys.
  - revert schedule x Hin HP. induction ys as [| e' ys IHys]; intros schedule x Hin HP.
    + rewrite interleavings_nil_r in Hin. destruct Hin as [<- | []]. now apply Hxs.
    + rewrite interleavings_cons in Hin. apply in_app_or in Hin as [Hin | Hin];
        apply in_map_iff in Hin as (rest & <- & Hin).
      * destruct (Hleft _ _ _ _ HP) as (x1 & Hstep & HP1).
        destruct (IHxs _ _ _ Hin HP1) as (x' & Hrun & HP'). exists x'.
        simpl. now rewrite Hstep.
      * destruct (Hright _ _ _ _ HP) as (x1 & Hstep & HP1).
        destruct (IHys _ _ Hin HP1) as (x' & Hrun & HP'). exists x'.
        simpl. now rewrite Hstep.
Qed.

End Interleaving.

Section Proceeding.

Lemma removeReq_untracked (config : Config) (w : World) :
  cancelDuplicated config = false -> MAxios.removeReq config w = w.
Proof.
  intros H. unfold MAxios.removeReq. rewrite H.
  now destruct (MAxios.getDuplicatedKey config).
Qed.

(** For a request without [cancelDuplicated] the request interceptor neither
    supersedes nor registers: config and world come out as they went in. *)
Lemma interceptorsRequest_untracked (config : Config) (w : World) :
  cancelDuplicated config = false ->
  MAxios.interceptorsRequest config w = Some (config, w).
Proof.
  intros H. unfold MAxios.interceptorsRequest, MAxios.addReq.
  now rewrite (removeReq_untracked config w H), H.
Qed.

Lemma step_dispatch (id : TaskId) (config : Config) (x : World) :
  tasks x !! id = Some {| task_config := config; phase := Intercepted |} ->
  Axios.cancellationRequested config x = None ->
  step (DispatchRequest id) x
  = Some (with_task id {| task_config := config; phase := InFlight |}
            (with_adapterCall id x)).
Proof. intros Htask Hlive. unfold step. now rewrite Htask, Hlive. Qed.

(** The settling of a request whose token is cancelled, before or after its
    dispatch: only its own phase changes. *)
Lemma step_cancelled (id : TaskId) (config : Config) (ph : Phase)
    (reply : string + string) (m : CancelMessage) (x : World) :
  tasks x !! id = Some {| task_config := config; phase := ph |} ->
  ph = Intercepted \/ ph = InFlight ->
  Axios.cancellationRequested config x = Some m ->
  step (completion id ph reply) x
  = Some (with_task id
            {| task_config := config;
               phase := Done (Rejected (RejectMessage m)) |} x).
Proof.
  intros Htask [-> | ->] Hcancel; unfold step; simpl;
    now rewrite Htask, Hcancel.
Qed.

Lemma step_success (id : TaskId) (config : Config) (body : string) (x : World) :
  tasks x !! id = Some {| task_config := config; phase := InFlight |} ->
  Axios.cancellationRequested config x = None ->
  MAxios.getDuplicatedKey config <> None ->
  exists x0,
    step (AdapterSettles id (inl body)) x
    = Some (with_task id
              {| task_config := config;
                 phase := Done (Resolved {| data := body;
                                            response_config := config |}) |}
              x0)
    /\ tasks x0 = tasks x
    /\ adapterCalls x0 = adapterCalls x
    /\ reasons x0 = reasons (MAxios.removeReq config x).
Proof.
  intros Htask Hlive Hkey. unfold step. rewrite Htask, Hlive.
  unfold settle, MAxios.interceptorsResponse, MAxios.setResponseCache.
  cbn [response_config].
  destruct (removeReq_fields config x) as (_ & _ & Ht & _ & Hcalls).
  destruct (negb (cache config)); cbn [fst snd continue].
  - eexists. split; [reflexivity |]. auto.
  - destruct (MAxios.getDuplicatedKey config) as [key |]; [| contradiction].
    cbn [fst snd continue]. eexists. split; [reflexivity |]. simpl. auto.
Qed.

Lemma cancellationRequested_reasons (config : Config) (x x' : World) :
  reasons x' = reasons x ->
  Axios.cancellationRequested config x' = Axios.cancellationRequested config x.
Proof. intros H. unfold Axios.cancellationRequested. now rewrite H. Qed.

(** The next event of an instance that is proceeding, and what it leaves to
    the other instances: their entries, their counts, and every reason. *)
Lemma proceeding_step (id : TaskId) (config : Config) (body : string)
    (base : nat) (ph0 : Phase) (e : Event) (events : list Event) (x : World) :
  wf x ->
  proceeding id config body base ph0 (e :: events) x ->
  exists x',
    step e x = Some x'
    /\ proceeding id config body base ph0 events x'
    /\ (forall id', id <> id' -> tasks x' !! id' = tasks x !! id')
    /\ (forall id', id <> id' -> transportCalls id' x' = transportCalls id' x)
    /\ (forall t m, reasons x !! t = Some m -> reasons x' !! t = Some m)
    /\ (cancelDuplicated config = false -> reasons x' = reasons x).
Proof.
  intros Hwf (ph & Htask & Hevents & Hcalls & Hph).
  assert (Hkey : MAxios.getDuplicatedKey config <> None).
  { destruct (getDuplicatedKey_defined config
                (proj1 (wf_configs x Hwf id _ Htask))) as [key ->].
    discriminate. }
  destruct ph as [| | | delay | outcome]; simpl in Hevents;
    try discriminate; injection Hevents as -> ->.
  - (* the request interceptor, nothing tracked *)
    exists (with_task id {| task_config := config; phase := Intercepted |} x).
    split; [unfold step; now rewrite Htask, interceptorsRequest_untracked |].
    split.
    + exists Intercepted. simpl tasks. rewrite lookup_insert_eq.
      split; [reflexivity |]. split; [reflexivity |].
      split; [exact Hcalls |].
      pose proof (proj2 (wf_configs x Hwf id _ Htask) Hph) as Htoken.
      unfold Axios.cancellationRequested. simpl in Htoken. now rewrite Htoken.
    + repeat split; auto. intros id' Hne. simpl. now apply lookup_insert_ne.
  - (* dispatchRequest *)
    exists (with_task id {| task_config := config; phase := InFlight |}
              (with_adapterCall id x)).
    split; [now apply step_dispatch |]. split.
    + exists InFlight. simpl tasks. rewrite lookup_insert_eq.
      split; [reflexivity |]. split; [reflexivity |].
      rewrite transportCalls_invoked. simpl in *. split; [lia | exact Hph].
    + repeat split; auto.
      * intros id' Hne. simpl. now apply lookup_insert_ne.
      * intros id' Hne. now apply transportCalls_other.
  - (* the adapter resolves *)
    destruct (step_success id config body x Htask Hph Hkey)
      as (x0 & Hstep & Ht & Hc & Hr).
    eexists. split; [exact Hstep |]. split.
    + eexists. simpl tasks. rewrite lookup_insert_eq.
      split; [reflexivity |]. split; [reflexivity |].
      split; [| reflexivity].
      unfold transportCalls in *. simpl adapterCalls. now rewrite Hc.
    + repeat split.
      * intros id' Hne. simpl. rewrite lookup_insert_ne by exact Hne.
        now rewrite Ht.
      * intros id' Hne. unfold transportCalls. simpl. now rewrite Hc.
      * intros t m H. simpl. rewrite Hr. now apply removeReq_reasons.
      * intros Hflag. simpl. rewrite Hr. now rewrite removeReq_untracked.
Qed.

(** An event of another instance does not disturb one that is proceeding, as
    long as it cancels nothing or the instance has no token. *)
Lemma proceeding_frame (id : TaskId) (config : Config) (body : string)
    (base : nat) (ph0 : Phase) (events : list Event) (x x' : World) :
  proceeding id config body base ph0 events x ->
  tasks x' !! id = tasks x !! id ->
  transportCalls id x' = transportCalls id x ->
  reasons x' = reasons x \/ cancelToken config = None ->
  proceeding id config body base ph0 events x'.
Proof.
  intros (ph & Htask & Hevents & Hcalls & Hph) Ht Hc Hr.
  exists ph. rewrite Ht, Hc. repeat split; auto.
  assert (Hlive : Axios.cancellationRequested config x = None ->
                  Axios.cancellationRequested config x' = None).
  { destruct Hr as [Hr | Hr].
    - now rewrite (cancellationRequested_reasons config x x' Hr).
    - unfold Axios.cancellationRequested. now rewrite Hr. }
  destruct ph; auto.
Qed.

End Proceeding.

Section Supersession.

(** [removeReq] of a request that sets [cancelDuplicated] cancels the token
    registered under its key. *)
Lemma removeReq_supersedes (config : Config) (w : World) key t :
  wf w -> cancelDuplicated config = true ->
  MAxios.getDuplicatedKey config = Some key ->
  JsMap.get key (requestMap w) = Some t ->
  reasons (MAxios.removeReq config w) !! t = Some MAxios.canceled.
Proof.
  intros Hwf Hflag Hkey Hget. unfold MAxios.removeReq.
  rewrite Hkey, Hflag, (JsMapFacts.get_has _ _ _ Hget), Hget. simpl.
  rewrite cancel_reasons. simpl.
  destruct (reasons w !! t) as [m |] eqn:E.
  - apply (wf_reasons w Hwf) in E as [_ ->]. reflexivity.
  - now destruct (decide (t = t)).
Qed.

Lemma interceptorsRequest_reasons (config config' : Config) (w w' : World) :
  MAxios.interceptorsRequest config w = Some (config', w') ->
  reasons w' = reasons (MAxios.removeReq config w).
Proof.
  unfold MAxios.interceptorsRequest.
  destruct (addReq_cases config (MAxios.removeReq config w))
    as [H | [(key & _ & _ & _ & H) | (H & _)]]; rewrite H;
    intros E; inversion E; reflexivity.
Qed.

(** The request interceptor of a second request that sets
    [cancelDuplicated], while the registry holds token [t] under its key:
    [t] is cancelled, and the second request goes on with a live token. *)
Lemma step_supersede (b : TaskId) (cb : Config) (w : World) key t :
  wf w ->
  tasks w !! b = Some {| task_config := cb; phase := Created |} ->
  cancelDuplicated cb = true ->
  MAxios.getDuplicatedKey cb = Some key ->
  JsMap.get key (requestMap w) = Some t ->
  exists cb' w1,
    step (RunRequestInterceptor b) w = Some w1
    /\ tasks w1 = <[b := {| task_config := cb'; phase := Intercepted |}]> (tasks w)
    /\ adapterCalls w1 = adapterCalls w
    /\ reasons w1 !! t = Some MAxios.canceled
    /\ Axios.cancellationRequested cb' w1 = None.
Proof.
  intros Hwf Htask Hflag Hkey Hget.
  destruct (interceptorsRequest_live cb w Hwf (wf_configs w Hwf b _ Htask))
    as (cb' & w' & Hint & _ & Hlive & _ & Ht & _ & Hcalls & _).
  exists cb', (with_task b {| task_config := cb'; phase := Intercepted |} w').
  split; [unfold step; now rewrite Htask, Hint |].
  simpl. rewrite Ht. repeat split; auto.
  rewrite (interceptorsRequest_reasons _ _ _ _ Hint).
  now apply (removeReq_supersedes cb w key t).
Qed.

End Supersession.

Section TwoRequests.

Variables (w : World) (a b : TaskId) (ca cb : Config) (pa : Phase).
Hypothesis w_wf : wf w.
Hypothesis distinct : a <> b.
Hypothesis first : tasks w !! a = Some {| task_config := ca; phase := pa |}.
Hypothesis pending : pa = Intercepted \/ pa = InFlight.
Hypothesis second : tasks w !! b = Some {| task_config := cb; phase := Created |}.

Lemma proceeding_done (id : TaskId) (config : Config) (body : string)
    (base : nat) (ph0 : Phase) (x : World) :
  proceeding id config body base ph0 [] x ->
  phase_of id x
  = Some (Done (Resolved {| data := body; response_config := config |}))
  /\ transportCalls id x + invoked ph0 = base + 1.
Proof.
  intros (ph & Htask & Hevents & Hcalls & Hph). unfold phase_of. rewrite Htask.
  destruct ph; try discriminate; [contradiction |].
  rewrite Hph. auto.
Qed.

(** The second request does not set [cancelDuplicated]: whatever the order
    of their events, both requests resolve with their own response and the
    adapter is invoked once for each. *)
Lemma untracked_side_by_side (bodyA bodyB : string) (schedule : list Event) :
  Axios.cancellationRequested ca w = None ->
  cancelDuplicated cb = false ->
  In schedule
    (interleavings (remaining_events a pa (inl bodyA))
       (remaining_events b Created (inl bodyB))) ->
  exists w',
    run schedule w = Some w'
    /\ phase_of a w'
       = Some (Done (Resolved {| data := bodyA; response_config := ca |}))
    /\ phase_of b w'
       = Some (Done (Resolved {| data := bodyB; response_config := cb |}))
    /\ transportCalls a w' + invoked pa = transportCalls a w + 1
    /\ transportCalls b w' = transportCalls b w + 1.
Proof.
  intros Hlive Hflag Hin.
  assert (Htoken : cancelToken cb = None)
    by apply (proj2 (wf_configs w w_wf b _ second) Hflag).
  set (P := fun xs ys x =>
              wf x
              /\ proceeding a ca bodyA (transportCalls a w) pa xs x
              /\ proceeding b cb bodyB (transportCalls b w) Created ys x).
  assert (Hfirst : forall e xs ys x, P (e :: xs) ys x ->
                     exists x', step e x = Some x' /\ P xs ys x').
  { intros e xs ys x (Hwf & Ha & Hb).
    destruct (proceeding_step _ _ _ _ _ _ _ _ Hwf Ha)
      as (x' & Hstep & Ha' & Ht & Hc & _).
    exists x'. split; [exact Hstep |].
    split; [exact (wf_step _ _ _ Hwf Hstep) |]. split; [exact Ha' |].
    apply (proceeding_frame _ _ _ _ _ _ x); auto. }
  assert (Hsecond : forall e xs ys x, P xs (e :: ys) x ->
                      exists x', step e x = Some x' /\ P xs ys x').
  { intros e xs ys x (Hwf & Ha & Hb).
    destruct (proceeding_step _ _ _ _ _ _ _ _ Hwf Hb)
      as (x' & Hstep & Hb' & Ht & Hc & _ & Hr).
    exists x'. split; [exact Hstep |].
    split; [exact (wf_step _ _ _ Hwf Hstep) |]. split; [| exact Hb'].
    apply (proceeding_frame _ _ _ _ _ _ x); auto. }
  assert (Hstart : P (remaining_events a pa (inl bodyA))
                     (remaining_events b Created (inl bodyB)) w).
  { split; [exact w_wf |]. split.
    - exists pa. repeat split; auto. now destruct pending as [-> | ->].
    - exists Created. repeat split; auto. }
  destruct (interleavings_run P Hfirst Hsecond _ _ _ _ Hin Hstart)
    as (w' & Hrun & _ & Ha & Hb).
  exists w'. split; [exact Hrun |].
  destruct (proceeding_done _ _ _ _ _ _ Ha) as [-> Hca].
  destruct (proceeding_done _ _ _ _ _ _ Hb) as [-> Hcb].
  repeat split; auto. simpl in Hcb. lia.
Qed.

(** The second request sets [cancelDuplicated] and the first holds the
    entry of the key: the first is rejected with the cancellation, the second
    resolves through the adapter, whatever the order of their events after
    the second's request interceptor. *)
Lemma superseded_side_by_side (key : string) (t : TokenId)
    (ra : string + string) (body : string) (schedule : list Event) :
  cancelDuplicated cb = true ->
  MAxios.getDuplicatedKey cb = Some key ->
  cancelToken ca = Some t ->
  JsMap.get key (requestMap w) = Some t ->
  In schedule
    (interleavings [completion a pa ra]
       [DispatchRequest b; AdapterSettles b (inl body)]) ->
  exists w' cb',
    run (RunRequestInterceptor b :: schedule) w = Some w'
    /\ phase_of a w' = Some (Done (Rejected (RejectMessage MAxios.canceled)))
    /\ phase_of b w'
       = Some (Done (Resolved {| data := body; response_config := cb' |}))
    /\ transportCalls a w' = transportCalls a w
    /\ transportCalls b w' = transportCalls b w + 1.
Proof.
  intros Hflag Hkey Htoken Hget Hin.
  destruct (step_supersede b cb w key t w_wf second Hflag Hkey Hget)
    as (cb' & w1 & Hstep1 & Ht1 & Hcalls1 & Hreason1 & Hlive1).
  pose proof (wf_step _ _ _ w_wf Hstep1) as Hwf1.
  set (P := fun xs ys x =>
              wf x
              /\ (exists ph,
                     tasks x !! a = Some {| task_config := ca; phase := ph |}
                     /\ transportCalls a x = transportCalls a w
                     /\ (ph = pa /\ xs = [completion a pa ra]
                         /\ Axios.cancellationRequested ca x
                            = Some MAxios.canceled
                         \/ ph = Done (Rejected (RejectMessage MAxios.canceled))
                            /\ xs = []))
              /\ proceeding b cb' body (transportCalls b w) Intercepted ys x).
  assert (Hfirst : forall e xs ys x, P (e :: xs) ys x ->
                     exists x', step e x = Some x' /\ P xs ys x').
  { intros e xs ys x (Hwf & (ph & Ha & Hca & Hph) & Hb).
    destruct Hph as [(-> & [= -> ->] & Hcancel) | (_ & Hnil)];
      [| discriminate].
    pose proof (step_cancelled a ca pa ra _ x Ha pending Hcancel) as Hstep.
    eexists. split; [exact Hstep |].
    split; [exact (wf_step _ _ _ Hwf Hstep) |]. split.
    - eexists. simpl tasks. rewrite lookup_insert_eq.
      split; [reflexivity |]. split; [exact Hca |]. now right.
    - apply (proceeding_frame _ _ _ _ _ _ x); auto.
      simpl. now apply lookup_insert_ne. }
  assert (Hsecond : forall e xs ys x, P xs (e :: ys) x ->
                      exists x', step e x = Some x' /\ P xs ys x').
  { intros e xs ys x (Hwf & (ph & Ha & Hca & Hph) & Hb).
    destruct (proceeding_step _ _ _ _ _ _ _ _ Hwf Hb)
      as (x' & Hstep & Hb' & Ht & Hc & Hr & _).
    exists x'. split; [exact Hstep |].
    split; [exact (wf_step _ _ _ Hwf Hstep) |]. split; [| exact Hb'].
    exists ph. rewrite (Ht a) by auto. rewrite (Hc a) by auto.
    split; [exact Ha |]. split; [exact Hca |].
    destruct Hph as [(-> & -> & Hcancel) | Hdone]; [left | now right].
    repeat split. unfold Axios.cancellationRequested in *.
    rewrite Htoken in *. now apply Hr. }
  assert (Hstart : P [completion a pa ra]
                     [DispatchRequest b; AdapterSettles b (inl body)] w1).
  { split; [exact Hwf1 |]. split.
    - exists pa. rewrite Ht1, lookup_insert_ne by auto.
      split; [exact first |].
      split; [unfold transportCalls; now rewrite Hcalls1 |].
      left. repeat split. unfold Axios.cancellationRequested.
      now rewrite Htoken.
    - exists Intercepted. rewrite Ht1, lookup_insert_eq.
      repeat split; auto. unfold transportCalls. rewrite Hcalls1. simpl. lia. }
  destruct (interleavings_run P Hfirst Hsecond _ _ _ _ Hin Hstart)
    as (w' & Hrun & _ & (ph & Ha & Hca & Hph) & Hb).
  exists w', cb'. split; [cbn [run]; now rewrite Hstep1 |].
  destruct (proceeding_done _ _ _ _ _ _ Hb) as [-> Hcb].
  destruct Hph as [(_ & [=] & _) | (-> & _)].
  unfold phase_of. rewrite Ha. repeat split; auto. simpl in Hcb. lia.
Qed.

(** The first request does not set [cancelDuplicated]: it has no token and
    nothing cancels it.  Whatever the second request sets, both resolve. *)
Lemma unregistered_side_by_side (bodyA bodyB : string) (schedule : list Event) :
  cancelDuplicated ca = false ->
  In schedule
    (interleavings (remaining_events a pa (inl bodyA))
       [DispatchRequest b; AdapterSettles b (inl bodyB)]) ->
  exists w' cb',
    run (RunRequestInterceptor b :: schedule) w = Some w'
    /\ phase_of a w'
       = Some (Done (Resolved {| data := bodyA; response_config := ca |}))
    /\ phase_of b w'
       = Some (Done (Resolved {| data := bodyB; response_config := cb' |}))
    /\ transportCalls a w' + invoked pa = transportCalls a w + 1
    /\ transportCalls b w' = transportCalls b w + 1.
Proof.
  intros Hflag Hin.
  assert (Htoken : cancelToken ca = None)
    by apply (proj2 (wf_configs w w_wf a _ first) Hflag).
  destruct (interceptorsRequest_live cb w w_wf (wf_configs w w_wf b _ second))
    as (cb' & w0 & Hint & _ & Hlive & _ & Ht & _ & Hcalls & _).
  assert (Hstep1 : step (RunRequestInterceptor b) w
                   = Some (with_task b
                             {| task_config := cb'; phase := Intercepted |} w0))
    by (unfold step; now rewrite second, Hint).
  pose proof (wf_step _ _ _ w_wf Hstep1) as Hwf1.
  set (w1 := with_task b {| task_config := cb'; phase := Intercepted |} w0) in *.
  set (P := fun xs ys x =>
              wf x
              /\ proceeding a ca bodyA (transportCalls a w) pa xs x
              /\ proceeding b cb' bodyB (transportCalls b w) Intercepted ys x).
  assert (Hfirst : forall e xs ys x, P (e :: xs) ys x ->
                     exists x', step e x = Some x' /\ P xs ys x').
  { intros e xs ys x (Hwf & Ha & Hb).
    destruct (proceeding_step _ _ _ _ _ _ _ _ Hwf Ha)
      as (x' & Hstep & Ha' & Htasks & Hc & _ & Hr).
    exists x'. split; [exact Hstep |].
    split; [exact (wf_step _ _ _ Hwf Hstep) |]. split; [exact Ha' |].
    apply (proceeding_frame _ _ _ _ _ _ x); auto. }
  assert (Hsecond : forall e xs ys x, P xs (e :: ys) x ->
                      exists x', step e x = Some x' /\ P xs ys x').
  { intros e xs ys x (Hwf & Ha & Hb).
    destruct (proceeding_step _ _ _ _ _ _ _ _ Hwf Hb)
      as (x' & Hstep & Hb' & Htasks & Hc & _).
    exists x'. split; [exact Hstep |].
    split; [exact (wf_step _ _ _ Hwf Hstep) |]. split; [| exact Hb'].
    apply (proceeding_frame _ _ _ _ _ _ x); auto. }
  assert (Hstart : P (remaining_events a pa (inl bodyA))
                     [DispatchRequest b; AdapterSettles b (inl bodyB)] w1).
  { split; [exact Hwf1 |]. split.
    - exists pa. subst w1. simpl tasks. rewrite Ht, lookup_insert_ne by auto.
      split; [exact first |]. split; [reflexivity |].
      split; [unfold transportCalls; simpl; now rewrite Hcalls |].
      unfold Axios.cancellationRequested. rewrite Htoken.
      now destruct pending as [-> | ->].
    - exists Intercepted. subst w1. simpl tasks. rewrite lookup_insert_eq.
      repeat split; auto. unfold transportCalls. simpl. rewrite Hcalls. lia. }
  destruct (interleavings_run P Hfirst Hsecond _ _ _ _ Hin Hstart)
    as (w' & Hrun & _ & Ha & Hb).
  exists w', cb'. split; [cbn [run]; now rewrite Hstep1 |].
  destruct (proceeding_done _ _ _ _ _ _ Ha) as [-> Hca].
  destruct (proceeding_done _ _ _ _ _ _ Hb) as [-> Hcb].
  repeat split; auto. simpl in Hcb. lia.
Qed.

End TwoRequests.

(** C2 (amended).  Two requests with the same derived key, the first still
    pending when the request interceptor of the second runs.  If the second
    sets [cancelDuplicated = true] and the first holds the registry entry of
    the key (which takes [cancelDuplicated = true] on the first as well), the
    first is rejected with kind [Cancel] and the second goes through the
    adapter and resolves; a first request that set [cancelDuplicated = false]
    is not registered and is not cancelled, whatever the second sets.  If the
    second sets [cancelDuplicated = false], its request interceptor neither
    supersedes nor registers, both requests resolve independently, and the
    adapter is invoked once for each.  This holds for every order in which the
    remaining events of the two requests happen. *)
Theorem C2_dedup_needs_both_flags
    (w : World) (a b : TaskId) (ca cb : Config) (pa : Phase) (key : string) :
  reachable w -> a <> b ->
  tasks w !! a = Some {| task_config := ca; phase := pa |} ->
  pa = Intercepted \/ pa = InFlight ->
  Axios.cancellationRequested ca w = None ->
  tasks w !! b = Some {| task_config := cb; phase := Created |} ->
  MAxios.getDuplicatedKey ca = Some key ->
  MAxios.getDuplicatedKey cb = Some key ->
  (cancelDuplicated cb = true ->
   forall t,
     cancelToken ca = Some t -> JsMap.get key (requestMap w) = Some t ->
     cancelDuplicated ca = true
     /\ forall (ra : string + string) (body : string) (schedule : list Event),
         In schedule
           (interleavings [completion a pa ra]
              [DispatchRequest b; AdapterSettles b (inl body)]) ->
         exists w' cb',
           run (RunRequestInterceptor b :: schedule) w = Some w'
           /\ phase_of a w'
              = Some (Done (Rejected (RejectMessage MAxios.canceled)))
           /\ kind (RejectMessage MAxios.canceled) = Some ERROR_TYPE.Cancel
           /\ phase_of b w'
              = Some (Done (Resolved {| data := body;
                                        response_config := cb' |}))
           /\ transportCalls a w' = transportCalls a w
           /\ transportCalls b w' = transportCalls b w + 1)
  /\ (cancelDuplicated cb = false ->
      step (RunRequestInterceptor b) w
      = Some (with_task b {| task_config := cb; phase := Intercepted |} w)
      /\ forall (bodyA bodyB : string) (schedule : list Event),
          In schedule
            (interleavings (remaining_events a pa (inl bodyA))
               (remaining_events b Created (inl bodyB))) ->
          exists w',
            run schedule w = Some w'
            /\ phase_of a w'
               = Some (Done (Resolved {| data := bodyA;
                                         response_config := ca |}))
            /\ phase_of b w'
               = Some (Done (Resolved {| data := bodyB;
                                         response_config := cb |}))
            /\ transportCalls a w' + invoked pa = transportCalls a w + 1
            /\ transportCalls b w' = transportCalls b w + 1)
  /\ (cancelDuplicated ca = false ->
      forall (bodyA bodyB : string) (schedule : list Event),
        In schedule
          (interleavings (remaining_events a pa (inl bodyA))
             [DispatchRequest b; AdapterSettles b (inl bodyB)]) ->
        exists w' cb',
          run (RunRequestInterceptor b :: schedule) w = Some w'
          /\ phase_of a w'
             = Some (Done (Resolved {| data := bodyA;
                                       response_config := ca |}))
          /\ phase_of b w'
             = Some (Done (Resolved {| data := bodyB;
                                       response_config := cb' |}))).
Proof.
  intros Hreach Hab Ha Hpa Hlive Hb Hka Hkb.
  pose proof (reachable_wf w Hreach) as Hwf.
  split; [| split].
  - intros Hflag t Htoken Hget. split.
    + destruct (cancelDuplicated ca) eqn:E; [reflexivity |].
      pose proof (proj2 (wf_configs w Hwf a _ Ha) E) as Hnone.
      simpl in Hnone. congruence.
    + intros ra body schedule Hin.
      destruct (superseded_side_by_side w a b ca cb pa Hwf Hab Ha Hpa Hb
                  key t ra body schedule Hflag Hkb Htoken Hget Hin)
        as (w' & cb' & Hrun & Hpa' & Hpb' & Hcalls).
      exists w', cb'. repeat split; auto; apply Hcalls.
  - intros Hflag. split.
    + unfold step. now rewrite Hb, interceptorsRequest_untracked.
    + intros bodyA bodyB schedule Hin.
      apply (untracked_side_by_side w a b ca cb pa Hwf Hab Ha Hpa Hb
               bodyA bodyB schedule Hlive Hflag Hin).
  - intros Hflag bodyA bodyB schedule Hin.
    destruct (unregistered_side_by_side w a b ca cb pa Hwf Hab Ha Hpa Hb
                bodyA bodyB schedule Hflag Hin)
      as (w' & cb' & Hrun & Hpa' & Hpb' & _).
    exists w', cb'. auto.
Qed.

Lemma C2_dedup_needs_both_flags_witness :
  tasks (Sample.secondArrives true true) !! 0
  = Some {| task_config :=
              with_cancelToken (Some 0)
                (assign defaultConfig (Sample.options "/a" true false 0));
            phase := InFlight |}
  /\ tasks (Sample.secondArrives true true) !! 1
     = Some {| task_config := assign defaultConfig (Sample.options "/a" true false 0);
               phase := Created |}
  /\ JsMap.get "get/a" (requestMap (Sample.secondArrives true true)) = Some 0
  /\ (exists w' cb',
         run [RunRequestInterceptor 1; DispatchRequest 1;
              AdapterSettles 0 (inl "A"); AdapterSettles 1 (inl "B")]
           (Sample.secondArrives true true) = Some w'
         /\ phase_of 0 w'
            = Some (Done (Rejected (RejectMessage MAxios.canceled)))
         /\ phase_of 1 w'
            = Some (Done (Resolved {| data := "B"; response_config := cb' |})))
  /\ (exists w',
         run [RunRequestInterceptor 1; DispatchRequest 1;
              AdapterSettles 0 (inl "A"); AdapterSettles 1 (inl "B")]
           (Sample.secondArrives true false) = Some w'
         /\ phase_of 0 w'
            = Some (Done (Resolved
                            {| data := "A";
                               response_config :=
                                 with_cancelToken (Some 0)
                                   (assign defaultConfig
                                      (Sample.options "/a" true false 0)) |}))
         /\ phase_of 1 w'
            = Some (Done (Resolved
                            {| data := "B";
                               response_config :=
                                 assign defaultConfig
                                   (Sample.options "/a" false false 0) |}))
         /\ transportCalls 0 w' = 1 /\ transportCalls 1 w' = 1).
Proof.
  assert (Ha : forall second,
             tasks (Sample.secondArrives true second) !! 0
             = Some {| task_config :=
                         with_cancelToken (Some 0)
                           (assign defaultConfig
                              (Sample.options "/a" true false 0));
                       phase := InFlight |})
    by (intros []; vm_compute; reflexivity).
  assert (Hb : forall second,
             tasks (Sample.secondArrives true second) !! 1
             = Some {| task_config :=
                         assign defaultConfig
                           (Sample.options "/a" second false 0);
                       phase := Created |})
    by (intros []; vm_compute; reflexivity).
  assert (Hget : JsMap.get "get/a"
                   (requestMap (Sample.secondArrives true true)) = Some 0)
    by (vm_compute; reflexivity).
  assert (Hlive : forall second,
             Axios.cancellationRequested
               (with_cancelToken (Some 0)
                  (assign defaultConfig (Sample.options "/a" true false 0)))
               (Sample.secondArrives true second) = None)
    by (intros []; vm_compute; reflexivity).
  split; [exact (Ha true) |]. split; [exact (Hb true) |].
  split; [exact Hget |]. split.
  - destruct (C2_dedup_needs_both_flags (Sample.secondArrives true true) 0 1
                _ _ InFlight "get/a" (sample_world_reachable _)
                (ltac:(discriminate)) (Ha true) (or_intror eq_refl)
                (Hlive true) (Hb true) eq_refl eq_refl) as (Hdedup & _ & _).
    destruct (Hdedup eq_refl 0 eq_refl Hget) as [_ Hrun].
    destruct (Hrun (inl "A") "B"
                [DispatchRequest 1; AdapterSettles 0 (inl "A");
                 AdapterSettles 1 (inl "B")])
      as (w' & cb' & Hw' & Hfirst & _ & Hsecond & _).
    + simpl. auto.
    + exists w', cb'. auto.
  - destruct (C2_dedup_needs_both_flags (Sample.secondArrives true false) 0 1
                _ _ InFlight "get/a" (sample_world_reachable _)
                (ltac:(discriminate)) (Ha false) (or_intror eq_refl)
                (Hlive false) (Hb false) eq_refl eq_refl) as (_ & Hplain & _).
    destruct (Hplain eq_refl) as [_ Hrun].
    destruct (Hrun "A" "B"
                [RunRequestInterceptor 1; DispatchRequest 1;
                 AdapterSettles 0 (inl "A"); AdapterSettles 1 (inl "B")])
      as (w' & Hw' & Hfirst & Hsecond & Hcalls0 & Hcalls1).
    + simpl. auto.
    + assert (H0 : transportCalls 0 (Sample.secondArrives true false) = 1)
        by (vm_compute; reflexivity).
      assert (H1 : transportCalls 1 (Sample.secondArrives true false) = 0)
        by (vm_compute; reflexivity).
      exists w'. simpl in Hcalls0. repeat split; auto; lia.
Defined.

(** The first request does not set [cancelDuplicated], the second does, and
    both have the key ["get/a"].  Whether the first is in flight when the
    second is made or the two are made back to back, the first is not
    cancelled: it resolves with its own response. *)
Lemma C2_counterexample_unregistered_first_survives :
  MAxios.getDuplicatedKey (assign defaultConfig (Sample.options "/a" false false 0))
  = MAxios.getDuplicatedKey (assign defaultConfig (Sample.options "/a" true false 0))
  /\ cancelDuplicated (assign defaultConfig (Sample.options "/a" true false 0)) = true
  /\ phase_of 0 (Sample.secondArrives false true) = Some InFlight
  /\ (exists w',
         run [RunRequestInterceptor 1; DispatchRequest 1;
              AdapterSettles 0 (inl "A"); AdapterSettles 1 (inl "B")]
           (Sample.secondArrives false true) = Some w'
         /\ phase_of 0 w'
            = Some (Done (Resolved
                            {| data := "A";
                               response_config :=
                                 assign defaultConfig
                                   (Sample.options "/a" false false 0) |}))
         /\ phase_of 0 w'
            <> Some (Done (Rejected (RejectMessage MAxios.canceled))))
  /\ (exists w',
         run [Call (Sample.options "/a" false false 0);
              Call (Sample.options "/a" true false 0);
              RunRequestInterceptor 0; RunRequestInterceptor 1;
              DispatchRequest 0; DispatchRequest 1;
              AdapterSettles 0 (inl "A"); AdapterSettles 1 (inl "B")] init
         = Some w'
         /\ phase_of 0 w'
            = Some (Done (Resolved
                            {| data := "A";
                               response_config :=
                                 assign defaultConfig
                                   (Sample.options "/a" false false 0) |}))).
Proof.
  split; [reflexivity |]. split; [reflexivity |].
  split; [vm_compute; reflexivity |]. split.
  - eexists. split; [vm_compute; reflexivity |].
    split; [vm_compute; reflexivity | vm_compute; discriminate].
  - eexists. split; [vm_compute; reflexivity |]. vm_compute; reflexivity.
Qed.

(** * More properties of the code *)

(** ** More facts about [Map] *)

Module JsMapLaws.
Section Laws.
Context {V : Type}.
Implicit Types (m : JsMap.t V) (key k : string) (v : V).

Lemma has_set_other key v m k :
  key <> k -> JsMap.has k (JsMap.set key v m) = JsMap.has k m.
Proof.
  intros Hne. induction m as [| [k' v'] m IH]; simpl.
  - destruct (String.eqb_spec key k); [contradiction | reflexivity].
  - destruct (String.eqb_spec k' key) as [-> |]; simpl.
    + destruct (String.eqb_spec key k); [contradiction | reflexivity].
    + now rewrite IH.
Qed.

Lemma get_set_other key v m k :
  key <> k -> JsMap.get k (JsMap.set key v m) = JsMap.get k m.
Proof.
  intros Hne. induction m as [| [k' v'] m IH]; simpl.
  - destruct (String.eqb_spec key k); [contradiction | reflexivity].
  - destruct (String.eqb_spec k' key) as [-> |]; simpl.
    + destruct (String.eqb_spec key k); [contradiction | reflexivity].
    + now rewrite IH.
Qed.

Lemma has_set key v m : JsMap.has key (JsMap.set key v m) = true.
Proof. eapply JsMapFacts.get_has, JsMapFacts.get_set. Qed.

Lemma has_set_mono key v m k :
  JsMap.has k m = true -> JsMap.has k (JsMap.set key v m) = true.
Proof.
  intros H. destruct (String.eqb_spec key k) as [-> |];
    [apply has_set | now rewrite has_set_other].
Qed.

Lemma get_delete_other key m k :
  key <> k -> JsMap.get k (JsMap.delete key m) = JsMap.get k m.
Proof.
  intros Hne. induction m as [| [k' v'] m IH]; simpl; [reflexivity |].
  destruct (String.eqb_spec k' key) as [-> |]; simpl.
  - destruct (String.eqb_spec key k); [contradiction | exact IH].
  - now rewrite IH.
Qed.

Lemma In_delete_other key m k v :
  k <> key -> In (k, v) m -> In (k, v) (JsMap.delete key m).
Proof.
  intros Hne. induction m as [| [k' v'] m IH]; simpl; [tauto |].
  destruct (String.eqb_spec k' key) as [-> |]; simpl.
  - intros [[= -> ->] | H]; [contradiction | auto].
  - intros [H | H]; auto.
Qed.

Lemma In_set_new key v m : In (key, v) (JsMap.set key v m).
Proof. apply JsMapFacts.get_In, JsMapFacts.get_set. Qed.

Lemma In_set_old key v' m k v :
  JsMap.has key m = false -> In (k, v) m -> In (k, v) (JsMap.set key v' m).
Proof.
  induction m as [| [k0 v0] m IH]; simpl; [tauto |].
  destruct (k0 =? key); [discriminate |].
  intros Hhas [H | H]; [now left | right; auto].
Qed.

Lemma In_count key m v : In (key, v) m -> 1 <= JsMap.count key m.
Proof.
  induction m as [| [k' v'] m IH]; simpl; [tauto |].
  intros [[= -> ->] | H]; [rewrite String.eqb_refl; lia |].
  specialize (IH H). lia.
Qed.

(** In a map that has the key once, the entry of the key is the one [get]
    finds. *)
Lemma In_get key m v :
  JsMap.count key m <= 1 -> In (key, v) m -> JsMap.get key m = Some v.
Proof.
  induction m as [| [k' v'] m IH]; simpl; [tauto |].
  destruct (String.eqb_spec k' key) as [-> |].
  - intros Hcount [[= ->] | H]; [reflexivity |].
    apply In_count in H. lia.
  - intros Hcount [H | H]; [inversion H; subst; contradiction | auto].
Qed.

End Laws.
End JsMapLaws.

(** ** The cache over an execution *)

Section CacheLaws.

Lemma getResponseCache_lookup (config : Config) (w : World) key :
  MAxios.getDuplicatedKey config = Some key ->
  MAxios.getResponseCache config w = Some (JsMap.get key (responseCacheMap w)).
Proof.
  intros Hkey. unfold MAxios.getResponseCache. rewrite Hkey.
  destruct (JsMap.has key (responseCacheMap w)) eqn:Hhas; [reflexivity |].
  destruct (JsMap.get key (responseCacheMap w)) eqn:Hget; [| reflexivity].
  apply JsMapFacts.get_has in Hget. congruence.
Qed.

(** A step never takes an entry out of the cache. *)
Lemma step_cache_has (e : Event) (w w' : World) key :
  step e w = Some w' ->
  JsMap.has key (responseCacheMap w) = true ->
  JsMap.has key (responseCacheMap w') = true.
Proof.
  intros Hstep Hhas.
  destruct (step_cache e w w' Hstep)
    as [-> | (id & body & config & k & _ & _ & _ & _ & ->)];
    [exact Hhas | now apply JsMapLaws.has_set_mono].
Qed.

End CacheLaws.

(** X1.  What [setResponseCache] stores for a config with [cache] is what
    [getResponseCache] returns for it afterwards, whatever the cache held
    under the key before (the last write wins); lookups under every other key
    are as before. *)
Theorem X1_cache_store_then_lookup
    (config : Config) (response : Response) (this this' : World) :
  cache config = true ->
  MAxios.setResponseCache config response this = Some this' ->
  MAxios.getResponseCache config this' = Some (Some response)
  /\ (forall config' : Config,
         MAxios.getDuplicatedKey config' <> MAxios.getDuplicatedKey config ->
         MAxios.getResponseCache config' this'
         = MAxios.getResponseCache config' this).
Proof.
  intros Hcache. unfold MAxios.setResponseCache. rewrite Hcache. simpl.
  destruct (MAxios.getDuplicatedKey config) as [key |] eqn:Hkey; [| discriminate].
  intros [= <-]. split.
  - rewrite (getResponseCache_lookup config _ key Hkey). simpl.
    now rewrite JsMapFacts.get_set.
  - intros config' Hne.
    destruct (MAxios.getDuplicatedKey config') as [key' |] eqn:Hkey'.
    + rewrite !(getResponseCache_lookup config' _ key' Hkey'). simpl.
      rewrite JsMapLaws.get_set_other; [reflexivity | congruence].
    + unfold MAxios.getResponseCache. now rewrite Hkey'.
Qed.

Lemma X1_cache_store_then_lookup_witness :
  cache (assign defaultConfig (Sample.options "/a" false true 0)) = true
  /\ MAxios.getResponseCache
       (assign defaultConfig (Sample.options "/a" false true 0))
       (with_responseCacheMap
          (JsMap.set "get/a" Sample.responseA (responseCacheMap Sample.cached))
          Sample.cached)
     = Some (Some Sample.responseA).
Proof.
  split; [reflexivity |].
  refine (proj1 (X1_cache_store_then_lookup
                   (assign defaultConfig (Sample.options "/a" false true 0))
                   Sample.responseA Sample.cached _ eq_refl _)).
  reflexivity.
Defined.

(** X2.  The cache only grows: over any execution an entry that is in the
    cache stays in it (nothing evicts or deletes).  The response under a key
    changes only in the step in which a request with [cache = true] and that
    key succeeds, and it becomes the response of that request. *)
Theorem X2_cache_never_forgets :
  (forall (events : list Event) (w w' : World) (key : string),
      run events w = Some w' ->
      JsMap.has key (responseCacheMap w) = true ->
      JsMap.has key (responseCacheMap w') = true)
  /\ (forall (e : Event) (w w' : World) (key : string),
         step e w = Some w' ->
         JsMap.get key (responseCacheMap w') <> JsMap.get key (responseCacheMap w) ->
         exists id body config,
           e = AdapterSettles id (inl body)
           /\ tasks w !! id = Some {| task_config := config; phase := InFlight |}
           /\ cache config = true
           /\ MAxios.getDuplicatedKey config = Some key
           /\ JsMap.get key (responseCacheMap w')
              = Some {| data := body; response_config := config |}).
Proof.
  split.
  - induction events as [| e events IH]; simpl; intros w w' key Hrun Hhas.
    + now inversion Hrun; subst.
    + destruct (step e w) as [w1 |] eqn:Hstep; [| discriminate].
      apply (IH w1 w' key Hrun). eapply step_cache_has; eauto.
  - intros e w w' key Hstep Hchanged.
    destruct (step_cache e w w' Hstep)
      as [H | (id & body & config & k & -> & Htask & Hcache & Hk & H)];
      rewrite H in Hchanged; [contradiction |].
    destruct (String.eqb_spec k key) as [-> | Hne].
    + exists id, body, config. rewrite H, JsMapFacts.get_set. auto.
    + now rewrite JsMapLaws.get_set_other in Hchanged.
Qed.

Lemma X2_cache_never_forgets_witness :
  JsMap.has "get/a" (responseCacheMap Sample.cached) = true
  /\ JsMap.has "get/a"
       (responseCacheMap
          (Sample.world
             [Call (Sample.options "/a" false true 0); RunRequestInterceptor 0;
              DispatchRequest 0; AdapterSettles 0 (inl "A");
              Call (Sample.options "/b" false true 0); RunRequestInterceptor 1;
              DispatchRequest 1; AdapterSettles 1 (inl "B")]))
     = true.
Proof.
  assert (H : JsMap.has "get/a" (responseCacheMap Sample.cached) = true)
    by (vm_compute; reflexivity).
  split; [exact H |].
  refine (proj1 X2_cache_never_forgets
            [Call (Sample.options "/b" false true 0); RunRequestInterceptor 1;
             DispatchRequest 1; AdapterSettles 1 (inl "B")]
            Sample.cached _ "get/a" _ H).
  vm_compute; reflexivity.
Defined.

Section Facade.

(** A request with [cache] whose key has a stored response gets it, and the
    world stays as it is. *)
Lemma request_hit (options : Options) (w : World) key (stored : Response) :
  cache (assign defaultConfig options) = true ->
  MAxios.getDuplicatedKey (assign defaultConfig options) = Some key ->
  JsMap.get key (responseCacheMap w) = Some stored ->
  MAxios.request options w = (MAxios.FromCache stored, w).
Proof.
  intros Hcache Hkey Hstored. unfold MAxios.request.
  now rewrite Hcache, (getResponseCache_lookup _ w key Hkey), Hstored.
Qed.

(** The successful reply to a request with [cache]: the response is resolved
    with and stored under the key. *)
Lemma step_success_cached (id : TaskId) (config : Config) (body : string)
    (w : World) key :
  tasks w !! id = Some {| task_config := config; phase := InFlight |} ->
  Axios.cancellationRequested config w = None ->
  cache config = true ->
  MAxios.getDuplicatedKey config = Some key ->
  exists w',
    step (AdapterSettles id (inl body)) w = Some w'
    /\ phase_of id w'
       = Some (Done (Resolved {| data := body; response_config := config |}))
    /\ JsMap.get key (responseCacheMap w')
       = Some {| data := body; response_config := config |}
    /\ adapterCalls w' = adapterCalls w.
Proof.
  intros Htask Hlive Hcache Hkey. unfold step. rewrite Htask, Hlive.
  unfold settle, MAxios.interceptorsResponse, MAxios.setResponseCache.
  cbn [response_config]. rewrite Hcache, Hkey. cbn [negb fst snd continue].
  eexists. split; [reflexivity |]. unfold phase_of. simpl.
  rewrite lookup_insert_eq, JsMapFacts.get_set.
  repeat split. apply (removeReq_fields config w).
Qed.

End Facade.

(** X3.  Once a request with [cache = true] has succeeded, every later
    request with [cache = true] and the same key is answered by [request]
    itself with that very response, without a new instance and without the
    adapter, for as long as no other reply of the transport succeeds. *)
Theorem X3_success_is_served_from_cache
    (w : World) (id : TaskId) (config : Config) (body : string) (key : string) :
  tasks w !! id = Some {| task_config := config; phase := InFlight |} ->
  Axios.cancellationRequested config w = None ->
  cache config = true ->
  MAxios.getDuplicatedKey config = Some key ->
  exists w',
    step (AdapterSettles id (inl body)) w = Some w'
    /\ phase_of id w'
       = Some (Done (Resolved {| data := body; response_config := config |}))
    /\ forall (events : list Event) (w'' : World) (options : Options),
        run events w' = Some w'' ->
        (forall e, In e events -> is_success e = false) ->
        cache (assign defaultConfig options) = true ->
        MAxios.getDuplicatedKey (assign defaultConfig options) = Some key ->
        MAxios.request options w''
        = (MAxios.FromCache {| data := body; response_config := config |}, w'').
Proof.
  intros Htask Hlive Hcache Hkey.
  destruct (step_success_cached id config body w key Htask Hlive Hcache Hkey)
    as (w' & Hstep & Hphase & Hstored & _).
  exists w'. split; [exact Hstep |]. split; [exact Hphase |].
  intros events w'' options Hrun Hquiet Hcache' Hkey'.
  apply (request_hit options w'' key); auto.
  now rewrite (failing_history_keeps_cache events w' w'' Hrun Hquiet).
Qed.

Lemma X3_success_is_served_from_cache_witness :
  tasks Sample.inFlight !! 0
  = Some {| task_config := assign defaultConfig (Sample.options "/a" false true 0);
            phase := InFlight |}
  /\ exists w',
      step (AdapterSettles 0 (inl "A")) Sample.inFlight = Some w'
      /\ MAxios.request (Sample.options "/a" true true 5) w'
         = (MAxios.FromCache Sample.responseA, w').
Proof.
  assert (Htask : tasks Sample.inFlight !! 0
                  = Some {| task_config :=
                              assign defaultConfig
                                (Sample.options "/a" false true 0);
                            phase := InFlight |})
    by (vm_compute; reflexivity).
  split; [exact Htask |].
  destruct (X3_success_is_served_from_cache Sample.inFlight 0 _ "A" "get/a"
              Htask eq_refl eq_refl eq_refl) as (w' & Hstep & _ & Hserved).
  exists w'. split; [exact Hstep |].
  apply (Hserved [] w' (Sample.options "/a" true true 5) eq_refl);
    [intros e [] | reflexivity | reflexivity].
Defined.



(** ** The registry and the tokens *)

Section RegistryLaws.

Lemma requestMap_removeReq (config : Config) (w : World) :
  requestMap (MAxios.removeReq config w) = requestMap w
  \/ exists key,
      MAxios.getDuplicatedKey config = Some key
      /\ requestMap (MAxios.removeReq config w)
         = JsMap.delete key (requestMap w).
Proof.
  destruct (removeReq_cases config w) as [-> | (key & c & Hkey & _ & _ & ->)];
    [now left | right].
  exists key. split; [exact Hkey |].
  now rewrite (proj1 (cancel_fields c MAxios.canceled _)).
Qed.

(** [removeReq] touches the entry of the config's key only. *)
Lemma removeReq_other_key (config : Config) (w : World) k :
  MAxios.getDuplicatedKey config <> Some k ->
  JsMap.get k (requestMap (MAxios.removeReq config w))
  = JsMap.get k (requestMap w).
Proof.
  intros Hne.
  destruct (requestMap_removeReq config w) as [-> | (key & Hkey & ->)];
    [reflexivity |].
  apply JsMapLaws.get_delete_other. congruence.
Qed.

Lemma addReq_other_key (config config' : Config) (w w' : World) k :
  MAxios.addReq config w = Some (config', w') ->
  MAxios.getDuplicatedKey config <> Some k ->
  JsMap.get k (requestMap w') = JsMap.get k (requestMap w).
Proof.
  intros Hadd Hne.
  destruct (addReq_cases config w)
    as [E | [(key & Hkey & _ & _ & E) | (E & _)]];
    rewrite E in Hadd; [| | discriminate];
    apply (inj Some) in Hadd; inversion Hadd; subst; [reflexivity |].
  simpl. apply JsMapLaws.get_set_other. congruence.
Qed.

Lemma interceptorsRequest_other_key (config config' : Config) (w w' : World) k :
  MAxios.interceptorsRequest config w = Some (config', w') ->
  MAxios.getDuplicatedKey config <> Some k ->
  JsMap.get k (requestMap w') = JsMap.get k (requestMap w).
Proof.
  unfold MAxios.interceptorsRequest. intros Hadd Hne.
  rewrite (addReq_other_key _ _ _ _ k Hadd Hne).
  now apply removeReq_other_key.
Qed.

Lemma removeReq_emptyObject (w : World) : MAxios.removeReq emptyObject w = w.
Proof. reflexivity. Qed.

(** What an event does to the registry and the tokens: nothing, or what
    [removeReq] or the request interceptor does for the config of its
    request. *)
Lemma step_registry (e : Event) (w w' : World) :
  step e w = Some w' ->
  exists x,
    requestMap w' = requestMap x /\ reasons w' = reasons x
    /\ nextToken w' = nextToken x
    /\ (x = w
        \/ exists config,
            MAxios.getDuplicatedKey config = event_key e w
            /\ (x = MAxios.removeReq config w
                \/ exists config',
                    MAxios.interceptorsRequest config w = Some (config', x))).
Proof.
  destruct e as [options | id | id | id reply | id]; unfold step, event_key.
  - some_eq. exists w. split; [| split; [| split]]; [| | | now left];
      unfold MAxios.request;
      destruct (cache _); [destruct (MAxios.getResponseCache _ _) as [[?|]|] | | destruct (MAxios.getResponseCache _ _) as [[?|]|] | | destruct (MAxios.getResponseCache _ _) as [[?|]|] | ];
      reflexivity.
  - destruct (tasks w !! id) as [[config []] |]; try discriminate.
    cbn [task_config].
    destruct (MAxios.interceptorsRequest config w) as [[config' x] |] eqn:E;
      some_eq.
    + exists x. repeat split. right. exists config. split; [reflexivity |].
      right. eauto.
    + exists w. unfold settle.
      destruct (continue_fields id config
                  (fst (MAxios.interceptorsResponseError TypeError w))
                  (snd (MAxios.interceptorsResponseError TypeError w)))
        as (-> & _ & -> & -> & _).
      rewrite interceptorsResponseError_world. simpl.
      rewrite removeReq_emptyObject. repeat split. now left.
  - destruct (tasks w !! id) as [[config []] |]; try discriminate.
    cbn [task_config].
    destruct (Axios.cancellationRequested config w) as [m |]; some_eq.
    + exists w. unfold settle.
      destruct (continue_fields id config
                  (fst (MAxios.interceptorsResponseError (Cancel m) w))
                  (snd (MAxios.interceptorsResponseError (Cancel m) w)))
        as (-> & _ & -> & -> & _).
      rewrite interceptorsResponseError_world. simpl.
      rewrite removeReq_emptyObject. repeat split. now left.
    + exists w. repeat split. now left.
  - destruct (tasks w !! id) as [[config []] |]; try discriminate.
    cbn [task_config].
    destruct (Axios.cancellationRequested config w) as [m |];
      [| destruct reply as [body | failure]]; some_eq.
    + exists w. unfold settle.
      destruct (continue_fields id config
                  (fst (MAxios.interceptorsResponseError (Cancel m) w))
                  (snd (MAxios.interceptorsResponseError (Cancel m) w)))
        as (-> & _ & -> & -> & _).
      rewrite interceptorsResponseError_world. simpl.
      rewrite removeReq_emptyObject. repeat split. now left.
    + exists (MAxios.removeReq config w). unfold settle.
      destruct (continue_fields id config
                  (fst (MAxios.interceptorsResponse
                          {| data := body; response_config := config |} w))
                  (snd (MAxios.interceptorsResponse
                          {| data := body; response_config := config |} w)))
        as (-> & _ & -> & -> & _).
      unfold MAxios.interceptorsResponse. cbn [response_config].
      destruct (MAxios.setResponseCache config _ (MAxios.removeReq config w))
        as [x |] eqn:E; cbn [snd].
      * destruct (setResponseCache_fields _ _ _ _ E) as (-> & -> & -> & _).
        repeat split. right. exists config. split; [reflexivity | now left].
      * repeat split. right. exists config. split; [reflexivity | now left].
    + exists (MAxios.removeReq config w). unfold settle.
      destruct (continue_fields id config
                  (fst (MAxios.interceptorsResponseError
                          (TransportError failure config) w))
                  (snd (MAxios.interceptorsResponseError
                          (TransportError failure config) w)))
        as (-> & _ & -> & -> & _).
      rewrite interceptorsResponseError_world. cbn [error_config].
      repeat split. right. exists config. split; [reflexivity | now left].
  - destruct (tasks w !! id) as [[config []] |]; try discriminate.
    some_eq. exists w. repeat split. now left.
Qed.

End RegistryLaws.

Section HandlesExact.

Lemma exact_init : handles_exact init.
Proof.
  split; simpl.
  - intros key t [].
  - intros t Ht. lia.
  - intros key key' t [].
Qed.

Lemma exact_fields (w w' : World) :
  requestMap w' = requestMap w -> reasons w' = reasons w ->
  nextToken w' = nextToken w -> handles_exact w -> handles_exact w'.
Proof.
  intros Hmap Hreasons Hnext [Hlive Hreg Hdist].
  split; rewrite ?Hmap, ?Hreasons, ?Hnext; assumption.
Qed.

Lemma not_In_delete {V : Type} key (m : JsMap.t V) v :
  ~ In (key, v) (JsMap.delete key m).
Proof.
  intros H. apply JsMapLaws.In_count in H.
  rewrite (JsMapFacts.count_not_has key _ (JsMapFacts.has_delete key m)) in H.
  lia.
Qed.

Lemma exact_removeReq (config : Config) (w : World) :
  wf w -> handles_exact w -> handles_exact (MAxios.removeReq config w).
Proof.
  intros Hwf [Hlive Hreg Hdist].
  destruct (removeReq_cases config w)
    as [-> | (key & c & Hkey & _ & Hget & ->)]; [now split |].
  pose proof (JsMapFacts.get_In _ _ _ Hget) as Hin.
  split.
  - intros k t. rewrite (proj1 (cancel_fields _ _ _)). simpl. intros Hk.
    pose proof (JsMapFacts.In_delete _ _ _ _ Hk) as Hk'.
    rewrite cancel_reasons. simpl. rewrite (Hlive k t Hk').
    destruct (decide (c = t)) as [-> |]; [| reflexivity].
    rewrite (Hdist k key t Hk' Hin) in Hk.
    now apply not_In_delete in Hk.
  - intros t. rewrite (proj1 (cancel_fields _ _ _)).
    rewrite (proj1 (proj2 (proj2 (cancel_fields _ _ _)))).
    rewrite cancel_reasons. simpl. intros Ht Hnone.
    destruct (reasons w !! t) eqn:E; [discriminate |].
    destruct (decide (c = t)) as [-> | Hne]; [discriminate |].
    destruct (Hreg t Ht E) as [k Hk]. exists k.
    apply JsMapLaws.In_delete_other; [| exact Hk].
    intros ->. apply Hne.
    pose proof (JsMapLaws.In_get _ _ _ (wf_registry w Hwf key) Hk) as Hget'.
    congruence.
  - intros k k' t. rewrite (proj1 (cancel_fields _ _ _)). simpl. intros H H'.
    apply JsMapFacts.In_delete in H, H'. eauto.
Qed.

Lemma exact_addReq (config config' : Config) (w w' : World) :
  MAxios.addReq config w = Some (config', w') ->
  wf w -> handles_exact w -> handles_exact w'.
Proof.
  intros Hadd Hwf [Hlive Hreg Hdist].
  assert (Hnew : reasons w !! nextToken w = None).
  { destruct (reasons w !! nextToken w) eqn:E; [| reflexivity].
    apply (wf_reasons w Hwf) in E. lia. }
  destruct (addReq_cases config w)
    as [E | [(key & Hkey & _ & Hhas & E) | (E & _)]];
    rewrite E in Hadd; [| | discriminate];
    apply (inj Some) in Hadd; inversion Hadd; subst; [now split |].
  split; simpl.
  - intros k t Hk. apply JsMapFacts.In_set in Hk.
    destruct Hk as [[-> ->] | Hk]; [exact Hnew | eauto].
  - intros t Ht Hnone.
    destruct (decide (t = nextToken w)) as [-> | Hne].
    + exists key. apply JsMapLaws.In_set_new.
    + destruct (Hreg t) as [k Hk]; [lia | exact Hnone |].
      exists k. now apply JsMapLaws.In_set_old.
  - intros k k' t Hk Hk'. apply JsMapFacts.In_set in Hk, Hk'.
    destruct Hk as [[-> ->] | Hk], Hk' as [[-> Ht] | Hk']; subst.
    + reflexivity.
    + apply (wf_registered w Hwf) in Hk'. lia.
    + apply (wf_registered w Hwf) in Hk. lia.
    + eauto.
Qed.

Lemma exact_interceptorsRequest (config config' : Config) (w w' : World) :
  MAxios.interceptorsRequest config w = Some (config', w') ->
  wf w -> handles_exact w -> handles_exact w'.
Proof.
  unfold MAxios.interceptorsRequest. intros Hadd Hwf Hexact.
  apply (exact_addReq _ _ _ _ Hadd);
    [now apply wf_removeReq | now apply exact_removeReq].
Qed.

Lemma exact_step (e : Event) (w w' : World) :
  step e w = Some w' -> wf w -> handles_exact w -> handles_exact w'.
Proof.
  intros Hstep Hwf Hexact.
  destruct (step_registry e w w' Hstep)
    as (x & Hmap & Hreasons & Hnext & Hx).
  apply (exact_fields x w' Hmap Hreasons Hnext).
  destruct Hx as [-> | (config & _ & [-> | (config' & Hreq)])].
  - exact Hexact.
  - now apply exact_removeReq.
  - exact (exact_interceptorsRequest _ _ _ _ Hreq Hwf Hexact).
Qed.

Lemma reachable_exact (w : World) : reachable w -> handles_exact w.
Proof.
  induction 1 as [| e w w' Hreach IH Hstep]; [exact exact_init |].
  exact (exact_step e w w' Hstep (reachable_wf w Hreach) IH).
Qed.

End HandlesExact.

Section Settling.

(** The adapter of a request that is not cancelled settles: the response
    interceptor runs [removeReq] for the request, whatever the reply. *)
Lemma step_settles (id : TaskId) (config : Config) (reply : string + string)
    (w : World) :
  tasks w !! id = Some {| task_config := config; phase := InFlight |} ->
  Axios.cancellationRequested config w = None ->
  exists w',
    step (AdapterSettles id reply) w = Some w'
    /\ requestMap w' = requestMap (MAxios.removeReq config w)
    /\ reasons w' = reasons (MAxios.removeReq config w).
Proof.
  intros Htask Hlive. unfold step. rewrite Htask, Hlive.
  destruct reply as [body | failure]; eexists; (split; [reflexivity |]);
    unfold settle.
  - destruct (continue_fields id config
                (fst (MAxios.interceptorsResponse
                        {| data := body; response_config := config |} w))
                (snd (MAxios.interceptorsResponse
                        {| data := body; response_config := config |} w)))
      as (-> & _ & -> & _).
    unfold MAxios.interceptorsResponse. cbn [response_config].
    destruct (MAxios.setResponseCache config _ (MAxios.removeReq config w))
      as [x |] eqn:E; cbn [snd]; [| split; reflexivity].
    now destruct (setResponseCache_fields _ _ _ _ E) as (-> & -> & _).
  - destruct (continue_fields id config
                (fst (MAxios.interceptorsResponseError
                        (TransportError failure config) w))
                (snd (MAxios.interceptorsResponseError
                        (TransportError failure config) w)))
      as (-> & _ & -> & _).
    rewrite interceptorsResponseError_world. split; reflexivity.
Qed.

End Settling.

(** X5.  When the adapter of a request with [cancelDuplicated = true]
    settles, with a response or with a failure, the response interceptor
    leaves the registry without an entry for the key of the request, and with
    the entry of every other key as it was. *)
Theorem X5_settling_clears_own_key
    (w : World) (id : TaskId) (config : Config) (reply : string + string)
    (key : string) :
  tasks w !! id = Some {| task_config := config; phase := InFlight |} ->
  Axios.cancellationRequested config w = None ->
  cancelDuplicated config = true ->
  MAxios.getDuplicatedKey config = Some key ->
  exists w',
    step (AdapterSettles id reply) w = Some w'
    /\ JsMap.has key (requestMap w') = false
    /\ forall k, k <> key ->
         JsMap.get k (requestMap w') = JsMap.get k (requestMap w).
Proof.
  intros Htask Hlive Hflag Hkey.
  destruct (step_settles id config reply w Htask Hlive)
    as (w' & Hstep & Hmap & _).
  exists w'. split; [exact Hstep |]. rewrite Hmap. split.
  - now apply removeReq_has.
  - intros k Hk. apply removeReq_other_key. congruence.
Qed.

Lemma X5_settling_clears_own_key_witness :
  JsMap.has "get/a" (requestMap Sample.registered) = true
  /\ exists w',
      step (AdapterSettles 0 (inr "timeout")) Sample.registered = Some w'
      /\ JsMap.has "get/a" (requestMap w') = false.
Proof.
  split; [vm_compute; reflexivity |].
  assert (Htask : tasks Sample.registered !! 0
                  = Some {| task_config :=
                              with_cancelToken (Some 0)
                                (assign defaultConfig
                                   (Sample.options "/a" true false 0));
                            phase := InFlight |})
    by (vm_compute; reflexivity).
  destruct (X5_settling_clears_own_key Sample.registered 0 _ (inr "timeout")
              "get/a" Htask eq_refl eq_refl eq_refl)
    as (w' & Hstep & Hgone & _).
  exists w'. split; [exact Hstep | exact Hgone].
Defined.

(** X6.  The response interceptor calls the cancel function of the very
    request it completes: when the adapter of a registered request settles,
    the token the request carries is cancelled with the message of the
    registry, and a response still resolves the request. *)
Theorem X6_completion_cancels_own_token
    (w : World) (id : TaskId) (config : Config) (reply : string + string)
    (key : string) (t : TokenId) :
  reachable w ->
  tasks w !! id = Some {| task_config := config; phase := InFlight |} ->
  cancelDuplicated config = true ->
  MAxios.getDuplicatedKey config = Some key ->
  cancelToken config = Some t ->
  JsMap.get key (requestMap w) = Some t ->
  Axios.cancellationRequested config w = None
  /\ exists w',
      step (AdapterSettles id reply) w = Some w'
      /\ Axios.cancellationRequested config w' = Some MAxios.canceled
      /\ forall body,
          reply = inl body ->
          phase_of id w'
          = Some (Done (Resolved {| data := body; response_config := config |})).
Proof.
  intros Hreach Htask Hflag Hkey Htoken Hget.
  pose proof (reachable_wf w Hreach) as Hwf.
  assert (Hlive : Axios.cancellationRequested config w = None).
  { unfold Axios.cancellationRequested. rewrite Htoken.
    apply (exact_live w (reachable_exact w Hreach) key).
    now apply JsMapFacts.get_In. }
  split; [exact Hlive |].
  destruct (step_settles id config reply w Htask Hlive)
    as (w' & Hstep & _ & Hreasons).
  exists w'. split; [exact Hstep |]. split.
  - unfold Axios.cancellationRequested. rewrite Htoken, Hreasons.
    now apply (removeReq_supersedes config w key).
  - intros body ->.
    destruct (step_success id config body w Htask Hlive) as (x & E & _);
      [congruence |].
    rewrite E in Hstep. apply (inj Some) in Hstep. subst w'.
    unfold phase_of. simpl. now rewrite lookup_insert_eq.
Qed.

Lemma X6_completion_cancels_own_token_witness :
  reachable Sample.registered
  /\ exists w',
      step (AdapterSettles 0 (inl "A")) Sample.registered = Some w'
      /\ reasons w' !! 0 = Some MAxios.canceled.
Proof.
  split; [apply sample_world_reachable |].
  assert (Htask : tasks Sample.registered !! 0
                  = Some {| task_config :=
                              with_cancelToken (Some 0)
                                (assign defaultConfig
                                   (Sample.options "/a" true false 0));
                            phase := InFlight |})
    by (vm_compute; reflexivity).
  destruct (X6_completion_cancels_own_token Sample.registered 0 _ (inl "A")
              "get/a" 0 (sample_world_reachable _) Htask
              eq_refl eq_refl eq_refl eq_refl)
    as (_ & w' & Hstep & Hcancelled & _).
  exists w'. split; [exact Hstep | exact Hcancelled].
Defined.

(** X7.  In every execution the registry holds exactly the tokens that were
    issued and whose cancel function has not been called: a registered token
    is live, a live token is registered, and no token is registered under two
    keys. *)
Theorem X7_registry_holds_exactly_the_live_tokens (w : World) :
  reachable w ->
  (forall key t,
      JsMap.get key (requestMap w) = Some t ->
      t < nextToken w /\ reasons w !! t = None)
  /\ (forall t,
         t < nextToken w -> reasons w !! t = None ->
         exists key, JsMap.get key (requestMap w) = Some t)
  /\ (forall key key' t,
         JsMap.get key (requestMap w) = Some t ->
         JsMap.get key' (requestMap w) = Some t -> key = key').
Proof.
  intros Hreach.
  pose proof (reachable_wf w Hreach) as Hwf.
  destruct (reachable_exact w Hreach) as [Hlive Hreg Hdist].
  split; [| split].
  - intros key t Hget. apply JsMapFacts.get_In in Hget.
    split; [exact (wf_registered w Hwf key t Hget) | exact (Hlive key t Hget)].
  - intros t Ht Hnone. destruct (Hreg t Ht Hnone) as [key Hin].
    exists key. exact (JsMapLaws.In_get _ _ _ (wf_registry w Hwf key) Hin).
  - intros key key' t H H'. apply JsMapFacts.get_In in H, H'. eauto.
Qed.

Lemma X7_registry_holds_exactly_the_live_tokens_witness :
  reachable Sample.superseded
  /\ nextToken Sample.superseded = 2
  /\ reasons Sample.superseded !! 0 = Some MAxios.canceled
  /\ exists key, JsMap.get key (requestMap Sample.superseded) = Some 1.
Proof.
  split; [apply sample_world_reachable |].
  split; [vm_compute; reflexivity |].
  split; [vm_compute; reflexivity |].
  apply (proj1 (proj2 (X7_registry_holds_exactly_the_live_tokens
                         Sample.superseded (sample_world_reachable _))));
    [vm_compute; lia | vm_compute; reflexivity].
Defined.

(** X8.  Requests with different keys do not touch each other's handles: an
    event of a request whose key is not [k] leaves the registry entry of [k]
    as it is, and the token registered under [k] stays live. *)
Theorem X8_other_keys_are_left_alone
    (e : Event) (w w' : World) (k : string) :
  reachable w ->
  step e w = Some w' ->
  event_key e w <> Some k ->
  JsMap.get k (requestMap w') = JsMap.get k (requestMap w)
  /\ forall t, JsMap.get k (requestMap w) = Some t -> reasons w' !! t = None.
Proof.
  intros Hreach Hstep Hother.
  assert (Hsame : JsMap.get k (requestMap w') = JsMap.get k (requestMap w)).
  { destruct (step_registry e w w' Hstep) as (x & -> & _ & _ & Hx).
    destruct Hx as [-> | (config & Hkey & [-> | (config' & Hreq)])].
    - reflexivity.
    - apply removeReq_other_key. congruence.
    - apply (interceptorsRequest_other_key _ _ _ _ k Hreq). congruence. }
  split; [exact Hsame |].
  intros t Hget. rewrite <- Hsame in Hget.
  apply (exact_live w' (reachable_exact w' (reachable_step e w w' Hreach Hstep)) k).
  now apply JsMapFacts.get_In.
Qed.

Lemma X8_other_keys_are_left_alone_witness :
  let w :=
    Sample.world
      [Call (Sample.options "/a" true false 0); RunRequestInterceptor 0;
       DispatchRequest 0; Call (Sample.options "/b" true false 0)] in
  reachable w
  /\ event_key (RunRequestInterceptor 1) w = Some "get/b"
  /\ JsMap.get "get/a" (requestMap w) = Some 0
  /\ exists w',
      step (RunRequestInterceptor 1) w = Some w'
      /\ JsMap.get "get/a" (requestMap w') = Some 0
      /\ reasons w' !! 0 = None.
Proof.
  intros w.
  split; [apply sample_world_reachable |].
  split; [vm_compute; reflexivity |].
  split; [vm_compute; reflexivity |].
  assert (Hother : event_key (RunRequestInterceptor 1) w <> Some "get/a")
    by (vm_compute; discriminate).
  destruct (step (RunRequestInterceptor 1) w) as [w' |] eqn:Hstep;
    [| vm_compute in Hstep; discriminate].
  exists w'. split; [reflexivity |].
  destruct (X8_other_keys_are_left_alone (RunRequestInterceptor 1) w w' "get/a"
              (sample_world_reachable _) Hstep Hother) as [Hsame Hlive].
  split; [rewrite Hsame; vm_compute; reflexivity |].
  apply Hlive. vm_compute; reflexivity.
Defined.

(** ** Retries against a transport that recovers *)

Section Recovery.

Variables (k : Z) (failure body : string).

Lemma failing_fails (config : Config) :
  exists f, failing failure config = inr f.
Proof. now exists failure. Qed.

(** Until the attempt after the [k]-th re-issue is in flight, the instance
    waits for the same event as against a transport that fails. *)
Lemma flaky_next_event (n : Z) (base : nat) (id : TaskId) (w : World) :
  (0 <= k <= n)%Z ->
  attempting n base id w ->
  4 * Z.to_nat (n - k) + 1 < remaining id w ->
  next_event (flaky k failure body) id w = next_event (failing failure) id w.
Proof.
  intros Hk (_ & config & ph & Htask & _ & Hretry & Hcount & _).
  unfold remaining, next_event. rewrite Htask.
  destruct ph; try reflexivity.
  intros Hrem. unfold flaky, failing.
  destruct (Z.ltb_spec (MAxios.retryCountOr0 config) k); [reflexivity | lia].
Qed.

(** The instance gets to that attempt. *)
Lemma flaky_reaches (n : Z) (base : nat) (id : TaskId) (d fuel : nat)
    (w : World) :
  (0 <= k <= n)%Z ->
  attempting n base id w ->
  remaining id w = 4 * Z.to_nat (n - k) + 1 + d ->
  exists w1,
    drive (flaky k failure body) (d + fuel) id w
    = drive (flaky k failure body) fuel id w1
    /\ attempting n base id w1
    /\ remaining id w1 = 4 * Z.to_nat (n - k) + 1.
Proof.
  intros Hk. revert w. induction d as [| d IH]; intros w Hw Hrem.
  - exists w. split; [reflexivity |]. split; [exact Hw | lia].
  - destruct (attempting_step (failing failure) failing_fails n base id w Hw)
      as (e & w' & Hnext & Hstep & Hw' & Hless); [lia |].
    rewrite <- (flaky_next_event n base id w Hk Hw) in Hnext by lia.
    destruct (IH w' Hw') as (w1 & Hdrive & Hw1 & Hrem1); [lia |].
    exists w1. split; [| split; [exact Hw1 | exact Hrem1]].
    change (S d + fuel) with (S (d + fuel)).
    now rewrite (drive_step _ _ _ _ _ _ Hnext Hstep).
Qed.

(** That attempt is in flight with [__retryCount = k]; its response resolves
    the request. *)
Lemma flaky_resolves (n : Z) (base : nat) (id : TaskId) (fuel : nat)
    (w : World) :
  (0 <= k <= n)%Z ->
  attempting n base id w ->
  remaining id w = 4 * Z.to_nat (n - k) + 1 ->
  exists config,
    MAxios.retryCountOr0 config = k
    /\ retry config = n
    /\ tasks (drive (flaky k failure body) (S fuel) id w) !! id
       = Some {| task_config := config;
                 phase := Done (Resolved {| data := body;
                                            response_config := config |}) |}
    /\ transportCalls id (drive (flaky k failure body) (S fuel) id w)
       = base + Z.to_nat k + 1.
Proof.
  intros Hk (Hwf & config & ph & Htask & Hmethod & Hretry & Hcount & Hph).
  unfold remaining. rewrite Htask.
  destruct ph; try lia. intros Hrem. destruct Hph as [Hlive Hcalls].
  assert (Hcount' : MAxios.retryCountOr0 config = k) by lia.
  exists config. split; [exact Hcount' |]. split; [exact Hretry |].
  destruct (getDuplicatedKey_defined config Hmethod) as [key Hkey].
  destruct (step_success id config body w Htask Hlive)
    as (x & Hstep & Htasks & Hadapter & _); [congruence |].
  assert (Hnext : next_event (flaky k failure body) id w
                  = Some (AdapterSettles id (inl body))).
  { unfold next_event, flaky. rewrite Htask, Hcount'.
    now rewrite Z.ltb_irrefl. }
  rewrite (drive_step _ _ _ _ _ _ Hnext Hstep).
  assert (Hdone : tasks (with_task id
                           {| task_config := config;
                              phase := Done (Resolved {| data := body;
                                                         response_config := config |}) |}
                           x) !! id
                  = Some {| task_config := config;
                            phase := Done (Resolved {| data := body;
                                                       response_config := config |}) |})
    by (simpl; now rewrite lookup_insert_eq).
  rewrite (drive_done _ _ _ _ _ _ Hdone). split; [exact Hdone |].
  unfold transportCalls in *. simpl adapterCalls. rewrite Hadapter. lia.
Qed.

End Recovery.

(** X10.  A request with [retry = n] whose first [k] attempts fail,
    [k <= n], and whose next attempt is answered, resolves with that answer:
    the adapter runs exactly [k + 1] times, the response carries the
    descriptor with [__retryCount = k], and the remaining budget is never
    used. *)
Theorem X10_retry_recovers_after_k_failures
    (w : World) (options : Options) (n k : Z) (failure body : string) :
  reachable w ->
  (0 <= k <= n)%Z ->
  retry (assign defaultConfig options) = n ->
  opt_retryCount options = None ->
  cache (assign defaultConfig options) = false
  \/ MAxios.getResponseCache (assign defaultConfig options) w = Some None ->
  let id := nextTask w in
  let issued := snd (MAxios.request options w) in
  forall fuel,
    4 * Z.to_nat k + 3 <= fuel ->
    let final := drive (flaky k failure body) fuel id issued in
    transportCalls id final = Z.to_nat k + 1
    /\ exists config,
        phase_of id final
        = Some (Done (Resolved {| data := body; response_config := config |}))
        /\ MAxios.retryCountOr0 config = k
        /\ retry config = n.
Proof.
  intros Hreach Hk Hretry Hfresh Hmiss id issued fuel Hfuel final.
  pose proof (reachable_wf w Hreach) as Hwf.
  subst final issued. rewrite (request_issues options w Hmiss). cbn [snd].
  fold id.
  assert (Hstart : attempting n 0 id
                     (Axios.request id (assign defaultConfig options)
                        (with_nextTask (S id) w))).
  { rewrite <- Hretry. apply issued_attempting; [exact Hwf | lia | exact Hfresh]. }
  assert (Hrem : remaining id
                   (Axios.request id (assign defaultConfig options)
                      (with_nextTask (S id) w))
                 = 4 * Z.to_nat (n - k) + 1 + (4 * Z.to_nat k + 2)).
  { unfold remaining. simpl tasks. rewrite lookup_insert_eq.
    cbn [task_config phase]. rewrite Hretry.
    replace (MAxios.retryCountOr0 (assign defaultConfig options)) with 0%Z;
      [lia |].
    unfold MAxios.retryCountOr0. simpl. now rewrite Hfresh. }
  replace fuel
    with (4 * Z.to_nat k + 2 + S (fuel - (4 * Z.to_nat k + 3))) by lia.
  destruct (flaky_reaches k failure body n 0 id (4 * Z.to_nat k + 2)
              (S (fuel - (4 * Z.to_nat k + 3))) _ Hk Hstart Hrem)
    as (w1 & -> & Hw1 & Hrem1).
  destruct (flaky_resolves k failure body n 0 id
              (fuel - (4 * Z.to_nat k + 3)) w1 Hk Hw1 Hrem1)
    as (config & Hcount & Hn & Htask & Hcalls).
  split; [exact Hcalls |].
  exists config. unfold phase_of. rewrite Htask. auto.
Qed.

Lemma X10_retry_recovers_after_k_failures_witness :
  reachable Sample.cached
  /\ transportCalls 1
       (drive (flaky 2 "timeout" "B") 11 1
          (snd (MAxios.request (Sample.options "/b" true false 3)
                  Sample.cached)))
     = 3.
Proof.
  split; [apply sample_world_reachable |].
  exact (proj1 (X10_retry_recovers_after_k_failures Sample.cached
                  (Sample.options "/b" true false 3) 3 2 "timeout" "B"
                  (sample_world_reachable _) ltac:(lia) eq_refl eq_refl
                  (or_introl eq_refl) 11 ltac:(vm_compute; lia))).
Defined.

(** ** The outcomes of an execution *)

Section Outcomes.

Lemma tasks_continue (id : TaskId) (config : Config) (p : Promise) (w : World) :
  exists c ph,
    tasks (continue id config p w)
    = <[id := {| task_config := c; phase := ph |}]> (tasks w)
    /\ ~ in_progress ph
    /\ forall outcome,
        ph = Done outcome ->
        c = config
        /\ match p with
           | Resolve response => outcome = Resolved response
           | Reject reason => outcome = Rejected reason
           | RetryTask _ _ => False
           end.
Proof.
  destruct p as [response | reason | delay config']; eexists; eexists;
    (split; [reflexivity |]); (split; [intros [H | H]; discriminate |]);
    intros outcome H; inversion H; auto.
Qed.

(** The re-issue that [retry] schedules. *)
Lemma retry_scheduled (config : Config) (error : AxiosError) delay config' :
  MAxios.retry config error = RetryTask delay config' ->
  scheduled config' delay.
Proof.
  intros H.
  destruct (Z.lt_ge_cases (MAxios.retryCountOr0 config) (retry config))
    as [Hlt | Hge]; [| now rewrite retry_exhausted in H by lia].
  rewrite retry_again in H by exact Hlt. inversion H; subst; clear H.
  unfold scheduled.
  destruct (Z.eqb_spec (MAxios.retryCountOr0 config + 1) (retry config))
    as [Hlast | Hmore].
  - replace (MAxios.retryCountOr0
               (with_timeout 15000
                  (with_retryCount (MAxios.retryCountOr0 config + 1) config)))
      with (MAxios.retryCountOr0 config + 1)%Z
      by (symmetry;
          exact (retryCountOr0_with_retryCount
                   (MAxios.retryCountOr0 config + 1) config)).
    simpl. repeat split; try reflexivity. lia.
  - rewrite retryCountOr0_with_retryCount. simpl.
    repeat split; try reflexivity; lia.
Qed.

(** Only a request that sets [cancelDuplicated] carries a token, and a
    token is cancelled with the message of the registry only. *)
Lemma cancelled_accounted (w : World) (config : Config) (m : CancelMessage) :
  wf w -> config_ok config ->
  Axios.cancellationRequested config w = Some m ->
  m = MAxios.canceled /\ cancelDuplicated config = true.
Proof.
  intros Hwf [_ Htoken]. unfold Axios.cancellationRequested.
  destruct (cancelToken config) as [c |] eqn:Hc; [| discriminate].
  intros Hreason. split; [now apply (wf_reasons w Hwf) in Hreason |].
  destruct (cancelDuplicated config); [reflexivity |].
  now specialize (Htoken eq_refl).
Qed.

(** The task an event writes, when it writes one. *)
Lemma step_task (e : Event) (w w' : World) :
  wf w -> step e w = Some w' ->
  tasks w' = tasks w
  \/ exists id config ph,
      tasks w' = <[id := {| task_config := config; phase := ph |}]> (tasks w)
      /\ written config ph.
Proof.
  intros Hwf.
  destruct e as [options | id | id | id reply | id]; unfold step.
  - some_eq. unfold MAxios.request.
    destruct (cache _); [destruct (MAxios.getResponseCache _ _) as [[? |] |] |];
      try (now left); right; eexists; eexists; exists Created;
      (split; [reflexivity | exact I]).
  - destruct (tasks w !! id) as [[config []] |] eqn:Htask; try discriminate.
    destruct (interceptorsRequest_live config w Hwf
                (wf_configs w Hwf id _ Htask))
      as (c1 & w1 & -> & _ & _ & _ & Ht & _).
    some_eq. right. exists id, c1, Intercepted. simpl. rewrite Ht.
    split; [reflexivity | exact I].
  - destruct (tasks w !! id) as [[config []] |] eqn:Htask; try discriminate.
    destruct (Axios.cancellationRequested config w) as [m |] eqn:Hcancel;
      some_eq; right.
    + exists id, config, (Done (Rejected (RejectMessage m))).
      split; [reflexivity |].
      exact (cancelled_accounted w config m Hwf
               (wf_configs w Hwf id _ Htask) Hcancel).
    + exists id, config, InFlight. split; [reflexivity | exact I].
  - destruct (tasks w !! id) as [[config []] |] eqn:Htask; try discriminate.
    destruct (Axios.cancellationRequested config w) as [m |] eqn:Hcancel;
      [| destruct reply as [body | failure]].
    + some_eq. right.
      exists id, config, (Done (Rejected (RejectMessage m))).
      split; [reflexivity |].
      exact (cancelled_accounted w config m Hwf
               (wf_configs w Hwf id _ Htask) Hcancel).
    + destruct (getDuplicatedKey_defined config
                  (proj1 (wf_configs w Hwf id _ Htask))) as [key Hkey].
      destruct (step_success id config body w Htask Hcancel)
        as (x & Hstep & Htasks & _); [congruence |].
      unfold step in Hstep. rewrite Htask, Hcancel in Hstep. rewrite Hstep.
      some_eq. right. eexists; eexists; eexists. simpl. rewrite Htasks.
      split; reflexivity.
    + some_eq. right. unfold settle.
      rewrite interceptorsResponseError_world,
        interceptorsResponseError_transport.
      cbn [error_config].
      pose proof (proj1 (proj2 (proj2 (removeReq_fields config w)))) as Htasks.
      destruct (Z.gtb_spec (retry config) 0) as [Hpos | Hzero].
      * destruct (MAxios.retry config (TransportError failure config))
          as [response | reason | delay config'] eqn:Hretry.
        -- unfold MAxios.retry in Hretry.
           destruct (_ >=? _)%Z; discriminate.
        -- destruct (Z.lt_ge_cases (MAxios.retryCountOr0 config)
                       (retry config)) as [Hlt | Hge];
             [now rewrite retry_again in Hretry by exact Hlt |].
           rewrite retry_exhausted in Hretry by lia.
           inversion Hretry; subst; clear Hretry.
           eexists; eexists; eexists. simpl. rewrite Htasks.
           split; [reflexivity |]. simpl.
           right. rewrite retryCountOr0_with_retryCount. simpl. lia.
        -- eexists; eexists; eexists. simpl. rewrite Htasks.
           split; [reflexivity |]. simpl.
           exact (retry_scheduled _ _ _ _ Hretry).
      * eexists; eexists; eexists. simpl. rewrite Htasks.
        split; [reflexivity |]. simpl. now left.
  - destruct (tasks w !! id) as [[config []] |] eqn:Htask; try discriminate.
    some_eq. right. exists id, config, Created.
    split; [reflexivity | exact I].
Qed.

Lemma reachable_written (w : World) :
  reachable w ->
  forall id config ph,
    tasks w !! id = Some {| task_config := config; phase := ph |} ->
    written config ph.
Proof.
  induction 1 as [| e w w' Hreach IH Hstep]; intros id config ph.
  - simpl. now rewrite lookup_empty.
  - destruct (step_task e w w' (reachable_wf w Hreach) Hstep)
      as [-> | (id' & c & ph' & -> & Hwritten)]; [apply IH |].
    destruct (decide (id' = id)) as [-> | Hne].
    + rewrite lookup_insert_eq. intros H. inversion H; subst. exact Hwritten.
    + rewrite lookup_insert_ne by exact Hne. apply IH.
Qed.


End Outcomes.



(** ** The tokens of the requests in progress *)

Section Tokens.

Lemma tokens_init : tokens_ok init.
Proof.
  split; simpl.
  - intros id config ph H. now rewrite lookup_empty in H.
  - intros a b ca cb pa pb t _ H. now rewrite lookup_empty in H.
  - intros id config ph t key H. now rewrite lookup_empty in H.
Qed.

(** The invariant reads the registry, the tokens and the requests in
    progress only. *)
Lemma tokens_tasks (x w' : World) :
  requestMap w' = requestMap x -> reasons w' = reasons x ->
  nextToken w' = nextToken x ->
  (forall i config p,
      tasks w' !! i = Some {| task_config := config; phase := p |} ->
      in_progress p ->
      exists p',
        tasks x !! i = Some {| task_config := config; phase := p' |}
        /\ in_progress p') ->
  tokens_ok x -> tokens_ok w'.
Proof.
  intros Hmap Hreasons Hnext Hold [Hissued Hdistinct Hregistered].
  split; rewrite ?Hmap, ?Hreasons, ?Hnext.
  - intros i config p Htask Hp.
    destruct (Hold i config p Htask Hp) as (p' & Htask' & Hp'). eauto.
  - intros a b ca cb pa pb t Hab Ha Hb Hpa Hpb.
    destruct (Hold a ca pa Ha Hpa) as (pa' & Ha' & Hpa').
    destruct (Hold b cb pb Hb Hpb) as (pb' & Hb' & Hpb').
    apply (Hdistinct a b ca cb pa' pb' t Hab); auto.
  - intros i config p t key Htask Hp.
    destruct (Hold i config p Htask Hp) as (p' & Htask' & Hp'). eauto.
Qed.

Lemma tokens_fields (x w' : World) :
  requestMap w' = requestMap x -> reasons w' = reasons x ->
  nextToken w' = nextToken x -> tasks w' = tasks x ->
  tokens_ok x -> tokens_ok w'.
Proof.
  intros Hmap Hreasons Hnext Htasks.
  apply tokens_tasks; auto. rewrite Htasks. eauto.
Qed.

(** A task that is written with a phase outside the progress of a request
    takes nothing from the invariant. *)
Lemma tokens_outside (x w' : World) id c ph :
  requestMap w' = requestMap x -> reasons w' = reasons x ->
  nextToken w' = nextToken x ->
  tasks w' = <[id := {| task_config := c; phase := ph |}]> (tasks x) ->
  ~ in_progress ph ->
  tokens_ok x -> tokens_ok w'.
Proof.
  intros Hmap Hreasons Hnext Htasks Hout.
  apply tokens_tasks; auto. intros i config p. rewrite Htasks.
  destruct (decide (id = i)) as [-> | Hne].
  - rewrite lookup_insert_eq. intros H Hp. inversion H; subst. contradiction.
  - rewrite lookup_insert_ne by exact Hne. eauto.
Qed.

(** A request in progress that goes on with its descriptor as it is. *)
Lemma tokens_same_config (x w' : World) id c ph ph' :
  requestMap w' = requestMap x -> reasons w' = reasons x ->
  nextToken w' = nextToken x ->
  tasks x !! id = Some {| task_config := c; phase := ph |} ->
  in_progress ph ->
  tasks w' = <[id := {| task_config := c; phase := ph' |}]> (tasks x) ->
  tokens_ok x -> tokens_ok w'.
Proof.
  intros Hmap Hreasons Hnext Htask Hph Htasks.
  apply tokens_tasks; auto. intros i config p. rewrite Htasks.
  destruct (decide (id = i)) as [-> | Hne].
  - rewrite lookup_insert_eq. intros H _. inversion H; subst. eauto.
  - rewrite lookup_insert_ne by exact Hne. eauto.
Qed.

(** [removeReq] cancels what it takes out of the registry. *)
Lemma tokens_removeReq (config : Config) (w : World) :
  tokens_ok w -> tokens_ok (MAxios.removeReq config w).
Proof.
  intros [Hissued Hdistinct Hregistered].
  destruct (removeReq_cases config w)
    as [-> | (key & c & Hkey & Hflag & Hget & E)]; [now split |].
  destruct (removeReq_fields config w) as (_ & Hnext & Htasks & _).
  split; rewrite ?Hnext, ?Htasks; [exact Hissued | exact Hdistinct |].
  intros i cfg p t k Htask Hp Hf Hd Ht Hlive Hk.
  rewrite E in Hlive |- *. rewrite cancel_reasons in Hlive. simpl in Hlive.
  rewrite (proj1 (cancel_fields _ _ _)). simpl.
  destruct (reasons w !! t) eqn:Hr; [discriminate |].
  destruct (decide (c = t)) as [-> | Hne]; [discriminate |].
  pose proof (Hregistered i cfg p t k Htask Hp Hf Hd Ht Hr Hk) as Hreg.
  rewrite JsMapLaws.get_delete_other; [exact Hreg |].
  intros ->. congruence.
Qed.

(** A key made of method and url does not read the token. *)
Lemma getDuplicatedKey_with_cancelToken (config : Config) c :
  duplicatedKey config = None ->
  MAxios.getDuplicatedKey (with_cancelToken c config)
  = MAxios.getDuplicatedKey config.
Proof. intros H. unfold MAxios.getDuplicatedKey. simpl. now rewrite H. Qed.

(** The request interceptor of a request that was made: the request is in
    progress with a token of its own when it sets [cancelDuplicated]. *)
Lemma tokens_interceptorsRequest (id : TaskId) (config config' : Config)
    (w w' : World) :
  wf w -> tokens_ok w -> method config <> None ->
  MAxios.interceptorsRequest config w = Some (config', w') ->
  tokens_ok (with_task id {| task_config := config'; phase := Intercepted |} w').
Proof.
  intros Hwf Htokens Hmethod. unfold MAxios.interceptorsRequest.
  pose proof (tokens_removeReq config w Htokens) as Hx.
  pose proof (wf_removeReq config w Hwf) as Hwfx.
  pose proof (removeReq_has config w) as Hgone.
  set (x := MAxios.removeReq config w) in *.
  unfold MAxios.addReq.
  destruct (cancelDuplicated config) eqn:Hflag; simpl negb; cbv iota.
  - destruct (getDuplicatedKey_defined config Hmethod) as [key Hkey].
    rewrite Hkey, (Hgone key eq_refl Hkey). simpl.
    intros Heq. inversion Heq; subst config' w'; clear Heq.
    destruct Hx as [Hissued Hdistinct Hregistered].
    split; simpl.
    + intros i cfg p. destruct (decide (id = i)) as [-> | Hne].
      * rewrite lookup_insert_eq. intros H _ _. inversion H; subst.
        exists (nextToken x). split; [reflexivity | lia].
      * rewrite lookup_insert_ne by exact Hne. intros Htask Hp Hf.
        destruct (Hissued i cfg p Htask Hp Hf) as (t & Ht & Hlt).
        exists t. split; [exact Ht | lia].
    + intros a b ca cb pa pb t Hab.
      destruct (decide (id = a)) as [Hia | Hna];
        destruct (decide (id = b)) as [Hib | Hnb];
        [congruence | subst a | subst b |].
      * rewrite lookup_insert_eq, lookup_insert_ne by exact Hnb.
        intros Ha Hb _ Hpb _ Hfb Hta Htb. inversion Ha; subst.
        destruct (Hissued b cb pb Hb Hpb Hfb) as (t' & Ht' & Hlt).
        simpl in Hta. rewrite Htb in Ht'. inversion Hta. inversion Ht'. lia.
      * rewrite lookup_insert_ne by exact Hna. rewrite lookup_insert_eq.
        intros Ha Hb Hpa _ Hfa _ Hta Htb. inversion Hb; subst.
        destruct (Hissued a ca pa Ha Hpa Hfa) as (t' & Ht' & Hlt).
        simpl in Htb. rewrite Hta in Ht'. inversion Htb. inversion Ht'. lia.
      * rewrite !lookup_insert_ne by assumption.
        apply (Hdistinct a b ca cb pa pb t Hab).
    + intros i cfg p t k. destruct (decide (id = i)) as [-> | Hne].
      * rewrite lookup_insert_eq. intros H _ _ Hd Ht _ Hk.
        inversion H; subst. simpl in Hd, Ht.
        rewrite (getDuplicatedKey_with_cancelToken config _ Hd) in Hk.
        rewrite Hkey in Hk. inversion Hk; subst. inversion Ht; subst.
        apply JsMapFacts.get_set.
      * rewrite lookup_insert_ne by exact Hne.
        intros Htask Hp Hf Hd Ht Hlive Hk.
        pose proof (Hregistered i cfg p t k Htask Hp Hf Hd Ht Hlive Hk) as Hreg.
        rewrite JsMapLaws.get_set_other; [exact Hreg |].
        intros ->. apply JsMapFacts.get_has in Hreg.
        rewrite (Hgone k eq_refl Hkey) in Hreg. discriminate.
  - intros Heq. inversion Heq; subst config' w'; clear Heq.
    destruct Hx as [Hissued Hdistinct Hregistered].
    split; simpl.
    + intros i cfg p. destruct (decide (id = i)) as [-> | Hne].
      * rewrite lookup_insert_eq. intros H _ Hf. inversion H; subst. congruence.
      * rewrite lookup_insert_ne by exact Hne. apply Hissued.
    + intros a b ca cb pa pb t Hab.
      destruct (decide (id = a)) as [Hia | Hna];
        destruct (decide (id = b)) as [Hib | Hnb];
        [congruence | subst a | subst b |].
      * rewrite lookup_insert_eq. intros H _ _ _ Hf. inversion H; subst.
        congruence.
      * rewrite lookup_insert_ne by exact Hna. rewrite lookup_insert_eq.
        intros _ H _ _ _ Hf. inversion H; subst. congruence.
      * rewrite !lookup_insert_ne by assumption.
        apply (Hdistinct a b ca cb pa pb t Hab).
    + intros i cfg p t k. destruct (decide (id = i)) as [-> | Hne].
      * rewrite lookup_insert_eq. intros H _ Hf. inversion H; subst. congruence.
      * rewrite lookup_insert_ne by exact Hne. apply Hregistered.
Qed.

Lemma tokens_settle (id : TaskId) (config : Config) (r : Promise * World)
    (x : World) :
  requestMap (snd r) = requestMap x -> reasons (snd r) = reasons x ->
  nextToken (snd r) = nextToken x -> tasks (snd r) = tasks x ->
  tokens_ok x -> tokens_ok (settle id config r).
Proof.
  intros Hmap Hreasons Hnext Htasks Hx. unfold settle.
  destruct (tasks_continue id config (fst r) (snd r))
    as (c & ph & Hwritten & Hout & _).
  destruct (continue_fields id config (fst r) (snd r))
    as (Hmap' & _ & Hreasons' & Hnext' & _).
  apply (tokens_outside x _ id c ph); try congruence.
Qed.

Lemma tokens_step (e : Event) (w w' : World) :
  wf w -> tokens_ok w -> step e w = Some w' -> tokens_ok w'.
Proof.
  intros Hwf Hw.
  assert (Hcreated : ~ in_progress Created) by (intros [H | H]; discriminate).
  destruct e as [options | id | id | id reply | id]; unfold step.
  - some_eq. unfold MAxios.request.
    destruct (cache _); [destruct (MAxios.getResponseCache _ _) as [[? |] |] |];
      try exact Hw;
      now apply (tokens_outside w _ (nextTask w)
                   (assign defaultConfig options) Created).
  - destruct (tasks w !! id) as [[config []] |] eqn:Htask; try discriminate.
    destruct (MAxios.interceptorsRequest config w) as [[config' x] |] eqn:E;
      some_eq.
    + exact (tokens_interceptorsRequest id config config' w x Hwf Hw
               (proj1 (wf_configs w Hwf id _ Htask)) E).
    + now apply (tokens_settle id config _ w).
  - destruct (tasks w !! id) as [[config []] |] eqn:Htask; try discriminate.
    destruct (Axios.cancellationRequested config w) as [m |]; some_eq.
    + now apply (tokens_settle id config _ w).
    + apply (tokens_same_config w _ id config Intercepted InFlight);
        auto; now left.
  - destruct (tasks w !! id) as [[config []] |] eqn:Htask; try discriminate.
    destruct (Axios.cancellationRequested config w) as [m |];
      [| destruct reply as [body | failure]]; some_eq.
    + now apply (tokens_settle id config _ w).
    + pose proof (tokens_removeReq config w Hw) as Hx.
      destruct (removeReq_fields config w) as (_ & Hnext & Htasks & _).
      apply (tokens_settle id config _ (MAxios.removeReq config w));
        [| | | | exact Hx];
        unfold MAxios.interceptorsResponse; cbn [response_config];
        destruct (MAxios.setResponseCache config _ (MAxios.removeReq config w))
          as [y |] eqn:E; cbn [snd]; try reflexivity;
        destruct (setResponseCache_fields _ _ _ _ E)
          as (H1 & H2 & H3 & H4 & _); assumption.
    + apply (tokens_settle id config _ (MAxios.removeReq config w));
        [| | | | now apply tokens_removeReq];
        now rewrite interceptorsResponseError_world.
  - destruct (tasks w !! id) as [[config []] |] eqn:Htask; try discriminate.
    some_eq. now apply (tokens_outside w _ id config Created).
Qed.

Lemma reachable_tokens (w : World) : reachable w -> tokens_ok w.
Proof.
  induction 1 as [| e w w' Hreach IH Hstep]; [exact tokens_init |].
  exact (tokens_step e w w' (reachable_wf w Hreach) IH Hstep).
Qed.

End Tokens.

(** X12.  However many requests an execution has: of the requests with
    [cancelDuplicated = true] and the key of their method and url that are
    past their request interceptor and not yet settled, at most one per key
    has a token that is not cancelled.  Each such request carries a token of
    its own, and of two with the same key one is cancelled with the message
    of the registry. *)
Theorem X12_at_most_one_live_request_per_key
    (w : World) (a b : TaskId) (ca cb : Config) (pa pb : Phase) :
  reachable w ->
  a <> b ->
  tasks w !! a = Some {| task_config := ca; phase := pa |} ->
  tasks w !! b = Some {| task_config := cb; phase := pb |} ->
  in_progress pa -> in_progress pb ->
  cancelDuplicated ca = true -> cancelDuplicated cb = true ->
  duplicatedKey ca = None -> duplicatedKey cb = None ->
  MAxios.getDuplicatedKey ca = MAxios.getDuplicatedKey cb ->
  (exists ta tb,
      cancelToken ca = Some ta /\ cancelToken cb = Some tb /\ ta <> tb)
  /\ (Axios.cancellationRequested ca w = Some MAxios.canceled
      \/ Axios.cancellationRequested cb w = Some MAxios.canceled).
Proof.
  intros Hreach Hab Ha Hb Hpa Hpb Hfa Hfb Hda Hdb Hkeys.
  pose proof (reachable_wf w Hreach) as Hwf.
  destruct (reachable_tokens w Hreach) as [Hissued Hdistinct Hregistered].
  destruct (Hissued a ca pa Ha Hpa Hfa) as (ta & Hta & _).
  destruct (Hissued b cb pb Hb Hpb Hfb) as (tb & Htb & _).
  assert (Hne : ta <> tb).
  { intros <-. exact (Hdistinct a b ca cb pa pb ta Hab Ha Hb Hpa Hpb
                        Hfa Hfb Hta Htb). }
  split; [now exists ta, tb |].
  unfold Axios.cancellationRequested. rewrite Hta, Htb.
  destruct (reasons w !! ta) as [m |] eqn:Hra.
  { left. now destruct (wf_reasons w Hwf ta m Hra) as [_ ->]. }
  destruct (reasons w !! tb) as [m |] eqn:Hrb.
  { right. now destruct (wf_reasons w Hwf tb m Hrb) as [_ ->]. }
  exfalso.
  destruct (getDuplicatedKey_defined ca (proj1 (wf_configs w Hwf a _ Ha)))
    as [key Hkey].
  pose proof (Hregistered a ca pa ta key Ha Hpa Hfa Hda Hta Hra Hkey) as Hga.
  rewrite Hkeys in Hkey.
  pose proof (Hregistered b cb pb tb key Hb Hpb Hfb Hdb Htb Hrb Hkey) as Hgb.
  congruence.
Qed.

Lemma X12_at_most_one_live_request_per_key_witness :
  reachable Sample.superseded
  /\ (Axios.cancellationRequested
        (with_cancelToken (Some 0)
           (assign defaultConfig (Sample.options "/a" true false 3)))
        Sample.superseded = Some MAxios.canceled
      \/ Axios.cancellationRequested
           (with_cancelToken (Some 1)
              (assign defaultConfig (Sample.options "/a" true false 3)))
           Sample.superseded = Some MAxios.canceled).
Proof.
  split; [apply sample_world_reachable |].
  assert (Ha : tasks Sample.superseded !! 0
               = Some {| task_config :=
                           with_cancelToken (Some 0)
                             (assign defaultConfig
                                (Sample.options "/a" true false 3));
                         phase := InFlight |})
    by (vm_compute; reflexivity).
  assert (Hb : tasks Sample.superseded !! 1
               = Some {| task_config :=
                           with_cancelToken (Some 1)
                             (assign defaultConfig
                                (Sample.options "/a" true false 3));
                         phase := Intercepted |})
    by (vm_compute; reflexivity).
  assert (Hab : 0 <> 1) by lia.
  exact (proj2 (X12_at_most_one_live_request_per_key Sample.superseded 0 1 _ _
                  InFlight Intercepted (sample_world_reachable _) Hab Ha Hb
                  (or_intror eq_refl) (or_introl eq_refl)
                  eq_refl eq_refl eq_refl eq_refl eq_refl)).
Defined.

(** ** The retry scheduler of the TypeScript variant *)

(** X11.  On the same descriptor the retry schedulers of the two variants
    decide alike: both reject or both re-issue, after the same delay and with
    the same [__retryCount] written.  They differ in [timeout] only: the
    TypeScript variant never writes it, the JavaScript variant sets it to
    15000 for the re-issue that uses up the budget. *)
Theorem X11_variants_retry_alike
    (config : Config) (ts : TS.IConfig) (error : AxiosError) :
  TS.fields ts = fields config ->
  match TS.retry ts, MAxios.retry config error with
  | TS.Rejects ts', Reject _ =>
      __retryCount (TS.fields ts') = Some (MAxios.retryCountOr0 config)
      /\ timeout (TS.fields ts') = timeout config
  | TS.Reissues delay ts', RetryTask delay' config' =>
      delay = delay'
      /\ __retryCount (TS.fields ts') = __retryCount config'
      /\ timeout (TS.fields ts') = timeout config
      /\ timeout config'
         = (if (MAxios.retryCountOr0 config + 1 =? retry config)%Z
            then 15000%Z else timeout config)
  | _, _ => False
  end.
Proof.
  intros Hfields.
  assert (Hcount : TS.retryCountOr0 ts = MAxios.retryCountOr0 config)
    by (unfold TS.retryCountOr0, MAxios.retryCountOr0; now rewrite Hfields).
  unfold TS.retry. rewrite Hcount. cbn [TS.with_retryCount TS.fields retry
    retryDelay retryDelayRise]. rewrite Hfields.
  destruct (Z.lt_ge_cases (MAxios.retryCountOr0 config) (retry config))
    as [Hlt | Hge].
  - rewrite retry_again by exact Hlt.
    destruct (Z.geb_spec (MAxios.retryCountOr0 config) (retry config));
      [lia |].
    destruct (MAxios.retryCountOr0 config + 1 =? retry config)%Z;
      destruct (retryDelay config); simpl; rewrite ?Hfields;
      repeat split; reflexivity.
  - rewrite retry_exhausted by lia.
    destruct (Z.geb_spec (MAxios.retryCountOr0 config) (retry config));
      [| lia].
    simpl. rewrite ?Hfields. now split.
Qed.

Lemma X11_variants_retry_alike_witness :
  TS.retry {| TS.fields := Sample.retrying 3 2 200 true; TS.duplicatedKey := None |}
  = TS.Reissues 600
      (TS.with_retryCount 3
         {| TS.fields := Sample.retrying 3 2 200 true; TS.duplicatedKey := None |})
  /\ exists config',
      MAxios.retry (Sample.retrying 3 2 200 true) TypeError
      = RetryTask 600 config'
      /\ timeout config' = 15000%Z.
Proof.
  split; [reflexivity |].
  pose proof (X11_variants_retry_alike (Sample.retrying 3 2 200 true)
                {| TS.fields := Sample.retrying 3 2 200 true;
                   TS.duplicatedKey := None |} TypeError eq_refl) as H.
  destruct (MAxios.retry (Sample.retrying 3 2 200 true) TypeError)
    as [| | delay' config'] eqn:E; simpl in H; try contradiction.
  destruct H as (<- & _ & _ & Htimeout).
  exists config'. split; [reflexivity | exact Htimeout].
Defined.

(** X13.  However an execution goes, a request that waits for the timer of
    its retry has [__retryCount] within its budget, waits exactly what its
    [retryDelay] and [retryDelayRise] give for that count (the function's
    value, or the number times the count when the delay rises), and, when the
    count has reached [retry], will be re-issued with [timeout = 15000]. *)
Theorem X13_every_pending_retry_is_scheduled_by_the_law
    (w : World) (id : TaskId) (config : Config) (delay : Z) :
  reachable w ->
  tasks w !! id = Some {| task_config := config; phase := Delaying delay |} ->
  (MAxios.retryCountOr0 config <= retry config)%Z
  /\ delay
     = match retryDelay config with
       | DelayFunction f => f (MAxios.retryCountOr0 config)
       | DelayNumber ms =>
           (ms * (if retryDelayRise config
                  then MAxios.retryCountOr0 config else 1))%Z
       end
  /\ (MAxios.retryCountOr0 config = retry config -> timeout config = 15000%Z).
Proof.
  intros Hreach Htask.
  exact (reachable_written w Hreach id config (Delaying delay) Htask).
Qed.

Lemma X13_every_pending_retry_is_scheduled_by_the_law_witness :
  let w :=
    Sample.world
      [Call (Sample.options "/a" false false 2); RunRequestInterceptor 0;
       DispatchRequest 0; AdapterSettles 0 (inr "timeout");
       TimerFires 0; RunRequestInterceptor 0; DispatchRequest 0;
       AdapterSettles 0 (inr "timeout")] in
  reachable w
  /\ exists config,
      tasks w !! 0 = Some {| task_config := config; phase := Delaying 400 |}
      /\ MAxios.retryCountOr0 config = 2%Z
      /\ timeout config = 15000%Z.
Proof.
  intros w.
  split; [apply sample_world_reachable |].
  destruct (tasks w !! 0) as [[config ph] |] eqn:Htask;
    [| vm_compute in Htask; discriminate].
  assert (Hph : ph = Delaying 400).
  { assert (H : phase <$> tasks w !! 0 = Some (Delaying 400))
      by (vm_compute; reflexivity).
    rewrite Htask in H. now inversion H. }
  assert (Hcount : MAxios.retryCountOr0 config = 2%Z).
  { assert (H : (fun t => MAxios.retryCountOr0 (task_config t)) <$> tasks w !! 0
                = Some 2%Z) by (vm_compute; reflexivity).
    rewrite Htask in H. now inversion H. }
  assert (Hretry : retry config = 2%Z).
  { assert (H : (fun t => retry (task_config t)) <$> tasks w !! 0 = Some 2%Z)
      by (vm_compute; reflexivity).
    rewrite Htask in H. now inversion H. }
  subst ph. exists config. split; [reflexivity |]. split; [exact Hcount |].
  apply (X13_every_pending_retry_is_scheduled_by_the_law w 0 config 400
           (sample_world_reachable _) Htask).
  now rewrite Hcount, Hretry.
Defined.

(** ** The budget in an arbitrary execution *)

Section Budget.

(** What an event does to the instances and to the adapter. *)
Lemma step_effect (e : Event) (w w' : World) :
  wf w -> step e w = Some w' ->
  match e with
  | Call options =>
      adapterCalls w' = adapterCalls w
      /\ (tasks w' = tasks w
          \/ tasks w'
             = <[nextTask w := {| task_config := assign defaultConfig options;
                                  phase := Created |}]> (tasks w))
  | RunRequestInterceptor id =>
      exists c c',
        tasks w !! id = Some {| task_config := c; phase := Created |}
        /\ tasks w'
           = <[id := {| task_config := c'; phase := Intercepted |}]> (tasks w)
        /\ adapterCalls w' = adapterCalls w
        /\ retry c' = retry c
        /\ MAxios.retryCountOr0 c' = MAxios.retryCountOr0 c
  | DispatchRequest id =>
      exists c,
        tasks w !! id = Some {| task_config := c; phase := Intercepted |}
        /\ (tasks w'
            = <[id := {| task_config := c; phase := InFlight |}]> (tasks w)
            /\ adapterCalls w' = id :: adapterCalls w
            \/ exists outcome,
                tasks w'
                = <[id := {| task_config := c; phase := Done outcome |}]>
                    (tasks w)
                /\ adapterCalls w' = adapterCalls w)
  | AdapterSettles id reply =>
      exists c,
        tasks w !! id = Some {| task_config := c; phase := InFlight |}
        /\ adapterCalls w' = adapterCalls w
        /\ ((exists outcome,
                tasks w'
                = <[id := {| task_config := c; phase := Done outcome |}]>
                    (tasks w))
            \/ exists delay c',
                tasks w'
                = <[id := {| task_config := c'; phase := Delaying delay |}]>
                    (tasks w)
                /\ retry c' = retry c
                /\ MAxios.retryCountOr0 c' = (MAxios.retryCountOr0 c + 1)%Z
                /\ (MAxios.retryCountOr0 c < retry c)%Z)
  | TimerFires id =>
      exists c delay,
        tasks w !! id = Some {| task_config := c; phase := Delaying delay |}
        /\ tasks w' = <[id := {| task_config := c; phase := Created |}]> (tasks w)
        /\ adapterCalls w' = adapterCalls w
  end.
Proof.
  intros Hwf.
  destruct e as [options | id | id | id reply | id]; unfold step.
  - some_eq. unfold MAxios.request.
    destruct (cache _); [destruct (MAxios.getResponseCache _ _) as [[? |] |] |];
      (split; [reflexivity |]); try (now left); now right.
  - destruct (tasks w !! id) as [[config []] |] eqn:Htask; try discriminate.
    destruct (interceptorsRequest_live config w Hwf
                (wf_configs w Hwf id _ Htask))
      as (c1 & w1 & -> & _ & _ & Hc1 & Ht & _ & Hcalls & _).
    some_eq. exists config, c1. simpl. rewrite Ht.
    split; [reflexivity |]. split; [reflexivity |]. split; [exact Hcalls |].
    destruct Hc1 as [-> | (_ & -> & _)]; split; reflexivity.
  - destruct (tasks w !! id) as [[config []] |] eqn:Htask; try discriminate.
    destruct (Axios.cancellationRequested config w) as [m |] eqn:Hcancel;
      some_eq; exists config; (split; [reflexivity |]).
    + right. exists (Rejected (RejectMessage m)). split; reflexivity.
    + left. split; reflexivity.
  - destruct (tasks w !! id) as [[config []] |] eqn:Htask; try discriminate.
    destruct (Axios.cancellationRequested config w) as [m |] eqn:Hcancel;
      [| destruct reply as [body | failure]].
    + some_eq. exists config. split; [reflexivity |]. split; [reflexivity |].
      left. exists (Rejected (RejectMessage m)). reflexivity.
    + destruct (getDuplicatedKey_defined config
                  (proj1 (wf_configs w Hwf id _ Htask))) as [key Hkey].
      destruct (step_success id config body w Htask Hcancel)
        as (x & Hstep & Htasks & Hcalls & _); [congruence |].
      unfold step in Hstep. rewrite Htask, Hcancel in Hstep. rewrite Hstep.
      some_eq. exists config. split; [reflexivity |]. simpl.
      split; [exact Hcalls |]. left. eexists. now rewrite Htasks.
    + some_eq. exists config. split; [reflexivity |]. unfold settle.
      destruct (continue_fields id config
                  (fst (MAxios.interceptorsResponseError
                          (TransportError failure config) w))
                  (snd (MAxios.interceptorsResponseError
                          (TransportError failure config) w)))
        as (_ & _ & _ & _ & _ & ->).
      rewrite interceptorsResponseError_world,
        interceptorsResponseError_transport.
      cbn [error_config].
      destruct (removeReq_fields config w) as (_ & _ & Htasks & _ & ->).
      split; [reflexivity |].
      destruct (Z.gtb_spec (retry config) 0) as [Hpos | Hzero].
      * destruct (MAxios.retry config (TransportError failure config))
          as [response | reason | delay config'] eqn:Hretry.
        -- left. eexists. simpl. now rewrite Htasks.
        -- left. eexists. simpl. now rewrite Htasks.
        -- right. exists delay, config'. simpl. rewrite Htasks.
           split; [reflexivity |].
           destruct (retry_config _ _ _ _ Hretry)
             as (_ & _ & _ & Hr & _ & _ & _ & _ & _ & Hc & Hlt).
           split; [exact Hr |]. split; [| exact Hlt].
           unfold MAxios.retryCountOr0 at 1. rewrite Hc.
           destruct (Z.eqb_spec (MAxios.retryCountOr0 config + 1) 0); lia.
      * left. eexists. simpl. now rewrite Htasks.
  - destruct (tasks w !! id) as [[config [| | | delay |]] |] eqn:Htask;
      try discriminate.
    some_eq. exists config, delay. repeat split.
Qed.

Lemma transportCalls_same (id : TaskId) (w w' : World) :
  adapterCalls w' = adapterCalls w -> transportCalls id w' = transportCalls id w.
Proof. unfold transportCalls. now intros ->. Qed.

Lemma transportCalls_cons (id id' : TaskId) (w w' : World) :
  adapterCalls w' = id' :: adapterCalls w ->
  transportCalls id w'
  = (if decide (id' = id) then 1 else 0) + transportCalls id w.
Proof.
  unfold transportCalls. intros ->.
  destruct (decide (id' = id)) as [-> | Hne].
  - now rewrite filter_cons_True.
  - now rewrite filter_cons_False.
Qed.

(** No event, of the instance or of another, takes it out of its budget. *)
Lemma within_budget_step (n : Z) (id : TaskId) (e : Event) (w w' : World) :
  wf w -> within_budget n id w -> step e w = Some w' ->
  within_budget n id w'.
Proof.
  intros Hwf (config & ph & Htask & Hretry & Hcount & Hcalls) Hstep.
  pose proof (step_effect e w w' Hwf Hstep) as Heffect.
  unfold within_budget.
  destruct e as [options | id' | id' | id' reply | id'].
  - destruct Heffect as (Hsame & Htasks).
    rewrite (transportCalls_same id w w' Hsame).
    exists config, ph. split; [| auto].
    destruct Htasks as [-> | ->]; [exact Htask |].
    rewrite lookup_insert_ne; [exact Htask |].
    pose proof (wf_tasks w Hwf id _ Htask). lia.
  - destruct Heffect as (c & c' & Hbefore & -> & Hsame & Hr & Hc).
    rewrite (transportCalls_same id w w' Hsame).
    destruct (decide (id' = id)) as [-> | Hne].
    + rewrite Htask in Hbefore. inversion Hbefore; subst.
      exists c', Intercepted. rewrite lookup_insert_eq, Hr, Hc. auto.
    + exists config, ph. rewrite lookup_insert_ne by exact Hne. auto.
  - destruct Heffect as (c & Hbefore & [(-> & Hcons) | (outcome & -> & Hsame)]).
    + rewrite (transportCalls_cons id id' w w' Hcons).
      destruct (decide (id' = id)) as [-> | Hne].
      * rewrite Htask in Hbefore. inversion Hbefore; subst.
        exists c, InFlight. rewrite lookup_insert_eq.
        repeat split; auto; lia.
      * exists config, ph. rewrite lookup_insert_ne by exact Hne. auto.
    + rewrite (transportCalls_same id w w' Hsame).
      destruct (decide (id' = id)) as [-> | Hne].
      * rewrite Htask in Hbefore. inversion Hbefore; subst.
        exists c, (Done outcome). rewrite lookup_insert_eq.
        repeat split; auto; lia.
      * exists config, ph. rewrite lookup_insert_ne by exact Hne. auto.
  - destruct Heffect as (c & Hbefore & Hsame & Hafter).
    rewrite (transportCalls_same id w w' Hsame).
    destruct (decide (id' = id)) as [-> | Hne].
    + rewrite Htask in Hbefore. inversion Hbefore; subst.
      destruct Hafter as [(outcome & ->) | (delay & c' & -> & Hr & Hc & Hlt)].
      * exists c, (Done outcome). rewrite lookup_insert_eq.
        repeat split; auto; lia.
      * exists c', (Delaying delay). rewrite lookup_insert_eq, Hr, Hc.
        repeat split; auto; lia.
    + exists config, ph.
      destruct Hafter as [(outcome & ->) | (delay & c' & -> & _)];
        rewrite lookup_insert_ne by exact Hne; auto.
  - destruct Heffect as (c & delay & Hbefore & -> & Hsame).
    rewrite (transportCalls_same id w w' Hsame).
    destruct (decide (id' = id)) as [-> | Hne].
    + rewrite Htask in Hbefore. inversion Hbefore; subst.
      exists c, Created. rewrite lookup_insert_eq. auto.
    + exists config, ph. rewrite lookup_insert_ne by exact Hne. auto.
Qed.

Lemma within_budget_run (n : Z) (id : TaskId) (events : list Event)
    (w w' : World) :
  wf w -> within_budget n id w -> run events w = Some w' ->
  within_budget n id w'.
Proof.
  revert w. induction events as [| e events IH]; simpl; intros w Hwf Hw.
  - now some_eq.
  - destruct (step e w) as [w1 |] eqn:Hstep; [| discriminate].
    apply IH; [exact (wf_step e w w1 Hwf Hstep) |].
    exact (within_budget_step n id e w w1 Hwf Hw Hstep).
Qed.

(** A request that [request] does not answer from the cache is issued on
    the next instance. *)
Lemma request_instance (options : Options) (w : World) id :
  fst (MAxios.request options w) = MAxios.FromInstance id ->
  id = nextTask w
  /\ snd (MAxios.request options w)
     = Axios.request (nextTask w) (assign defaultConfig options)
         (with_nextTask (S (nextTask w)) w).
Proof.
  unfold MAxios.request.
  destruct (cache _); [destruct (MAxios.getResponseCache _ _) as [[? |] |] |];
    simpl; intros H; inversion H; auto.
Qed.

End Budget.

(** X14.  In any execution, however the events of other requests are
    interleaved and whatever the transport answers to whom, a request issued
    with [retry = n], [n >= 0], and no [__retryCount] of its own stays within
    its budget: its [__retryCount] stays between 0 and [n], and the adapter
    never runs more than [__retryCount + 1], hence [n + 1], times for it. *)
Theorem X14_budget_is_never_exceeded
    (w : World) (options : Options) (n : Z) (id : TaskId)
    (events : list Event) (w' : World) :
  reachable w ->
  (0 <= n)%Z ->
  retry (assign defaultConfig options) = n ->
  opt_retryCount options = None ->
  fst (MAxios.request options w) = MAxios.FromInstance id ->
  run events (snd (MAxios.request options w)) = Some w' ->
  exists config,
    config_of id w' = Some config
    /\ retry config = n
    /\ (0 <= MAxios.retryCountOr0 config <= n)%Z
    /\ transportCalls id w' <= Z.to_nat (MAxios.retryCountOr0 config) + 1
    /\ transportCalls id w' <= Z.to_nat n + 1.
Proof.
  intros Hreach Hn Hretry Hfresh Hissued Hrun.
  pose proof (reachable_wf w Hreach) as Hwf.
  assert (Hwf1 : wf (snd (MAxios.request options w)))
    by exact (wf_step (Call options) w _ Hwf eq_refl).
  destruct (request_instance options w id Hissued) as [-> Hworld].
  assert (Hstart : within_budget n (nextTask w) (snd (MAxios.request options w))).
  { rewrite Hworld. exists (assign defaultConfig options), Created.
    simpl tasks. rewrite lookup_insert_eq.
    assert (Hzero : MAxios.retryCountOr0 (assign defaultConfig options) = 0%Z)
      by (unfold MAxios.retryCountOr0; simpl; now rewrite Hfresh).
    rewrite Hzero. repeat split; auto; try lia.
    now apply (transportCalls_fresh (nextTask w) w Hwf). }
  destruct (within_budget_run n (nextTask w) events _ w' Hwf1 Hstart Hrun)
    as (config & ph & Htask & Hr & Hcount & Hcalls).
  exists config. unfold config_of. rewrite Htask.
  split; [reflexivity |]. split; [exact Hr |]. split; [exact Hcount |].
  assert (Hle : transportCalls (nextTask w) w'
                <= Z.to_nat (MAxios.retryCountOr0 config) + 1)
    by (destruct ph; lia).
  split; [exact Hle | lia].
Qed.

Lemma X14_budget_is_never_exceeded_witness :
  let options := Sample.options "/a" false false 1 in
  let events :=
    [RunRequestInterceptor 1; Call (Sample.options "/b" true false 0);
     DispatchRequest 1; RunRequestInterceptor 2;
     AdapterSettles 1 (inr "timeout"); TimerFires 1; RunRequestInterceptor 1;
     DispatchRequest 1; AdapterSettles 1 (inr "timeout")] in
  reachable Sample.cached
  /\ exists w',
      run events (snd (MAxios.request options Sample.cached)) = Some w'
      /\ transportCalls 1 w' = 2
      /\ transportCalls 1 w' <= Z.to_nat 1 + 1.
Proof.
  intros options events.
  split; [apply sample_world_reachable |].
  destruct (run events (snd (MAxios.request options Sample.cached)))
    as [w' |] eqn:Hrun; [| vm_compute in Hrun; discriminate].
  exists w'. split; [reflexivity |].
  split.
  - assert (H : transportCalls 1 <$>
                  run events (snd (MAxios.request options Sample.cached))
                = Some 2) by (vm_compute; reflexivity).
    rewrite Hrun in H. now inversion H.
  - destruct (X14_budget_is_never_exceeded Sample.cached options 1 1 events w'
                (sample_world_reachable _) ltac:(lia) eq_refl eq_refl eq_refl
                Hrun) as (config & _ & _ & _ & _ & Hle).
    exact Hle.
Defined.
